(** * Monte Carlo simulator for trading-strategy performance

    A shallow embedding of [monte_carlo_simulator.py] and the properties of
    its trajectory loop and of its aggregation step.

    Conventions of the model.
    - A Python [float] is an exact rational ([Q]); [float('inf')] and numpy's
      [nan] are separate constructors where the program can produce them.
      Rounding is therefore not modelled, and equalities between computed
      amounts are stated with [==] on [Q]. Identities that only exact
      arithmetic gives (a quotient multiplied back by its divisor, a
      factored sum, a strict bound that rounding can close) are kept out of
      the statements of the further properties.
    - A Python [int] is a [Z]; the two loop bounds [num_simulations] and
      [num_trades] are naturals ([range] of them is what the code uses).
    - An operation that can raise returns in [result]; [inl e] is the
      exception [e] propagating out of the function.
    - The module-level generator [np.random] is the explicit value
      [generator]: the sequence of numbers its next calls return. Every call
      takes the head and leaves the rest, so the generator is threaded through
      the trade loop and through the simulations exactly as the calls occur.
    - [sharpe_ratio] and the ['std'] entries of the analysis need a square
      root; no property below mentions them and they are left out of the two
      output records. The list [returns] they are computed from is kept.
    - The callers and readers of the simulator are embedded after it: the
      export and the standard run, the scenario loops of [run_stress_tests]
      and of [run_full_analysis], the percentile lookups of
      [visualizations.py] on the exported file, and the calculator of
      [position_sizing_calculator.py]. Printing and plotting are left out;
      a function that writes a file is modelled by the value it writes.
    - Labels and dictionary keys are strings. [KeyError] and [TypeError]
      only arise in the dictionary and keyword layer, which has its own
      exception type [exception] around [exn]. *)

From Stdlib Require Import String DecimalString.
From Stdlib Require Import QArith Qminmax Qabs Qround ZArith List Lia Bool.
From Stdlib Require Import Morphisms Setoid Sorted Lqa.
Import ListNotations.
Open Scope Q_scope.

(** ** Exceptions *)

Inductive exn : Type :=
| ZeroDivisionError
| IndexError
| ValueError.

Definition result (A : Type) : Type := (exn + A)%type.

Definition ret {A : Type} (a : A) : result A := inr a.

Definition raise {A : Type} (e : exn) : result A := inl e.

Definition bind {A B : Type} (m : result A) (k : A -> result B) : result B :=
  match m with
  | inl e => inl e
  | inr a => k a
  end.

Notation "x <- m ;; k" := (bind m (fun x => k))
  (at level 61, m at next level, right associativity).

(** ** Python arithmetic on floats and lists *)

Definition Qltb (x y : Q) : bool := negb (Qle_bool y x).

(** [a / b] on floats: raises [ZeroDivisionError] when [b] is zero. *)
Definition py_div (a b : Q) : result Q :=
  if Qeq_bool b 0 then raise ZeroDivisionError else ret (a / b).

(** [min(a, b)] and [max(a, b)] return the first argument unless the second
    is strictly smaller (resp. larger). *)
Definition py_min (a b : Q) : Q := if Qltb b a then b else a.

Definition py_max (a b : Q) : Q := if Qltb a b then b else a.

(** [l[i]], with Python's negative indices. *)
Definition py_get (l : list Q) (i : Z) : result Q :=
  let n := Z.of_nat (length l) in
  let j := if (i <? 0)%Z then (n + i)%Z else i in
  if ((0 <=? j)%Z && (j <? n)%Z)%bool
  then ret (nth (Z.to_nat j) l 0)
  else raise IndexError.

Definition len {A : Type} (l : list A) : Z := Z.of_nat (length l).

(** ** Inputs *)

Record TradeStats : Type := {
  win_rate : Q;
  avg_win : Q;
  avg_loss : Q;
  total_trades : Z;
  wins : Z;
  losses : Z;
  high_conf_trades : Z;
  high_conf_pnl : Q;
  medium_conf_trades : Z;
  medium_conf_pnl : Q;
  low_conf_trades : Z;
  low_conf_pnl : Q;
  high_conf_pct : Q;
  medium_conf_pct : Q;
  low_conf_pct : Q
}.

Record SimulationConfig : Type := {
  num_simulations : nat;
  num_trades : nat;
  initial_capital : Q;
  use_compounding : bool;
  high_conf_kelly : Q;
  medium_conf_kelly : Q;
  low_conf_kelly : Q;
  max_position_pct : Q;
  max_total_exposure : Q;
  correlation_reduction : Q;
  slippage_pct : Q;
  commission_pct : Q
}.

(** The dataclass defaults. *)
Definition default_stats : TradeStats := {|
  win_rate := 0.543; avg_win := 6.88; avg_loss := 1.57;
  total_trades := 35; wins := 19; losses := 16;
  high_conf_trades := 24; high_conf_pnl := 93.90;
  medium_conf_trades := 10; medium_conf_pnl := 11.16;
  low_conf_trades := 1; low_conf_pnl := 0.50;
  high_conf_pct := 0.67; medium_conf_pct := 0.31; low_conf_pct := 0.02
|}.

Definition default_config : SimulationConfig := {|
  num_simulations := Z.to_nat 10000; num_trades := Z.to_nat 1000;
  initial_capital := 1000; use_compounding := true;
  high_conf_kelly := 0.146; medium_conf_kelly := 0.110; low_conf_kelly := 0.055;
  max_position_pct := 0.20; max_total_exposure := 1.50;
  correlation_reduction := 0.30;
  slippage_pct := 0.005; commission_pct := 0.001
|}.

Inductive confidence : Type := HIGH | MEDIUM | LOW.

(** ** Output of one trajectory *)

Inductive pfloat : Type :=
| finite (q : Q)
| infinity.

Record SimulationResult : Type := {
  final_capital : Q;
  total_pnl : Q;
  max_drawdown : Q;
  max_drawdown_pct : Q;
  longest_win_streak : Z;
  longest_loss_streak : Z;
  total_wins : Z;
  total_losses : Z;
  actual_win_rate : Q;
  profit_factor : pfloat;
  equity_curve : list Q;
  drawdown_curve : list Q
}.

(** ** The shared random generator *)

Definition generator : Type := nat -> Q.

Definition advance (g : generator) : generator := fun i => g (S i).

(** A generator that returns the listed values, then zeros. *)
Definition replay (l : list Q) : generator := fun i => nth i l 0.

Module np_random.

(** [np.random.random()]. *)
Definition random (g : generator) : Q * generator := (g O, advance g).

(** [np.random.lognormal(mean, sigma)]: the value drawn is the generator's
    next number; [mean] and [sigma] (computed from [avg_win] and
    [avg_loss]) only shape its distribution. *)
Definition lognormal (g : generator) : Q * generator := (g O, advance g).

End np_random.

(** ** The per-trade components *)

Definition _generate_confidence_level (stats : TradeStats) (g : generator)
  : confidence * generator :=
  let (rand, g1) := np_random.random g in
  if Qltb rand (high_conf_pct stats) then (HIGH, g1)
  else if Qltb rand (high_conf_pct stats + medium_conf_pct stats) then (MEDIUM, g1)
  else (LOW, g1).

Definition _get_win_rate_by_confidence (c : confidence) : Q :=
  match c with
  | HIGH => 0.625
  | MEDIUM => 0.500
  | LOW => 0.450
  end.

Definition _simulate_single_trade (cfg : SimulationConfig) (c : confidence)
  (g : generator) : (Q * bool) * generator :=
  let win_rate := _get_win_rate_by_confidence c in
  let (u, g1) := np_random.random g in
  let is_winner := Qltb u win_rate in
  let (x, g2) := np_random.lognormal g1 in
  let pnl := if is_winner then x else - x in
  let slippage_cost := Qabs pnl * slippage_pct cfg in
  let commission_cost := Qabs pnl * commission_pct cfg * 2 in
  let pnl := pnl - slippage_cost - commission_cost in
  ((pnl, is_winner), g2).

Definition kelly_of (cfg : SimulationConfig) (c : confidence) : Q :=
  match c with
  | HIGH => high_conf_kelly cfg
  | MEDIUM => medium_conf_kelly cfg
  | LOW => low_conf_kelly cfg
  end.

Definition _calculate_position_size (cfg : SimulationConfig) (capital : Q)
  (c : confidence) (risk_pct : Q) : Q :=
  let kelly_fraction := kelly_of cfg c in
  let position_size := capital * kelly_fraction * risk_pct in
  let max_position := capital * max_position_pct cfg in
  py_min position_size max_position.

(** ** One trajectory: [_run_single_simulation] *)

(** The local variables of [_run_single_simulation]. *)
Module Run.

Record vars : Type := {
  capital : Q;
  equity_curve : list Q;
  peak_capital : Q;
  max_drawdown : Q;
  wins : Z;
  losses : Z;
  current_streak : Z;
  longest_win_streak : Z;
  longest_loss_streak : Z;
  last_trade_won : option bool;
  gross_profit : Q;
  gross_loss : Q;
  returns : list Q
}.

End Run.

Definition initial_vars (cfg : SimulationConfig) : Run.vars := {|
  Run.capital := initial_capital cfg;
  Run.equity_curve := [initial_capital cfg];
  Run.peak_capital := initial_capital cfg;
  Run.max_drawdown := 0;
  Run.wins := 0;
  Run.losses := 0;
  Run.current_streak := 0;
  Run.longest_win_streak := 0;
  Run.longest_loss_streak := 0;
  Run.last_trade_won := None;
  Run.gross_profit := 0;
  Run.gross_loss := 0;
  Run.returns := []
|}.

(** [last_trade_won == b] for [last_trade_won] in [None], [True], [False]. *)
Definition won_is (last : option bool) (b : bool) : bool :=
  match last with
  | Some b' => Bool.eqb b' b
  | None => false
  end.

(** Lines 199-216: draw the confidence level, size the position, draw the
    trade and scale its PnL. *)
Definition draw_trade (cfg : SimulationConfig) (stats : TradeStats)
  (capital : Q) (g : generator) : result (Q * bool * generator) :=
  let (c, g1) := _generate_confidence_level stats g in
  let position_size :=
    if use_compounding cfg
    then _calculate_position_size cfg capital c 1
    else _calculate_position_size cfg (initial_capital cfg) c 1 in
  let '(pnl_per_unit, is_winner, g2) := _simulate_single_trade cfg c g1 in
  frac <- py_div position_size (initial_capital cfg) ;;
  ret (pnl_per_unit * frac, is_winner, g2).

(** Lines 222-239: counters, gross sums and streaks. *)
Definition track_metrics (st : Run.vars) (capital trade_pnl : Q)
  (is_winner : bool) : Run.vars :=
  if is_winner then
    let streak :=
      if won_is (Run.last_trade_won st) true
      then (Run.current_streak st + 1)%Z else 1%Z in
    {| Run.capital := capital;
       Run.equity_curve := Run.equity_curve st;
       Run.peak_capital := Run.peak_capital st;
       Run.max_drawdown := Run.max_drawdown st;
       Run.wins := (Run.wins st + 1)%Z;
       Run.losses := Run.losses st;
       Run.current_streak := streak;
       Run.longest_win_streak := Z.max (Run.longest_win_streak st) streak;
       Run.longest_loss_streak := Run.longest_loss_streak st;
       Run.last_trade_won := Some true;
       Run.gross_profit := Run.gross_profit st + Qabs trade_pnl;
       Run.gross_loss := Run.gross_loss st;
       Run.returns := Run.returns st |}
  else
    let streak :=
      if won_is (Run.last_trade_won st) false
      then (Run.current_streak st + 1)%Z else 1%Z in
    {| Run.capital := capital;
       Run.equity_curve := Run.equity_curve st;
       Run.peak_capital := Run.peak_capital st;
       Run.max_drawdown := Run.max_drawdown st;
       Run.wins := Run.wins st;
       Run.losses := (Run.losses st + 1)%Z;
       Run.current_streak := streak;
       Run.longest_win_streak := Run.longest_win_streak st;
       Run.longest_loss_streak := Z.max (Run.longest_loss_streak st) streak;
       Run.last_trade_won := Some false;
       Run.gross_profit := Run.gross_profit st;
       Run.gross_loss := Run.gross_loss st + Qabs trade_pnl;
       Run.returns := Run.returns st |}.

(** Lines 252-254: the return of the trade just appended. *)
Definition trade_return (equity_curve returns : list Q) : result (list Q) :=
  if (1 <? len equity_curve)%Z then
    cur <- py_get equity_curve (-1) ;;
    prev <- py_get equity_curve (-2) ;;
    divisor <- py_get equity_curve (-2) ;;
    r <- py_div (cur - prev) divisor ;;
    ret (returns ++ [r])
  else ret returns.

(** One iteration of the trade loop. The boolean is [true] when the
    iteration ends in [break]. *)
Definition loop_body (cfg : SimulationConfig) (stats : TradeStats)
  (st : Run.vars) (g : generator) : result (Run.vars * bool * generator) :=
  t <- draw_trade cfg stats (Run.capital st) g ;;
  let '(trade_pnl, is_winner, g') := t in
  let capital := Run.capital st + trade_pnl in
  let st1 := track_metrics st capital trade_pnl is_winner in
  let equity_curve := Run.equity_curve st1 ++ [capital] in
  let peak_capital :=
    if Qltb (Run.peak_capital st1) capital then capital
    else Run.peak_capital st1 in
  let drawdown := peak_capital - capital in
  let max_drawdown := py_max (Run.max_drawdown st1) drawdown in
  returns <- trade_return equity_curve (Run.returns st1) ;;
  let wiped_out := Qle_bool capital 0 in
  ret ({| Run.capital := if wiped_out then 0 else capital;
          Run.equity_curve :=
            if wiped_out then equity_curve ++ [0] else equity_curve;
          Run.peak_capital := peak_capital;
          Run.max_drawdown := max_drawdown;
          Run.wins := Run.wins st1;
          Run.losses := Run.losses st1;
          Run.current_streak := Run.current_streak st1;
          Run.longest_win_streak := Run.longest_win_streak st1;
          Run.longest_loss_streak := Run.longest_loss_streak st1;
          Run.last_trade_won := Run.last_trade_won st1;
          Run.gross_profit := Run.gross_profit st1;
          Run.gross_loss := Run.gross_loss st1;
          Run.returns := returns |},
       wiped_out, g').

(** [for trade_num in range(n)], with its [break]. *)
Fixpoint trade_loop (cfg : SimulationConfig) (stats : TradeStats) (n : nat)
  (st : Run.vars) (g : generator) : result (Run.vars * generator) :=
  match n with
  | O => ret (st, g)
  | S n' =>
      step <- loop_body cfg stats st g ;;
      let '(st', broke, g') := step in
      if (broke : bool) then ret (st', g') else trade_loop cfg stats n' st' g'
  end.

(** Lines 276-283: the drawdown curve, recomputed from the equity curve. *)
Fixpoint drawdown_loop (peak : Q) (curve : list Q) : result (list Q) :=
  match curve with
  | [] => ret []
  | equity :: rest =>
      let peak := if Qltb peak equity then equity else peak in
      dd <- (if Qltb 0 peak
             then x <- py_div (peak - equity) peak ;; ret (x * 100)
             else ret 0) ;;
      dds <- drawdown_loop peak rest ;;
      ret (dd :: dds)
  end.

(** Lines 262-299: the final metrics. *)
Definition final_metrics (cfg : SimulationConfig) (st : Run.vars)
  : result SimulationResult :=
  let total_pnl := Run.capital st - initial_capital cfg in
  max_drawdown_pct <-
    (if Qltb 0 (Run.peak_capital st)
     then x <- py_div (Run.max_drawdown st) (Run.peak_capital st) ;; ret (x * 100)
     else ret 100) ;;
  actual_win_rate <-
    (if (0 <? Run.wins st + Run.losses st)%Z
     then py_div (inject_Z (Run.wins st))
                 (inject_Z (Run.wins st + Run.losses st))
     else ret 0) ;;
  profit_factor <-
    (if Qltb 0 (Run.gross_loss st)
     then x <- py_div (Run.gross_profit st) (Run.gross_loss st) ;; ret (finite x)
     else ret infinity) ;;
  peak <- py_get (Run.equity_curve st) 0 ;;
  drawdown_curve <- drawdown_loop peak (Run.equity_curve st) ;;
  ret {| final_capital := Run.capital st;
         total_pnl := total_pnl;
         max_drawdown := Run.max_drawdown st;
         max_drawdown_pct := max_drawdown_pct;
         longest_win_streak := Run.longest_win_streak st;
         longest_loss_streak := Run.longest_loss_streak st;
         total_wins := Run.wins st;
         total_losses := Run.losses st;
         actual_win_rate := actual_win_rate;
         profit_factor := profit_factor;
         equity_curve := Run.equity_curve st;
         drawdown_curve := drawdown_curve |}.

Definition _run_single_simulation (cfg : SimulationConfig) (stats : TradeStats)
  (g : generator) : result (SimulationResult * generator) :=
  fin <- trade_loop cfg stats (num_trades cfg) (initial_vars cfg) g ;;
  let (st, g') := fin in
  r <- final_metrics cfg st ;;
  ret (r, g').

(** ** The numpy reductions used by the analysis *)

Module np.

Inductive float64 : Type :=
| value (q : Q)
| nan.

Definition sum (a : list Q) : Q := fold_left Qplus a 0.

(** [np.mean]: [nan] (with a warning, no exception) on an empty input. *)
Definition mean (a : list Q) : float64 :=
  match a with
  | [] => nan
  | _ => value (sum a / inject_Z (len a))
  end.

Fixpoint insert (x : Q) (s : list Q) : list Q :=
  match s with
  | [] => [x]
  | y :: t => if Qle_bool x y then x :: s else y :: insert x t
  end.

Definition sort (a : list Q) : list Q := fold_right insert [] a.

(** [np.median]: the middle element of the sorted input, or the mean of
    the two middle ones; [nan] on an empty input. *)
Definition median (a : list Q) : float64 :=
  match a with
  | [] => nan
  | _ =>
      let s := sort a in
      let n := length a in
      if Nat.even n
      then value ((nth (n / 2 - 1) s 0 + nth (n / 2) s 0) / 2)
      else value (nth (n / 2) s 0)
  end.

(** [np.min] and [np.max] raise [ValueError] on an empty input. *)
Definition min (a : list Q) : result Q :=
  match a with
  | [] => raise ValueError
  | x :: t => ret (fold_left Qmin t x)
  end.

Definition max (a : list Q) : result Q :=
  match a with
  | [] => raise ValueError
  | x :: t => ret (fold_left Qmax t x)
  end.

Definition lerp (a b t : Q) : Q := a + (b - a) * t.

(** [np.percentile(a, q)] with the default method, linear interpolation: the
    virtual index [(n - 1) * q / 100] is split into its floor and its
    fractional part, and the two neighbouring order statistics are
    interpolated; the upper neighbour is clipped to the last element. *)
Definition percentile (a : list Q) (q : Q) : float64 :=
  match a with
  | [] => nan
  | _ =>
      let s := sort a in
      let virtual_index := inject_Z (len a - 1) * (q / 100) in
      let previous := Qfloor virtual_index in
      let next := Z.min (previous + 1) (len a - 1) in
      let gamma := virtual_index - inject_Z previous in
      value (lerp (nth (Z.to_nat previous) s 0) (nth (Z.to_nat next) s 0) gamma)
  end.

End np.

(** ** Aggregation: [analyze_results] *)

(** One inner dictionary of the analysis; a key the program does not emit
    for a metric is [None] (resp. the empty list). *)
Module Dist.

Record t : Type := {
  mean : np.float64;
  median : np.float64;
  min : option Q;
  max : option Q;
  percentiles : list (Z * np.float64)
}.

End Dist.

Module Analysis.

Record t : Type := {
  final_capital : Dist.t;
  total_pnl : Dist.t;
  max_drawdown_pct : Dist.t;
  win_rate : Dist.t;
  profit_factor : Dist.t;
  longest_loss_streak : Dist.t;
  probability_of_profit : Q;
  probability_of_ruin : Q
}.

End Analysis.

Definition percentiles : list Z := [1; 5; 10; 25; 50; 75; 90; 95; 99]%Z.

(** [{p: np.percentile(a, p) for p in percentiles}]. *)
Definition percentile_table (a : list Q) : list (Z * np.float64) :=
  map (fun p => (p, np.percentile a (inject_Z p))) percentiles.

(** [sum(1 for x in a if f(x))]. *)
Definition count_where (f : Q -> bool) (a : list Q) : Z :=
  fold_left (fun acc x => if f x then (acc + 1)%Z else acc) a 0%Z.

(** The list comprehension that keeps the finite profit factors. *)
Fixpoint finite_profit_factors (results : list SimulationResult) : list Q :=
  match results with
  | [] => []
  | r :: rest =>
      match profit_factor r with
      | finite x => x :: finite_profit_factors rest
      | infinity => finite_profit_factors rest
      end
  end.

Definition analyze_results (cfg : SimulationConfig)
  (results : list SimulationResult) : result Analysis.t :=
  let final_capitals := map final_capital results in
  let total_pnls := map total_pnl results in
  let max_drawdowns := map max_drawdown_pct results in
  let win_rates := map actual_win_rate results in
  let profit_factors := finite_profit_factors results in
  let longest_loss_streaks :=
    map (fun r => inject_Z (longest_loss_streak r)) results in
  fc_min <- np.min final_capitals ;;
  fc_max <- np.max final_capitals ;;
  pnl_min <- np.min total_pnls ;;
  pnl_max <- np.max total_pnls ;;
  dd_min <- np.min max_drawdowns ;;
  dd_max <- np.max max_drawdowns ;;
  streak_max <- np.max longest_loss_streaks ;;
  profit <- py_div (inject_Z (count_where (fun pnl => Qltb 0 pnl) total_pnls))
                   (inject_Z (len total_pnls)) ;;
  ruin <- py_div
            (inject_Z (count_where
                         (fun cap => Qltb cap (initial_capital cfg * 0.5))
                         final_capitals))
            (inject_Z (len final_capitals)) ;;
  ret {|
    Analysis.final_capital := {|
      Dist.mean := np.mean final_capitals;
      Dist.median := np.median final_capitals;
      Dist.min := Some fc_min;
      Dist.max := Some fc_max;
      Dist.percentiles := percentile_table final_capitals |};
    Analysis.total_pnl := {|
      Dist.mean := np.mean total_pnls;
      Dist.median := np.median total_pnls;
      Dist.min := Some pnl_min;
      Dist.max := Some pnl_max;
      Dist.percentiles := percentile_table total_pnls |};
    Analysis.max_drawdown_pct := {|
      Dist.mean := np.mean max_drawdowns;
      Dist.median := np.median max_drawdowns;
      Dist.min := Some dd_min;
      Dist.max := Some dd_max;
      Dist.percentiles := percentile_table max_drawdowns |};
    Analysis.win_rate := {|
      Dist.mean := np.mean win_rates;
      Dist.median := np.median win_rates;
      Dist.min := None;
      Dist.max := None;
      Dist.percentiles := [] |};
    Analysis.profit_factor := {|
      Dist.mean := np.mean profit_factors;
      Dist.median := np.median profit_factors;
      Dist.min := None;
      Dist.max := None;
      Dist.percentiles := [] |};
    Analysis.longest_loss_streak := {|
      Dist.mean := np.mean longest_loss_streaks;
      Dist.median := np.median longest_loss_streaks;
      Dist.min := None;
      Dist.max := Some streak_max;
      Dist.percentiles := percentile_table longest_loss_streaks |};
    Analysis.probability_of_profit := profit * 100;
    Analysis.probability_of_ruin := ruin * 100
  |}.

(** ** The batch: [run_simulation] *)

(** [for i in range(m)]: each trajectory continues with the generator the
    previous one left. *)
Fixpoint simulate_all (cfg : SimulationConfig) (stats : TradeStats) (m : nat)
  (results : list SimulationResult) (g : generator)
  : result (list SimulationResult * generator) :=
  match m with
  | O => ret (results, g)
  | S m' =>
      run <- _run_single_simulation cfg stats g ;;
      let (r, g') := run in
      simulate_all cfg stats m' (results ++ [r]) g'
  end.

Definition run_simulation (cfg : SimulationConfig) (stats : TradeStats)
  (g : generator) : result (Analysis.t * generator) :=
  sims <- simulate_all cfg stats (num_simulations cfg) [] g ;;
  let (results, g') := sims in
  analysis <- analyze_results cfg results ;;
  ret (analysis, g').

(** ** Exporting a batch: [export_results] *)

(** [l[i]] on a list of any element type. *)
Definition py_item {A : Type} (l : list A) (i : Z) : result A :=
  let n := len l in
  let j := if (i <? 0)%Z then (n + i)%Z else i in
  if ((0 <=? j)%Z && (j <? n)%Z)%bool
  then match nth_error l (Z.to_nat j) with
       | Some a => ret a
       | None => raise IndexError
       end
  else raise IndexError.

(** One entry of ['sample_equity_curves']. *)
Module Sample.

Record t : Type := {
  simulation : Z;
  equity_curve : list Q;
  drawdown_curve : list Q;
  final_capital : Q
}.

End Sample.

(** The dictionary [export_data] that is written to the file. *)
Module ExportData.

Record t : Type := {
  config : SimulationConfig;
  stats : TradeStats;
  analysis : Analysis.t;
  sample_equity_curves : list Sample.t
}.

End ExportData.

(** [[0, len(results)//4, len(results)//2, 3*len(results)//4, -1]]. *)
Definition sample_indices (results : list SimulationResult) : list Z :=
  [0; len results / 4; len results / 2; 3 * len results / 4; -1]%Z.

(** The list comprehension over the indices; each entry indexes the
    results three times. *)
Fixpoint sample_equity_curves (results : list SimulationResult)
  (indices : list Z) : result (list Sample.t) :=
  match indices with
  | [] => ret []
  | i :: rest =>
      r1 <- py_item results i ;;
      r2 <- py_item results i ;;
      r3 <- py_item results i ;;
      samples <- sample_equity_curves results rest ;;
      ret ({| Sample.simulation := i;
              Sample.equity_curve := equity_curve r1;
              Sample.drawdown_curve := drawdown_curve r2;
              Sample.final_capital := final_capital r3 |} :: samples)
  end.

(** [export_results] up to the call of [json.dump]: the value is the
    dictionary handed to it. *)
Definition export_results (cfg : SimulationConfig) (stats : TradeStats)
  (results : list SimulationResult) : result ExportData.t :=
  analysis <- analyze_results cfg results ;;
  samples <- sample_equity_curves results (sample_indices results) ;;
  ret {| ExportData.config := cfg;
         ExportData.stats := stats;
         ExportData.analysis := analysis;
         ExportData.sample_equity_curves := samples |}.

(** ** The standard run: [run_standard_simulation] *)

(** [run_simulation] followed by [export_results] on the default
    statistics and configuration. The simulator object keeps the results
    of the run, which the export analyses again, so the model returns them
    with the analysis and with the exported dictionary. *)
Definition run_standard_simulation (g : generator)
  : result (list SimulationResult * Analysis.t * ExportData.t * generator) :=
  let stats := default_stats in
  let config := default_config in
  sims <- simulate_all config stats (num_simulations config) [] g ;;
  let (results, g') := sims in
  analysis <- analyze_results config results ;;
  exported <- export_results config stats results ;;
  ret (results, analysis, exported, g').

(** ** Exceptions of the dictionary and keyword layer *)

Inductive exception : Type :=
| builtin (e : exn)
| KeyError
| TypeError.

Definition attempt (A : Type) : Type := (exception + A)%type.

Definition lift {A : Type} (m : result A) : attempt A :=
  match m with
  | inl e => inl (builtin e)
  | inr a => inr a
  end.

Definition attempt_bind {A B : Type} (m : attempt A) (k : A -> attempt B)
  : attempt B :=
  match m with
  | inl e => inl e
  | inr a => k a
  end.

Notation "x <~ m ;; k" := (attempt_bind m (fun x => k))
  (at level 61, m at next level, right associativity).

(** ** The exported file read back: [SimulationVisualizer] *)

(** A dictionary key: the percentile tables are built with integer keys,
    a JSON object has string keys. *)
Inductive key : Type :=
| int_key (z : Z)
| str_key (s : string).

Definition key_eqb (a b : key) : bool :=
  match a, b with
  | int_key x, int_key y => (x =? y)%Z
  | str_key s, str_key t => String.eqb s t
  | _, _ => false
  end.

(** [str(z)] for an integer. *)
Definition str (z : Z) : string := NilZero.string_of_int (Z.to_int z).

(** A percentile table as the dictionary [analyze_results] builds. *)
Definition in_memory (table : list (Z * np.float64)) : list (key * np.float64) :=
  map (fun kv => (int_key (fst kv), snd kv)) table.

(** The same table after [json.dump] and [json.load]: the encoder writes an
    integer key as its decimal string and the decoder returns it as a
    string. *)
Definition json_round_trip (table : list (Z * np.float64))
  : list (key * np.float64) :=
  map (fun kv => (str_key (str (fst kv)), snd kv)) table.

(** [d[k]]. *)
Fixpoint getitem (d : list (key * np.float64)) (k : key) : attempt np.float64 :=
  match d with
  | [] => inl KeyError
  | (k', v) :: rest => if key_eqb k' k then inr v else getitem rest k
  end.

(** [[d[p] for p in ps]]. *)
Fixpoint getitems (d : list (key * np.float64)) (ps : list Z)
  : attempt (list np.float64) :=
  match ps with
  | [] => inr []
  | p :: rest =>
      v <~ getitem d (int_key p) ;;
      vs <~ getitems d rest ;;
      inr (v :: vs)
  end.

(** [self.analysis[metric]['percentiles']] in the visualizer, whose
    [self.analysis] comes from [json.load]. *)
Definition loaded_percentiles (d : Dist.t) : list (key * np.float64) :=
  json_round_trip (Dist.percentiles d).

(** The list [percentile_values] that opens [_plot_drawdown_distribution]. *)
Definition percentile_values (analysis : Analysis.t) : attempt (list np.float64) :=
  getitems (loaded_percentiles (Analysis.max_drawdown_pct analysis))
           [1; 5; 10; 25; 50; 75; 90; 95; 99]%Z.

(** The list [pnl_data] that opens [_plot_pnl_boxplot]. *)
Definition pnl_data (analysis : Analysis.t) : attempt (list np.float64) :=
  getitems (loaded_percentiles (Analysis.total_pnl analysis))
           [5; 25; 50; 75; 95]%Z.

(** [analysis['max_drawdown_pct']['percentiles'][95]] as [run_full_analysis]
    reads it from the analysis [run_simulation] returned. *)
Definition worst_case_drawdown (analysis : Analysis.t) : attempt np.float64 :=
  getitem (in_memory (Dist.percentiles (Analysis.max_drawdown_pct analysis)))
          (int_key 95).

(** ** Keyword arguments of [SimulationConfig] *)

(** The values the scenarios pass. *)
Inductive value : Type :=
| py_bool (b : bool)
| py_int (z : Z)
| py_float (q : Q).

(** How a field value is used: a float field in arithmetic, the flag in an
    [if], a loop bound in [range]. [range] of a float raises [TypeError]
    when the loop over that count starts; the model raises it when the
    configuration is built. No scenario of the program passes a float for a
    count, and no property below does. *)
Definition as_float (v : value) : Q :=
  match v with
  | py_bool b => if b then 1 else 0
  | py_int z => inject_Z z
  | py_float q => q
  end.

Definition truth (v : value) : bool :=
  match v with
  | py_bool b => b
  | py_int z => negb (z =? 0)%Z
  | py_float q => negb (Qeq_bool q 0)
  end.

Definition as_count (v : value) : attempt nat :=
  match v with
  | py_bool b => inr (if b then 1%nat else 0%nat)
  | py_int z => inr (Z.to_nat z)
  | py_float _ => inl TypeError
  end.

Definition kwargs : Type := list (string * value).

Fixpoint kw_get (kw : kwargs) (name : string) : option value :=
  match kw with
  | [] => None
  | (k, v) :: rest => if String.eqb k name then Some v else kw_get rest name
  end.

Definition fields : list string :=
  ["num_simulations"; "num_trades"; "initial_capital"; "use_compounding";
   "high_conf_kelly"; "medium_conf_kelly"; "low_conf_kelly";
   "max_position_pct"; "max_total_exposure"; "correlation_reduction";
   "slippage_pct"; "commission_pct"]%string.

Definition is_field (name : string) : bool :=
  existsb (String.eqb name) fields.

(** A keyword given twice. *)
Fixpoint repeated (names : list string) : bool :=
  match names with
  | [] => false
  | k :: rest => (existsb (String.eqb k) rest || repeated rest)%bool
  end.

Definition float_arg (kw : kwargs) (name : string) (default : Q) : Q :=
  match kw_get kw name with
  | Some v => as_float v
  | None => default
  end.

Definition bool_arg (kw : kwargs) (name : string) (default : bool) : bool :=
  match kw_get kw name with
  | Some v => truth v
  | None => default
  end.

Definition count_arg (kw : kwargs) (name : string) (default : nat) : attempt nat :=
  match kw_get kw name with
  | Some v => as_count v
  | None => inr default
  end.

(** [SimulationConfig] called with the keyword arguments [kw]: the
    generated [__init__] raises [TypeError]
    for a keyword that is no field and for a keyword given twice; a field
    that is not passed takes its default. *)
Definition SimulationConfig_init (kw : kwargs) : attempt SimulationConfig :=
  if (repeated (map fst kw) || negb (forallb is_field (map fst kw)))%bool
  then inl TypeError
  else
    simulations <~ count_arg kw "num_simulations" (num_simulations default_config) ;;
    trades <~ count_arg kw "num_trades" (num_trades default_config) ;;
    inr {|
      num_simulations := simulations;
      num_trades := trades;
      initial_capital :=
        float_arg kw "initial_capital" (initial_capital default_config);
      use_compounding :=
        bool_arg kw "use_compounding" (use_compounding default_config);
      high_conf_kelly :=
        float_arg kw "high_conf_kelly" (high_conf_kelly default_config);
      medium_conf_kelly :=
        float_arg kw "medium_conf_kelly" (medium_conf_kelly default_config);
      low_conf_kelly :=
        float_arg kw "low_conf_kelly" (low_conf_kelly default_config);
      max_position_pct :=
        float_arg kw "max_position_pct" (max_position_pct default_config);
      max_total_exposure :=
        float_arg kw "max_total_exposure" (max_total_exposure default_config);
      correlation_reduction :=
        float_arg kw "correlation_reduction"
                  (correlation_reduction default_config);
      slippage_pct := float_arg kw "slippage_pct" (slippage_pct default_config);
      commission_pct :=
        float_arg kw "commission_pct" (commission_pct default_config)
    |}.

(** [stats.win_rate = x]. *)
Definition set_win_rate (stats : TradeStats) (x : Q) : TradeStats := {|
  win_rate := x;
  avg_win := avg_win stats; avg_loss := avg_loss stats;
  total_trades := total_trades stats; wins := wins stats;
  losses := losses stats;
  high_conf_trades := high_conf_trades stats;
  high_conf_pnl := high_conf_pnl stats;
  medium_conf_trades := medium_conf_trades stats;
  medium_conf_pnl := medium_conf_pnl stats;
  low_conf_trades := low_conf_trades stats;
  low_conf_pnl := low_conf_pnl stats;
  high_conf_pct := high_conf_pct stats;
  medium_conf_pct := medium_conf_pct stats;
  low_conf_pct := low_conf_pct stats
|}.

(** ** The scenario loops: [run_stress_tests] and [run_full_analysis] *)

Definition scenarios : list (string * kwargs) :=
  [("Conservative (No Compounding)",
    [("use_compounding", py_bool false)]);
   ("Lower Win Rate (50%)",
    [("win_rate_override", py_float 0.50)]);
   ("Higher Slippage (1%)",
    [("slippage_pct", py_float 0.01)]);
   ("Half Kelly (More Conservative)",
    [("high_conf_kelly", py_float 0.073);
     ("medium_conf_kelly", py_float 0.055);
     ("low_conf_kelly", py_float 0.0275)]);
   ("Full Kelly (Aggressive)",
    [("high_conf_kelly", py_float 0.439);
     ("medium_conf_kelly", py_float 0.330);
     ("low_conf_kelly", py_float 0.165)])]%string.

(** The loop of [run_stress_tests] over the scenarios still to run. The
    statistics object is shared by all iterations, so an override of its
    win rate stays for the scenarios after it. *)
Fixpoint stress_loop (todo : list (string * kwargs)) (stats : TradeStats)
  (results : list (string * Analysis.t)) (g : generator)
  : attempt (list (string * Analysis.t) * generator) :=
  match todo with
  | [] => inr (results, g)
  | (scenario_name, overrides) :: rest =>
      config <~ SimulationConfig_init
                  (("num_simulations", py_int 5000) :: overrides)%string ;;
      let stats :=
        match kw_get overrides "win_rate_override" with
        | Some v => set_win_rate stats (as_float v)
        | None => stats
        end in
      run <~ lift (run_simulation config stats g) ;;
      let (analysis, g') := run in
      stress_loop rest stats (results ++ [(scenario_name, analysis)]) g'
  end.

Definition run_stress_tests (g : generator)
  : attempt (list (string * Analysis.t) * generator) :=
  stress_loop scenarios default_stats [] g.

(** The scenarios of [run_full_analysis]. *)
Definition stress_scenarios : list (string * kwargs) :=
  [("Conservative (No Compounding)",
    [("use_compounding", py_bool false)]);
   ("Lower Win Rate (50%)",
    [("use_compounding", py_bool true)]);
   ("Half Kelly Sizing",
    [("high_conf_kelly", py_float 0.073);
     ("medium_conf_kelly", py_float 0.055);
     ("low_conf_kelly", py_float 0.0275)])]%string.

(** [sub in s] on strings. *)
Fixpoint contains (sub s : string) : bool :=
  (String.prefix sub s
   || match s with
      | EmptyString => false
      | String _ rest => contains sub rest
      end)%bool.

(** The loop of part 3 of [run_full_analysis]. *)
Fixpoint full_analysis_stress_loop (todo : list (string * kwargs))
  (portfolio_size : Q) (num_simulations num_trades : Z) (stats : TradeStats)
  (stress_results : list (string * Analysis.t)) (g : generator)
  : attempt (list (string * Analysis.t) * generator) :=
  match todo with
  | [] => inr (stress_results, g)
  | (scenario_name, overrides) :: rest =>
      test_config <~ SimulationConfig_init
        (("num_simulations", py_int (Z.min 5000 num_simulations))
         :: ("num_trades", py_int num_trades)
         :: ("initial_capital", py_float portfolio_size)
         :: overrides)%string ;;
      let test_stats :=
        if contains "Lower Win Rate" scenario_name
        then set_win_rate default_stats 0.50
        else stats in
      run <~ lift (run_simulation test_config test_stats g) ;;
      let (test_analysis, g') := run in
      full_analysis_stress_loop rest portfolio_size num_simulations num_trades
        stats (stress_results ++ [(scenario_name, test_analysis)]) g'
  end.

(** ** The position sizing calculator *)

Module PortfolioConfig.

Record t : Type := {
  total_capital : Q;
  high_conf_kelly : Q;
  medium_conf_kelly : Q;
  low_conf_kelly : Q;
  high_conf_pct : Q;
  medium_conf_pct : Q;
  low_conf_pct : Q;
  max_position_pct : Q;
  max_total_exposure_pct : Q;
  correlation_reduction_pct : Q;
  margin_requirement_pct : Q;
  stop_loss_pct : Q
}.

(** [PortfolioConfig(total_capital=c)]. *)
Definition init (c : Q) : t := {|
  total_capital := c;
  high_conf_kelly := 0.146; medium_conf_kelly := 0.110;
  low_conf_kelly := 0.055;
  high_conf_pct := 0.67; medium_conf_pct := 0.31; low_conf_pct := 0.02;
  max_position_pct := 0.20; max_total_exposure_pct := 1.50;
  correlation_reduction_pct := 0.30;
  margin_requirement_pct := 0.05;
  stop_loss_pct := 0.02
|}.

End PortfolioConfig.

(** The dictionary [calculate_position_with_leverage] returns; a key the
    returned dictionary does not hold is [None]. *)
Module Position.

Record t : Type := {
  allowed : bool;
  reason : option string;
  confidence : option string;
  base_kelly_size : option Q;
  position_size : Q;
  margin_required : Q;
  leverage : Q;
  stop_loss_pct : option Q;
  risk_amount : option Q;
  risk_pct_of_capital : option Q;
  correlation_adjusted : option bool
}.

End Position.

(** [d.get(k, default)]. *)
Fixpoint get (d : list (string * Q)) (k : string) (default : Q) : Q :=
  match d with
  | [] => default
  | (k', v) :: rest => if String.eqb k' k then v else get rest k default
  end.

Definition calculate_base_position_size (cfg : PortfolioConfig.t)
  (confidence : string) : Q :=
  let kelly_fractions :=
    [("HIGH", PortfolioConfig.high_conf_kelly cfg);
     ("MEDIUM", PortfolioConfig.medium_conf_kelly cfg);
     ("LOW", PortfolioConfig.low_conf_kelly cfg)]%string in
  let kelly_fraction :=
    get kelly_fractions confidence (PortfolioConfig.low_conf_kelly cfg) in
  let base_size := PortfolioConfig.total_capital cfg * kelly_fraction in
  let max_position :=
    PortfolioConfig.total_capital cfg * PortfolioConfig.max_position_pct cfg in
  py_min base_size max_position.

Definition calculate_margin_requirement (cfg : PortfolioConfig.t)
  (position_size leverage : Q) : result Q :=
  py_div (position_size * PortfolioConfig.margin_requirement_pct cfg) leverage.

Definition calculate_position_with_leverage (cfg : PortfolioConfig.t)
  (confidence : string) (leverage current_exposure : Q) (is_correlated : bool)
  : result Position.t :=
  let base_size := calculate_base_position_size cfg confidence in
  let adjusted_size :=
    if is_correlated
    then base_size * (1 - PortfolioConfig.correlation_reduction_pct cfg)
    else base_size in
  let max_allowed_exposure :=
    PortfolioConfig.total_capital cfg
    * PortfolioConfig.max_total_exposure_pct cfg in
  let remaining_exposure := max_allowed_exposure - current_exposure in
  if Qle_bool remaining_exposure 0 then
    ret {| Position.allowed := false;
           Position.reason := Some "Maximum total exposure reached"%string;
           Position.confidence := None;
           Position.base_kelly_size := None;
           Position.position_size := 0;
           Position.margin_required := 0;
           Position.leverage := leverage;
           Position.stop_loss_pct := None;
           Position.risk_amount := None;
           Position.risk_pct_of_capital := None;
           Position.correlation_adjusted := None |}
  else
    let final_position_size := py_min adjusted_size remaining_exposure in
    margin_required <-
      calculate_margin_requirement cfg final_position_size leverage ;;
    if Qltb (PortfolioConfig.total_capital cfg) margin_required then
      ret {| Position.allowed := false;
             Position.reason :=
               Some "Insufficient capital for margin requirement"%string;
             Position.confidence := None;
             Position.base_kelly_size := None;
             Position.position_size := final_position_size;
             Position.margin_required := margin_required;
             Position.leverage := leverage;
             Position.stop_loss_pct := None;
             Position.risk_amount := None;
             Position.risk_pct_of_capital := None;
             Position.correlation_adjusted := None |}
    else
      let stop_loss_distance := PortfolioConfig.stop_loss_pct cfg in
      let risk_amount := final_position_size * stop_loss_distance in
      risk_share <- py_div risk_amount (PortfolioConfig.total_capital cfg) ;;
      ret {| Position.allowed := true;
             Position.reason := None;
             Position.confidence := Some confidence;
             Position.base_kelly_size := Some base_size;
             Position.position_size := final_position_size;
             Position.margin_required := margin_required;
             Position.leverage := leverage;
             Position.stop_loss_pct := Some (stop_loss_distance * 100);
             Position.risk_amount := Some risk_amount;
             Position.risk_pct_of_capital := Some (risk_share * 100);
             Position.correlation_adjusted := Some is_correlated |}.

Definition confidence_levels : list string := ["HIGH"; "MEDIUM"; "LOW"]%string.

Definition leverage_options : list Z := [1; 2; 5; 10]%Z.

(** The inner loop of [generate_position_sizing_table]: one entry per
    leverage, keyed [f'{leverage}x']. *)
Fixpoint sizing_row (cfg : PortfolioConfig.t) (confidence : string)
  (leverages : list Z) : result (list (string * Position.t)) :=
  match leverages with
  | [] => ret []
  | leverage :: rest =>
      position <- calculate_position_with_leverage
                    cfg confidence (inject_Z leverage) 0 false ;;
      row <- sizing_row cfg confidence rest ;;
      ret ((str leverage ++ "x", position)%string :: row)
  end.

(** The outer loop, one row per confidence level. *)
Fixpoint sizing_rows (cfg : PortfolioConfig.t) (levels : list string)
  : result (list (string * list (string * Position.t))) :=
  match levels with
  | [] => ret []
  | confidence :: rest =>
      row <- sizing_row cfg confidence leverage_options ;;
      rows <- sizing_rows cfg rest ;;
      ret ((confidence, row) :: rows)
  end.

Definition generate_position_sizing_table (cfg : PortfolioConfig.t)
  : result (list (string * list (string * Position.t))) :=
  sizing_rows cfg confidence_levels.

(** [int(x)] on a float: truncation towards zero. It is applied to the
    exact product, where the program truncates the rounded one, so a count
    can differ by one when the product is within rounding of an integer. *)
Definition int (x : Q) : Z := Z.quot (Qnum x) (Zpos (Qden x)).

(** One entry of ['distribution']. *)
Module Bucket.

Record t : Type := {
  count : Z;
  percentage : Q;
  position_size : Q;
  total_capital : Q
}.

End Bucket.

Module Distribution.

Record t : Type := {
  total_trades : Z;
  high : Bucket.t;
  medium : Bucket.t;
  low : Bucket.t;
  avg_position_size : Q;
  total_capital_deployed : Q
}.

End Distribution.

Definition calculate_portfolio_distribution (cfg : PortfolioConfig.t)
  (num_trades : Z) : result Distribution.t :=
  let expected_high :=
    int (inject_Z num_trades * PortfolioConfig.high_conf_pct cfg) in
  let expected_medium :=
    int (inject_Z num_trades * PortfolioConfig.medium_conf_pct cfg) in
  let expected_low := (num_trades - expected_high - expected_medium)%Z in
  let high_size := calculate_base_position_size cfg "HIGH" in
  let medium_size := calculate_base_position_size cfg "MEDIUM" in
  let low_size := calculate_base_position_size cfg "LOW" in
  let total_high_capital := inject_Z expected_high * high_size in
  let total_medium_capital := inject_Z expected_medium * medium_size in
  let total_low_capital := inject_Z expected_low * low_size in
  avg_position_size <-
    py_div (total_high_capital + total_medium_capital + total_low_capital)
           (inject_Z num_trades) ;;
  ret {|
    Distribution.total_trades := num_trades;
    Distribution.high := {|
      Bucket.count := expected_high;
      Bucket.percentage := PortfolioConfig.high_conf_pct cfg * 100;
      Bucket.position_size := high_size;
      Bucket.total_capital := total_high_capital |};
    Distribution.medium := {|
      Bucket.count := expected_medium;
      Bucket.percentage := PortfolioConfig.medium_conf_pct cfg * 100;
      Bucket.position_size := medium_size;
      Bucket.total_capital := total_medium_capital |};
    Distribution.low := {|
      Bucket.count := expected_low;
      Bucket.percentage := PortfolioConfig.low_conf_pct cfg * 100;
      Bucket.position_size := low_size;
      Bucket.total_capital := total_low_capital |};
    Distribution.avg_position_size := avg_position_size;
    Distribution.total_capital_deployed :=
      total_high_capital + total_medium_capital + total_low_capital
  |}.

(** The capital turnover [print_portfolio_distribution] prints last. *)
Definition capital_turnover (cfg : PortfolioConfig.t) (num_trades : Z)
  : result Q :=
  dist <- calculate_portfolio_distribution cfg num_trades ;;
  py_div (Distribution.total_capital_deployed dist)
         (PortfolioConfig.total_capital cfg).

(** * Vocabulary of the properties *)

(** ** Invariant and end states of the trade loop *)

(** The state between two iterations: capital is positive, is the last
    entry of the equity curve, every entry so far is positive, and there is
    one return per trade. *)
Record running (st : Run.vars) : Prop := {
  running_capital : 0 < Run.capital st;
  running_last : exists pre, Run.equity_curve st = pre ++ [Run.capital st];
  running_curve : Forall (fun e => 0 < e) (Run.equity_curve st);
  running_returns :
    (length (Run.returns st) + 1)%nat = length (Run.equity_curve st)
}.

(** The trade loop as a relation: [outcome n st g st' g'] when [n]
    iterations from the variables [st] and the generator [g] end in [st']
    and [g'], after the last iteration or at the first [break]. *)
Inductive outcome (cfg : SimulationConfig) (stats : TradeStats)
  : nat -> Run.vars -> generator -> Run.vars -> generator -> Prop :=
| outcome_done st g :
    outcome cfg stats O st g st g
| outcome_break n st g st' g' :
    loop_body cfg stats st g = inr (st', true, g') ->
    outcome cfg stats (S n) st g st' g'
| outcome_next n st g st1 g1 st' g' :
    loop_body cfg stats st g = inr (st1, false, g1) ->
    outcome cfg stats n st1 g1 st' g' ->
    outcome cfg stats (S n) st g st' g'.

(** How the equity curve of [st'] extends that of [st] when a loop of [n]
    iterations ends: [n] more entries and a running state, or fewer than
    [n] positive entries, the capital [c <= 0] of the ruining trade and a
    final 0. *)
Inductive curve_shape (n : nat) (st st' : Run.vars) : Prop :=
| shape_completed (mid : list Q) :
    running st' ->
    Run.equity_curve st' = Run.equity_curve st ++ mid ->
    length mid = n ->
    (Run.wins st' + Run.losses st'
     = Run.wins st + Run.losses st + Z.of_nat (length mid))%Z ->
    curve_shape n st st'
| shape_ruined (mid : list Q) (c : Q) :
    Run.equity_curve st' = Run.equity_curve st ++ mid ++ [c; 0] ->
    Forall (fun e => 0 < e) mid ->
    c <= 0 ->
    Run.capital st' = 0 ->
    (length mid < n)%nat ->
    (Run.wins st' + Run.losses st'
     = Run.wins st + Run.losses st + Z.of_nat (length mid) + 1)%Z ->
    curve_shape n st st'.

(** Every return recorded so far is [(cur - prev) / prev] for two
    consecutive entries of the equity curve with [prev] positive, and there
    is one return per executed trade. *)
Definition returns_from_positive (st : Run.vars) : Prop :=
  Z.of_nat (length (Run.returns st)) = (Run.wins st + Run.losses st)%Z /\
  forall k, (k < length (Run.returns st))%nat ->
    exists prev cur,
      nth_error (Run.equity_curve st) k = Some prev /\
      nth_error (Run.equity_curve st) (S k) = Some cur /\
      0 < prev /\
      nth_error (Run.returns st) k = Some ((cur - prev) / prev).

(** ** Results and tables *)

(** [r] is the result of some trajectory of the simulator. *)
Definition produced (cfg : SimulationConfig) (stats : TradeStats)
  (r : SimulationResult) : Prop :=
  exists g g', _run_single_simulation cfg stats g = inr (r, g').

(** [table[p]] for a percentile dictionary. *)
Fixpoint dict_get (table : list (Z * np.float64)) (p : Z) : option np.float64 :=
  match table with
  | [] => None
  | (k, v) :: rest => if (k =? p)%Z then Some v else dict_get rest p
  end.

(** The interpolated order statistic at the virtual index [h]. *)
Definition at_index (s : list Q) (h : Q) : Q :=
  np.lerp (nth (Z.to_nat (Qfloor h)) s 0)
          (nth (Z.to_nat (Z.min (Qfloor h + 1) (Z.of_nat (length s) - 1))) s 0)
          (h - inject_Z (Qfloor h)).


(** ** Generators that agree on a prefix *)



(** ** Configurations and generators used in the examples *)

(** Ten units of capital, everything staked on each trade, no costs. *)
Definition all_in_config (n : nat) : SimulationConfig := {|
  num_simulations := 1; num_trades := n;
  initial_capital := 10; use_compounding := true;
  high_conf_kelly := 1; medium_conf_kelly := 1; low_conf_kelly := 1;
  max_position_pct := 1; max_total_exposure := 1.50;
  correlation_reduction := 0.30;
  slippage_pct := 0; commission_pct := 0
|}.

(** Scenario A's configuration with the default position cap of 20%. *)
Definition scenario_a_config : SimulationConfig := {|
  num_simulations := 1; num_trades := 1;
  initial_capital := 1000; use_compounding := true;
  high_conf_kelly := 0.1; medium_conf_kelly := 0.1; low_conf_kelly := 0.1;
  max_position_pct := 0.20; max_total_exposure := 1.50;
  correlation_reduction := 0.30;
  slippage_pct := 0; commission_pct := 0
|}.


(** A HIGH-confidence losing trade of the given magnitude: the confidence
    draw 0.5 is below 0.67 and the win draw 0.9 is above 0.625. *)
Definition one_loss (magnitude : Q) : generator := replay [0.5; 0.9; magnitude].

(** A HIGH-confidence winning trade of the given magnitude. *)
Definition one_win (magnitude : Q) : generator := replay [0.5; 0.1; magnitude].


(** ** Counters and drawdown between iterations *)

(** The win and loss counters are non-negative, each longest streak lies
    between 0 and its counter and is at least 1 once the counter is
    positive, and the current streak is a streak of the kind of the last
    trade. *)
Definition counters_ok (st : Run.vars) : Prop :=
  (0 <= Run.wins st)%Z /\ (0 <= Run.losses st)%Z /\
  (0 <= Run.longest_win_streak st <= Run.wins st)%Z /\
  (0 <= Run.longest_loss_streak st <= Run.losses st)%Z /\
  (0 < Run.wins st -> 1 <= Run.longest_win_streak st)%Z /\
  (0 < Run.losses st -> 1 <= Run.longest_loss_streak st)%Z /\
  match Run.last_trade_won st with
  | None => True
  | Some true =>
      (1 <= Run.current_streak st <= Run.longest_win_streak st)%Z
  | Some false =>
      (1 <= Run.current_streak st <= Run.longest_loss_streak st)%Z
  end.

(** Between two iterations the largest drawdown so far is non-negative and
    smaller than the peak. *)
Definition drawdown_below_peak (st : Run.vars) : Prop :=
  0 <= Run.max_drawdown st /\ Run.max_drawdown st < Run.peak_capital st.

(** Two statistics records that differ at most in the fields the simulator
    never reads ([win_rate], the trade counts, the per-level PnL and
    [low_conf_pct]). *)
Definition same_simulation_inputs (s1 s2 : TradeStats) : Prop :=
  avg_win s1 = avg_win s2 /\ avg_loss s1 = avg_loss s2 /\
  high_conf_pct s1 = high_conf_pct s2 /\
  medium_conf_pct s1 = medium_conf_pct s2.

(** ** Reading the analysis *)

(** The dictionary [d] is the full summary of the sample [l]: mean, median,
    minimum, maximum and the percentile table. *)
Definition describes (d : Dist.t) (l : list Q) : Prop :=
  Dist.mean d = np.mean l /\
  Dist.median d = np.median l /\
  (exists lo, np.min l = inr lo /\ Dist.min d = Some lo) /\
  (exists hi, np.max l = inr hi /\ Dist.max d = Some hi) /\
  Dist.percentiles d = percentile_table l.

(** ** Samples of an export *)

(** The sample [s] is entry [i] of the export and carries the two curves
    and the final capital of the result [r]. *)
Definition sample_of (i : Z) (r : SimulationResult) (s : Sample.t) : Prop :=
  Sample.simulation s = i /\
  Sample.equity_curve s = equity_curve r /\
  Sample.drawdown_curve s = drawdown_curve r /\
  Sample.final_capital s = final_capital r.

(** The position in a list of [n] elements that the index [i] denotes. *)
Definition position (n i : Z) : Z := (i mod n)%Z.

(** ** Configurations of [run_full_analysis] *)

(** The configuration of a stress scenario of [run_full_analysis] before
    its overrides: the defaults with the capped number of simulations, the
    number of trades and the portfolio size of the call. *)
Definition test_config (portfolio_size : Q) (num_simulations num_trades : Z)
  (compounding : bool) (high medium low : Q) : SimulationConfig := {|
  num_simulations := Z.to_nat (Z.min 5000 num_simulations);
  num_trades := Z.to_nat num_trades;
  initial_capital := portfolio_size;
  use_compounding := compounding;
  high_conf_kelly := high;
  medium_conf_kelly := medium;
  low_conf_kelly := low;
  max_position_pct := max_position_pct default_config;
  max_total_exposure := max_total_exposure default_config;
  correlation_reduction := correlation_reduction default_config;
  slippage_pct := slippage_pct default_config;
  commission_pct := commission_pct default_config
|}.

(** ** Portfolios of the calculator *)

(** The label the simulator and the calculator use for a confidence
    level. *)
Definition label (c : confidence) : string :=
  match c with
  | HIGH => "HIGH"
  | MEDIUM => "MEDIUM"
  | LOW => "LOW"
  end.

(** A portfolio and a simulation configuration with the same Kelly
    fractions and the same cap on a position. *)
Definition same_sizing (p : PortfolioConfig.t) (cfg : SimulationConfig)
  : Prop :=
  PortfolioConfig.high_conf_kelly p = high_conf_kelly cfg /\
  PortfolioConfig.medium_conf_kelly p = medium_conf_kelly cfg /\
  PortfolioConfig.low_conf_kelly p = low_conf_kelly cfg /\
  PortfolioConfig.max_position_pct p = max_position_pct cfg.

(** Positive capital and non-negative fractions. *)
Definition sound_portfolio (p : PortfolioConfig.t) : Prop :=
  0 < PortfolioConfig.total_capital p /\
  0 <= PortfolioConfig.high_conf_kelly p /\
  0 <= PortfolioConfig.medium_conf_kelly p /\
  0 <= PortfolioConfig.low_conf_kelly p /\
  0 <= PortfolioConfig.max_position_pct p /\
  0 <= PortfolioConfig.correlation_reduction_pct p /\
  0 <= PortfolioConfig.stop_loss_pct p.

(** The exposure still free before a new position. *)
Definition remaining_exposure (p : PortfolioConfig.t) (current_exposure : Q)
  : Q :=
  PortfolioConfig.total_capital p * PortfolioConfig.max_total_exposure_pct p
  - current_exposure.

(** * Properties *)

(** ** Comparisons, division and indexing *)

Lemma Qltb_true (x y : Q) : Qltb x y = true <-> x < y.
Proof.
  unfold Qltb. rewrite negb_true_iff, <- not_true_iff_false, Qle_bool_iff.
  split; [apply Qnot_le_lt | apply Qlt_not_le].
Qed.

Lemma Qltb_false (x y : Q) : Qltb x y = false <-> y <= x.
Proof.
  unfold Qltb. rewrite negb_false_iff, Qle_bool_iff. tauto.
Qed.

Lemma Qle_bool_false (x y : Q) : Qle_bool x y = false <-> y < x.
Proof.
  rewrite <- not_true_iff_false, Qle_bool_iff.
  split; [apply Qnot_le_lt | apply Qlt_not_le].
Qed.

Lemma py_div_ok (a b : Q) : ~ b == 0 -> py_div a b = inr (a / b).
Proof.
  intros Hb. unfold py_div.
  destruct (Qeq_bool b 0) eqn:E; [|reflexivity].
  apply Qeq_bool_iff in E. contradiction.
Qed.

Lemma py_div_raises (a b : Q) : b == 0 -> py_div a b = inl ZeroDivisionError.
Proof.
  intros Hb. unfold py_div.
  apply Qeq_bool_iff in Hb. now rewrite Hb.
Qed.

Lemma py_min_Qmin (a b : Q) : py_min a b = Qmin a b.
Proof.
  unfold py_min, Qmin, GenericMinMax.gmin.
  destruct (Qltb b a) eqn:E.
  - apply Qltb_true in E. apply Qgt_alt in E. now rewrite E.
  - apply Qltb_false in E. rewrite Qle_alt in E.
    destruct (a ?= b); try reflexivity. now elim E.
Qed.

Lemma py_get_last (l : list Q) (x : Q) : py_get (l ++ [x]) (-1) = inr x.
Proof.
  unfold py_get. rewrite length_app. cbn [length Z.ltb Z.compare].
  replace (Z.of_nat (length l + 1) + -1)%Z with (Z.of_nat (length l)) by lia.
  replace ((0 <=? Z.of_nat (length l))%Z) with true by (symmetry; apply Z.leb_le; lia).
  replace ((Z.of_nat (length l) <? Z.of_nat (length l + 1))%Z) with true
    by (symmetry; apply Z.ltb_lt; lia).
  cbn [andb]. rewrite Nat2Z.id, app_nth2, Nat.sub_diag by lia. reflexivity.
Qed.

Lemma py_get_before_last (l : list Q) (x y : Q) :
  py_get ((l ++ [x]) ++ [y]) (-2) = inr x.
Proof.
  unfold py_get. rewrite !length_app. cbn [length Z.ltb Z.compare].
  replace (Z.of_nat (length l + 1 + 1) + -2)%Z with (Z.of_nat (length l)) by lia.
  replace ((0 <=? Z.of_nat (length l))%Z) with true by (symmetry; apply Z.leb_le; lia).
  replace ((Z.of_nat (length l) <? Z.of_nat (length l + 1 + 1))%Z) with true
    by (symmetry; apply Z.ltb_lt; lia).
  cbn [andb]. rewrite Nat2Z.id, app_nth1 by (rewrite length_app; cbn; lia).
  rewrite app_nth2, Nat.sub_diag by lia. reflexivity.
Qed.

Lemma py_get_first (x : Q) (l : list Q) : py_get (x :: l) 0 = inr x.
Proof.
  unfold py_get. cbn [Z.ltb Z.compare Z.leb].
  replace ((0 <? Z.of_nat (length (x :: l)))%Z) with true
    by (symmetry; apply Z.ltb_lt; cbn [length]; lia).
  reflexivity.
Qed.

Lemma Qpos_nonzero (x : Q) : 0 < x -> ~ x == 0.
Proof. intros H E. rewrite E in H. now apply Qlt_irrefl in H. Qed.

(** ** The trade draw *)

(** Every trade takes three numbers from the generator. *)
Lemma draw_trade_ok (cfg : SimulationConfig) (stats : TradeStats)
  (capital : Q) (g : generator) :
  ~ initial_capital cfg == 0 ->
  exists pnl w,
    draw_trade cfg stats capital g = inr (pnl, w, advance (advance (advance g))).
Proof.
  intros H0. unfold draw_trade, _generate_confidence_level, np_random.random.
  destruct (Qltb (g O) (high_conf_pct stats));
    [|destruct (Qltb (g O) (high_conf_pct stats + medium_conf_pct stats))];
    cbv beta iota zeta;
    unfold _simulate_single_trade, np_random.random, np_random.lognormal;
    cbv beta iota zeta; rewrite py_div_ok by assumption;
    cbn [bind ret]; eauto.
Qed.

(** ** One iteration from a running state *)

Lemma initial_vars_running (cfg : SimulationConfig) :
  0 < initial_capital cfg -> running (initial_vars cfg).
Proof.
  intros H. split; cbn.
  - exact H.
  - now exists [].
  - now constructor.
  - reflexivity.
Qed.

Lemma track_metrics_curve (st : Run.vars) (c p : Q) (w : bool) :
  Run.equity_curve (track_metrics st c p w) = Run.equity_curve st /\
  Run.returns (track_metrics st c p w) = Run.returns st /\
  Run.peak_capital (track_metrics st c p w) = Run.peak_capital st /\
  Run.max_drawdown (track_metrics st c p w) = Run.max_drawdown st.
Proof. destruct w; repeat split. Qed.

Lemma trade_return_ok (pre : list Q) (x y : Q) (rs : list Q) :
  ~ x == 0 ->
  trade_return ((pre ++ [x]) ++ [y]) rs = inr (rs ++ [(y - x) / x]).
Proof.
  intros Hx. unfold trade_return.
  replace (1 <? len ((pre ++ [x]) ++ [y]))%Z with true
    by (symmetry; apply Z.ltb_lt; unfold len; rewrite !length_app; cbn; lia).
  rewrite py_get_last, py_get_before_last. cbn [bind].
  rewrite py_div_ok by assumption. reflexivity.
Qed.

Lemma loop_body_step (cfg : SimulationConfig) (stats : TradeStats)
  (st : Run.vars) (g : generator) :
  ~ initial_capital cfg == 0 -> running st ->
  exists pnl w st',
    draw_trade cfg stats (Run.capital st) g
      = inr (pnl, w, advance (advance (advance g))) /\
    loop_body cfg stats st g
      = inr (st', Qle_bool (Run.capital st + pnl) 0,
             advance (advance (advance g))) /\
    Run.capital st'
      = (if Qle_bool (Run.capital st + pnl) 0 then 0
         else Run.capital st + pnl) /\
    Run.equity_curve st'
      = (if Qle_bool (Run.capital st + pnl) 0
         then (Run.equity_curve st ++ [Run.capital st + pnl]) ++ [0]
         else Run.equity_curve st ++ [Run.capital st + pnl]) /\
    Run.returns st'
      = Run.returns st
        ++ [(Run.capital st + pnl - Run.capital st) / Run.capital st] /\
    Run.wins st' = (if w then Run.wins st + 1 else Run.wins st)%Z /\
    Run.losses st' = (if w then Run.losses st else Run.losses st + 1)%Z /\
    Run.gross_profit st'
      = (if w then Run.gross_profit st + Qabs pnl else Run.gross_profit st) /\
    Run.gross_loss st'
      = (if w then Run.gross_loss st else Run.gross_loss st + Qabs pnl).
Proof.
  intros H0 [Hc [pre Hpre] _ _].
  destruct (draw_trade_ok cfg stats (Run.capital st) g H0) as (pnl & w & Hd).
  exists pnl, w. unfold loop_body. rewrite Hd. cbn [bind].
  cbv beta iota zeta.
  destruct (track_metrics_curve st (Run.capital st + pnl) pnl w)
    as (-> & -> & _ & _).
  assert (Htr : trade_return (Run.equity_curve st ++ [Run.capital st + pnl])
                  (Run.returns st)
                = inr (Run.returns st
                       ++ [(Run.capital st + pnl - Run.capital st)
                           / Run.capital st])).
  { rewrite Hpre. apply trade_return_ok. now apply Qpos_nonzero. }
  rewrite Htr. cbn [bind ret].
  eexists. split; [reflexivity|]. split; [reflexivity|].
  cbn [Run.capital Run.equity_curve Run.returns Run.wins Run.losses
       Run.gross_profit Run.gross_loss].
  destruct w; repeat split; reflexivity.
Qed.

(** A running state stays running when the iteration does not break. *)
Lemma running_next (st st' : Run.vars) (c : Q) (r : Q) :
  running st ->
  Qle_bool c 0 = false ->
  Run.capital st' = c ->
  Run.equity_curve st' = Run.equity_curve st ++ [c] ->
  Run.returns st' = Run.returns st ++ [r] ->
  running st'.
Proof.
  intros [Hc Hl Hf Hr] Hb Hcap Hec Hret.
  apply Qle_bool_false in Hb. split.
  - now rewrite Hcap.
  - exists (Run.equity_curve st). now rewrite Hcap.
  - rewrite Hec. apply Forall_app. split; [assumption|]. now constructor.
  - rewrite Hec, Hret, !length_app. cbn. lia.
Qed.

(** ** The loop as a relation on states *)

Lemma trade_loop_outcome (cfg : SimulationConfig) (stats : TradeStats)
  (n : nat) (st : Run.vars) (g : generator) (st' : Run.vars) (g' : generator) :
  trade_loop cfg stats n st g = inr (st', g') ->
  outcome cfg stats n st g st' g'.
Proof.
  revert st g. induction n as [|n IH]; intros st g H; cbn in H.
  - injection H as <- <-. constructor.
  - destruct (loop_body cfg stats st g) as [e|[[st1 b] g1]] eqn:E;
      cbn in H; [discriminate|].
    destruct b.
    + injection H as <- <-. now apply outcome_break.
    + eapply outcome_next; eauto.
Qed.

(** From a running state the loop never raises. *)
Lemma trade_loop_total (cfg : SimulationConfig) (stats : TradeStats)
  (n : nat) (st : Run.vars) (g : generator) :
  ~ initial_capital cfg == 0 -> running st ->
  exists st' g', trade_loop cfg stats n st g = inr (st', g').
Proof.
  intros H0. revert st g. induction n as [|n IH]; intros st g Hrun; cbn.
  - now exists st, g.
  - destruct (loop_body_step cfg stats st g H0 Hrun)
      as (pnl & w & st1 & _ & Hb & Hcap & Hec & Hret & _).
    rewrite Hb. cbn [bind].
    destruct (Qle_bool (Run.capital st + pnl) 0) eqn:E.
    + now exists st1, (advance (advance (advance g))).
    + apply IH. eapply running_next; eauto.
Qed.

(** The step lemma read backwards, from a given result of [loop_body]. *)
Lemma loop_body_inv (cfg : SimulationConfig) (stats : TradeStats)
  (st : Run.vars) (g : generator) (st' : Run.vars) (b : bool) (g' : generator) :
  ~ initial_capital cfg == 0 -> running st ->
  loop_body cfg stats st g = inr (st', b, g') ->
  exists pnl w,
    draw_trade cfg stats (Run.capital st) g = inr (pnl, w, g') /\
    b = Qle_bool (Run.capital st + pnl) 0 /\
    Run.capital st' = (if b then 0 else Run.capital st + pnl) /\
    Run.equity_curve st'
      = (if b then (Run.equity_curve st ++ [Run.capital st + pnl]) ++ [0]
         else Run.equity_curve st ++ [Run.capital st + pnl]) /\
    Run.returns st'
      = Run.returns st
        ++ [(Run.capital st + pnl - Run.capital st) / Run.capital st] /\
    Run.wins st' = (if w then Run.wins st + 1 else Run.wins st)%Z /\
    Run.losses st' = (if w then Run.losses st else Run.losses st + 1)%Z /\
    Run.gross_profit st'
      = (if w then Run.gross_profit st + Qabs pnl else Run.gross_profit st) /\
    Run.gross_loss st'
      = (if w then Run.gross_loss st else Run.gross_loss st + Qabs pnl).
Proof.
  intros H0 Hrun H.
  destruct (loop_body_step cfg stats st g H0 Hrun)
    as (pnl & w & st1 & Hd & Hb & Hfacts).
  rewrite Hb in H. injection H as <- <- <-.
  exists pnl, w. split; [exact Hd|]. split; [reflexivity|]. exact Hfacts.
Qed.

Lemma loop_body_running (cfg : SimulationConfig) (stats : TradeStats)
  (st : Run.vars) (g : generator) (st' : Run.vars) (g' : generator) :
  ~ initial_capital cfg == 0 -> running st ->
  loop_body cfg stats st g = inr (st', false, g') ->
  running st'.
Proof.
  intros H0 Hrun H.
  destruct (loop_body_inv _ _ _ _ _ _ _ H0 Hrun H)
    as (pnl & w & _ & Hb & Hcap & Hec & Hret & _).
  eapply running_next; eauto.
Qed.

(** A property kept by every iteration from a running state holds when
    the loop ends, however it ends. *)
Lemma outcome_invariant (cfg : SimulationConfig) (stats : TradeStats)
  (P : Run.vars -> Prop) :
  ~ initial_capital cfg == 0 ->
  (forall st g st' b g',
      running st -> P st -> loop_body cfg stats st g = inr (st', b, g') ->
      P st') ->
  forall n st g st' g',
    running st -> P st -> outcome cfg stats n st g st' g' -> P st'.
Proof.
  intros H0 Hstep n st g st' g' Hrun HP Hout.
  induction Hout as [st g|n st g st' g' Hb|n st g st1 g1 st' g' Hb Hout IH].
  - exact HP.
  - eapply Hstep; eauto.
  - apply IH.
    + eapply loop_body_running; eauto.
    + eapply Hstep; eauto.
Qed.

(** ** The shape of the equity curve when the loop ends *)

Lemma outcome_curve_shape (cfg : SimulationConfig) (stats : TradeStats)
  (n : nat) (st : Run.vars) (g : generator) (st' : Run.vars) (g' : generator) :
  ~ initial_capital cfg == 0 -> running st ->
  outcome cfg stats n st g st' g' ->
  curve_shape n st st'.
Proof.
  intros H0 Hrun Hout.
  induction Hout as [st g|n st g st' g' Hb|n st g st1 g1 st' g' Hb Hout IH].
  - apply shape_completed with (mid := []); cbn; try lia.
    + exact Hrun.
    + now rewrite app_nil_r.
  - destruct (loop_body_inv _ _ _ _ _ _ _ H0 Hrun Hb)
      as (pnl & w & _ & Hle & Hcap & Hec & _ & Hw & Hl & _).
    apply shape_ruined with (mid := []) (c := Run.capital st + pnl); cbn.
    + now rewrite Hec, <- app_assoc.
    + constructor.
    + now apply Qle_bool_iff.
    + exact Hcap.
    + lia.
    + rewrite Hw, Hl. destruct w; lia.
  - pose proof (loop_body_running _ _ _ _ _ _ H0 Hrun Hb) as Hrun1.
    destruct (loop_body_inv _ _ _ _ _ _ _ H0 Hrun Hb)
      as (pnl & w & _ & Hle & Hcap & Hec & _ & Hw & Hl & _).
    assert (Hpos : 0 < Run.capital st + pnl)
      by (now apply Qle_bool_false).
    assert (Hcount : (Run.wins st1 + Run.losses st1
                      = Run.wins st + Run.losses st + 1)%Z)
      by (rewrite Hw, Hl; destruct w; lia).
    destruct (IH Hrun1) as [mid Hr' He Hn Hc|mid c He Hf Hc Hz Hn Hcnt].
    + apply shape_completed with (mid := (Run.capital st + pnl) :: mid).
      * exact Hr'.
      * rewrite He, Hec, <- app_assoc. reflexivity.
      * cbn. now rewrite Hn.
      * cbn [length]. lia.
    + apply shape_ruined with (mid := (Run.capital st + pnl) :: mid) (c := c).
      * rewrite He, Hec, <- app_assoc. reflexivity.
      * now constructor.
      * exact Hc.
      * exact Hz.
      * cbn. lia.
      * cbn [length]. lia.
Qed.

(** ** The final metrics *)

Lemma drawdown_loop_length (peak : Q) (curve : list Q) :
  exists dds, drawdown_loop peak curve = inr dds /\ length dds = length curve.
Proof.
  revert peak. induction curve as [|e rest IH]; intros peak; cbn.
  - now exists [].
  - set (peak' := if Qltb peak e then e else peak).
    destruct (IH peak') as (dds & Hd & Hl).
    destruct (Qltb 0 peak') eqn:E.
    + apply Qltb_true in E.
      rewrite py_div_ok by now apply Qpos_nonzero.
      cbn [bind ret]. rewrite Hd. cbn [bind ret].
      eexists. split; [reflexivity|]. cbn. now rewrite Hl.
    + cbn [bind ret]. rewrite Hd. cbn [bind ret].
      eexists. split; [reflexivity|]. cbn. now rewrite Hl.
Qed.

(** [final_metrics] never raises on a non-empty equity curve: each of its
    divisions is guarded. *)
Lemma final_metrics_ok (cfg : SimulationConfig) (st : Run.vars) :
  Run.equity_curve st <> [] ->
  exists r,
    final_metrics cfg st = inr r /\
    final_capital r = Run.capital st /\
    total_pnl r = Run.capital st - initial_capital cfg /\
    equity_curve r = Run.equity_curve st /\
    length (drawdown_curve r) = length (Run.equity_curve st) /\
    total_wins r = Run.wins st /\
    total_losses r = Run.losses st /\
    profit_factor r
      = (if Qltb 0 (Run.gross_loss st)
         then finite (Run.gross_profit st / Run.gross_loss st)
         else infinity).
Proof.
  intros Hne. unfold final_metrics.
  assert (H1 : exists x,
             (if Qltb 0 (Run.peak_capital st)
              then x <- py_div (Run.max_drawdown st) (Run.peak_capital st) ;;
                   ret (x * 100)
              else ret 100) = inr x).
  { destruct (Qltb 0 (Run.peak_capital st)) eqn:E; [|now eexists].
    apply Qltb_true in E. rewrite py_div_ok by now apply Qpos_nonzero.
    now eexists. }
  destruct H1 as (x1 & ->). cbn [bind].
  assert (H2 : exists x,
             (if (0 <? Run.wins st + Run.losses st)%Z
              then py_div (inject_Z (Run.wins st))
                          (inject_Z (Run.wins st + Run.losses st))
              else ret 0) = inr x).
  { destruct (0 <? Run.wins st + Run.losses st)%Z eqn:E; [|now eexists].
    apply Z.ltb_lt in E. rewrite py_div_ok; [now eexists|].
    apply Qpos_nonzero. unfold Qlt. cbn. lia. }
  destruct H2 as (x2 & ->). cbn [bind].
  assert (H3 : (if Qltb 0 (Run.gross_loss st)
                then x <- py_div (Run.gross_profit st) (Run.gross_loss st) ;;
                     ret (finite x)
                else ret infinity)
               = inr (if Qltb 0 (Run.gross_loss st)
                      then finite (Run.gross_profit st / Run.gross_loss st)
                      else infinity)).
  { destruct (Qltb 0 (Run.gross_loss st)) eqn:E; [|reflexivity].
    apply Qltb_true in E. rewrite py_div_ok by now apply Qpos_nonzero.
    reflexivity. }
  rewrite H3. cbn [bind].
  destruct (Run.equity_curve st) as [|e0 rest] eqn:Ec; [congruence|].
  rewrite py_get_first. cbn [bind].
  destruct (drawdown_loop_length e0 (e0 :: rest)) as (dds & -> & Hl).
  cbn [bind ret]. eexists. split; [reflexivity|]. cbn.
  repeat split; try reflexivity. exact Hl.
Qed.

(** A whole trajectory from a positive initial capital: the loop and the
    final metrics both return, and the result carries the final variables. *)
Lemma run_single_ok (cfg : SimulationConfig) (stats : TradeStats) (g : generator) :
  0 < initial_capital cfg ->
  exists st r g',
    trade_loop cfg stats (num_trades cfg) (initial_vars cfg) g = inr (st, g') /\
    _run_single_simulation cfg stats g = inr (r, g') /\
    curve_shape (num_trades cfg) (initial_vars cfg) st /\
    final_capital r = Run.capital st /\
    total_pnl r = Run.capital st - initial_capital cfg /\
    equity_curve r = Run.equity_curve st /\
    length (drawdown_curve r) = length (Run.equity_curve st) /\
    total_wins r = Run.wins st /\
    total_losses r = Run.losses st /\
    profit_factor r
      = (if Qltb 0 (Run.gross_loss st)
         then finite (Run.gross_profit st / Run.gross_loss st)
         else infinity).
Proof.
  intros Hpos.
  pose proof (Qpos_nonzero _ Hpos) as H0.
  pose proof (initial_vars_running cfg Hpos) as Hrun.
  destruct (trade_loop_total cfg stats (num_trades cfg) _ g H0 Hrun)
    as (st & g' & Hloop).
  pose proof (outcome_curve_shape _ _ _ _ _ _ _ H0 Hrun
                (trade_loop_outcome _ _ _ _ _ _ _ Hloop)) as Hshape.
  assert (Hne : Run.equity_curve st <> []).
  { destruct Hshape as [mid _ He _ _|mid c He _ _ _ _ _];
      rewrite He; cbn; discriminate. }
  destruct (final_metrics_ok cfg st Hne) as (r & Hfin & Hfacts).
  exists st, r, g'. split; [exact Hloop|]. split.
  - unfold _run_single_simulation. rewrite Hloop. cbn [bind].
    rewrite Hfin. reflexivity.
  - split; [exact Hshape|exact Hfacts].
Qed.

(** ** The first trade wipes the capital out *)

(** C1, as stated, fails: with capital 10 fully staked and a first loss of
    exactly 10, capital reaches exactly 0, the final capital is 0, but the
    equity curve has three entries, not the two of [C0, 0]. *)
Lemma first_trade_to_zero_counterexample :
  exists pnl w g1 r,
    0 < initial_capital (all_in_config 3) /\
    draw_trade (all_in_config 3) default_stats
      (initial_capital (all_in_config 3)) (one_loss 10) = inr (pnl, w, g1) /\
    initial_capital (all_in_config 3) + pnl == 0 /\
    _run_single_simulation (all_in_config 3) default_stats (one_loss 10)
      = inr (r, g1) /\
    final_capital r == 0 /\
    length (equity_curve r) = 3%nat /\
    ~ Forall2 Qeq (equity_curve r) [initial_capital (all_in_config 3); 0].
Proof.
  do 4 eexists. split; [reflexivity|]. split; [cbv; reflexivity|].
  split; [reflexivity|]. split; [cbv; reflexivity|].
  split; [reflexivity|]. split; [reflexivity|].
  intros H. apply Forall2_length in H. discriminate H.
Qed.

(** C1, amended: when the first trade brings capital to exactly 0, the
    trajectory stops after that trade whatever the trade count, with final
    capital 0 and the equity curve [C0, c, 0], where [c == 0] is the capital
    the trade left and the last 0 is the entry appended on ruin. *)
Theorem first_trade_to_zero (cfg : SimulationConfig) (stats : TradeStats)
  (g g1 : generator) (pnl : Q) (w : bool) :
  0 < initial_capital cfg ->
  (0 < num_trades cfg)%nat ->
  draw_trade cfg stats (initial_capital cfg) g = inr (pnl, w, g1) ->
  initial_capital cfg + pnl == 0 ->
  exists r,
    _run_single_simulation cfg stats g = inr (r, g1) /\
    final_capital r = 0 /\
    equity_curve r = [initial_capital cfg; initial_capital cfg + pnl; 0].
Proof.
  intros Hpos HN Hd Hz.
  pose proof (Qpos_nonzero _ Hpos) as H0.
  pose proof (initial_vars_running cfg Hpos) as Hrun.
  destruct (loop_body_step cfg stats _ g H0 Hrun)
    as (pnl' & w' & st1 & Hd' & Hb & Hcap & Hec & _).
  cbn [initial_vars Run.capital Run.equity_curve] in Hd', Hb, Hcap, Hec.
  rewrite Hd in Hd'. injection Hd' as <- <- Hg.
  assert (Hle : Qle_bool (initial_capital cfg + pnl) 0 = true)
    by (apply Qle_bool_iff; rewrite Hz; apply Qle_refl).
  rewrite Hle in Hb, Hcap, Hec.
  assert (Hloop : trade_loop cfg stats (num_trades cfg) (initial_vars cfg) g
                  = inr (st1, g1)).
  { destruct (num_trades cfg) as [|n]; [lia|].
    cbn [trade_loop]. rewrite Hb. cbn [bind]. now rewrite Hg. }
  assert (Hne : Run.equity_curve st1 <> []) by (rewrite Hec; discriminate).
  destruct (final_metrics_ok cfg st1 Hne) as (r & Hfin & Hfc & _ & Hcurve & _).
  exists r. split.
  - unfold _run_single_simulation. rewrite Hloop. cbn [bind].
    rewrite Hfin. reflexivity.
  - split; [now rewrite Hfc|]. now rewrite Hcurve, Hec.
Qed.

Lemma first_trade_to_zero_witness :
  exists r,
    _run_single_simulation (all_in_config 3) default_stats (one_loss 10)
      = inr (r, advance (advance (advance (one_loss 10)))) /\
    final_capital r = 0 /\
    length (equity_curve r) = 3%nat.
Proof.
  destruct (first_trade_to_zero (all_in_config 3) default_stats (one_loss 10)
              (advance (advance (advance (one_loss 10)))) (-10 * (10 / 10))
              false)
    as (r & Hr & Hf & He).
  - reflexivity.
  - cbn. apply Nat.lt_0_succ.
  - reflexivity.
  - reflexivity.
  - exists r. rewrite He. repeat split; assumption.
Defined.

(** ** Sign of the equity-curve entries *)

(** C2, as stated, fails on both counts. A first loss of 20 on a fully
    staked capital of 10 puts the negative entry -10 on the curve; a first
    loss of exactly 10 puts a 0 on the curve and then a second 0 after it. *)
Lemma equity_nonnegative_counterexample :
  (exists r g',
     0 < initial_capital (all_in_config 3) /\
     _run_single_simulation (all_in_config 3) default_stats (one_loss 20)
       = inr (r, g') /\
     exists e, nth_error (equity_curve r) 1 = Some e /\ e < 0) /\
  (exists r g',
     _run_single_simulation (all_in_config 3) default_stats (one_loss 10)
       = inr (r, g') /\
     exists e e', nth_error (equity_curve r) 1 = Some e /\ e == 0 /\
                  nth_error (equity_curve r) 2 = Some e').
Proof.
  split.
  - do 2 eexists. split; [cbv; reflexivity|]. split; [reflexivity|].
    eexists. split; reflexivity.
  - do 2 eexists. split; [cbv; reflexivity|].
    do 2 eexists. split; [cbv; reflexivity|]. split; reflexivity.
Qed.

(** C2, amended: a trajectory either is not ruined, and then its final
    capital and every entry of its equity curve are positive, or is ruined,
    and then its final capital is 0 and its curve is a run of positive
    entries followed by exactly two more: the capital [c <= 0] left by the
    ruining trade (negative when the loss exceeds the capital) and the 0
    appended on ruin, after which nothing is appended. *)
Theorem equity_curve_sign (cfg : SimulationConfig) (stats : TradeStats)
  (g : generator) :
  0 < initial_capital cfg ->
  exists r g',
    _run_single_simulation cfg stats g = inr (r, g') /\
    ((0 < final_capital r /\ Forall (fun e => 0 < e) (equity_curve r)) \/
     (final_capital r = 0 /\
      exists pre c,
        equity_curve r = pre ++ [c; 0] /\
        Forall (fun e => 0 < e) pre /\ c <= 0)).
Proof.
  intros Hpos.
  destruct (run_single_ok cfg stats g Hpos)
    as (st & r & g' & _ & Hrun & Hshape & Hfc & _ & Hec & _).
  exists r, g'. split; [exact Hrun|].
  rewrite Hfc, Hec.
  destruct Hshape as [mid [Hc _ Hall _] He _ _|mid c He Hmid Hc Hz _ _].
  - left. split; assumption.
  - right. split; [exact Hz|].
    exists (initial_capital cfg :: mid), c. split; [exact He|].
    split; [|exact Hc]. now constructor.
Qed.

Lemma equity_curve_sign_witness :
  exists r g',
    _run_single_simulation default_config default_stats (one_loss 20)
      = inr (r, g') /\
    ((0 < final_capital r /\ Forall (fun e => 0 < e) (equity_curve r)) \/
     (final_capital r = 0 /\
      exists pre c,
        equity_curve r = pre ++ [c; 0] /\
        Forall (fun e => 0 < e) pre /\ c <= 0)).
Proof.
  apply (equity_curve_sign default_config default_stats (one_loss 20)).
  reflexivity.
Defined.

(** ** Lengths of the two curves *)

(** C3, as stated, fails: with one trade per trajectory (N = 1) and a first
    trade that ruins the account, the equity curve has 3 = N + 2 entries. *)
Lemma curve_length_counterexample :
  exists r g',
    0 < initial_capital (all_in_config 1) /\
    _run_single_simulation (all_in_config 1) default_stats (one_loss 20)
      = inr (r, g') /\
    ~ (length (equity_curve r) <= num_trades (all_in_config 1) + 1)%nat.
Proof.
  do 2 eexists. split; [cbv; reflexivity|]. split; [reflexivity|].
  cbn. lia.
Qed.

(** C3, amended: the drawdown curve always has the length of the equity
    curve; the equity curve has one entry more than the trades executed when
    the trajectory is not ruined (then all N trades are executed, N + 1
    entries), and two more when it is ruined; in every case at most N + 2. *)
Theorem curve_lengths (cfg : SimulationConfig) (stats : TradeStats)
  (g : generator) :
  0 < initial_capital cfg ->
  exists r g',
    _run_single_simulation cfg stats g = inr (r, g') /\
    length (drawdown_curve r) = length (equity_curve r) /\
    (length (equity_curve r) <= num_trades cfg + 2)%nat /\
    (total_wins r + total_losses r <= Z.of_nat (num_trades cfg))%Z /\
    ((0 < final_capital r /\
      length (equity_curve r) = (num_trades cfg + 1)%nat /\
      (total_wins r + total_losses r)%Z = Z.of_nat (num_trades cfg)) \/
     (final_capital r = 0 /\
      Z.of_nat (length (equity_curve r))
      = (total_wins r + total_losses r + 2)%Z)).
Proof.
  intros Hpos.
  destruct (run_single_ok cfg stats g Hpos)
    as (st & r & g' & _ & Hrun & Hshape & Hfc & _ & Hec & Hdd & Hw & Hl & _).
  exists r, g'. split; [exact Hrun|].
  rewrite Hdd, Hfc, Hec, Hw, Hl.
  destruct Hshape as [mid [Hc _ _ _] He Hn Hcnt|mid c He _ _ Hz Hn Hcnt];
    rewrite He; cbn [initial_vars Run.equity_curve Run.wins Run.losses] in *;
    rewrite ?length_app; cbn [length app].
  - split; [reflexivity|]. split; [lia|]. split; [lia|].
    left. split; [exact Hc|]. split; lia.
  - split; [reflexivity|]. split; [lia|]. split; [lia|].
    right. split; [exact Hz|]. lia.
Qed.

Lemma curve_lengths_witness :
  exists r g',
    _run_single_simulation (all_in_config 1) default_stats (one_loss 20)
      = inr (r, g') /\
    length (drawdown_curve r) = length (equity_curve r) /\
    (length (equity_curve r) <= 1 + 2)%nat /\
    (total_wins r + total_losses r <= 1)%Z /\
    ((0 < final_capital r /\
      length (equity_curve r) = (1 + 1)%nat /\
      (total_wins r + total_losses r)%Z = 1%Z) \/
     (final_capital r = 0 /\
      Z.of_nat (length (equity_curve r))
      = (total_wins r + total_losses r + 2)%Z)).
Proof.
  apply (curve_lengths (all_in_config 1) default_stats (one_loss 20)).
  reflexivity.
Defined.

(** ** The divisor of the per-trade return *)

Lemma nth_error_middle (pre : list Q) (x : Q) (rest : list Q) :
  nth_error (pre ++ x :: rest) (length pre) = Some x.
Proof.
  rewrite nth_error_app2 by lia. now rewrite Nat.sub_diag.
Qed.

Lemma returns_from_positive_step (cfg : SimulationConfig) (stats : TradeStats)
  (st : Run.vars) (g : generator) (st' : Run.vars) (b : bool) (g' : generator) :
  ~ initial_capital cfg == 0 ->
  running st -> returns_from_positive st ->
  loop_body cfg stats st g = inr (st', b, g') ->
  returns_from_positive st'.
Proof.
  intros H0 Hrun [Hlen Hret] Hb.
  destruct (loop_body_inv _ _ _ _ _ _ _ H0 Hrun Hb)
    as (pnl & w & _ & _ & _ & Hec & Hr & Hw & Hl & _).
  destruct Hrun as [Hc [pre Hpre] _ Hn].
  set (c := Run.capital st + pnl) in *.
  assert (Hec' : exists tail,
             Run.equity_curve st' = pre ++ Run.capital st :: c :: tail).
  { rewrite Hec, Hpre. destruct b; eexists; rewrite <- !app_assoc; reflexivity. }
  destruct Hec' as (tail & Hec').
  assert (Hpl : length (Run.returns st) = length pre).
  { rewrite Hpre, length_app in Hn. cbn in Hn. lia. }
  split.
  - rewrite Hr, Hw, Hl, length_app. cbn [length]. destruct w; lia.
  - intros k Hk. rewrite Hr, length_app in Hk. cbn [length] in Hk.
    destruct (Nat.eq_dec k (length (Run.returns st))) as [->|Hne].
    + exists (Run.capital st), c. rewrite Hec', Hpl.
      split; [apply nth_error_middle|]. split.
      * replace (pre ++ Run.capital st :: c :: tail)
          with ((pre ++ [Run.capital st]) ++ c :: tail)
          by (now rewrite <- app_assoc).
        replace (S (length pre)) with (length (pre ++ [Run.capital st]))
          by (rewrite length_app; cbn; lia).
        apply nth_error_middle.
      * split; [exact Hc|]. rewrite Hr, <- Hpl. apply nth_error_middle.
    + destruct (Hret k ltac:(lia)) as (prev & cur & Hp & Hcur & Hpos & Hk').
      exists prev, cur.
      replace (Run.equity_curve st')
        with (Run.equity_curve st ++ c :: tail)
        by (rewrite Hec', Hpre, <- app_assoc; reflexivity).
      rewrite !nth_error_app1 by (rewrite ?Hpre, ?length_app; cbn; lia).
      rewrite Hr, nth_error_app1 by lia. auto.
Qed.

(** C10: from a positive initial capital the trade loop never raises
    [ZeroDivisionError] (it returns its final variables); it records one
    return per executed trade, and each return is [(cur - prev) / prev] with
    [prev], the previous entry of the equity curve, strictly positive. *)
Theorem return_divisor_positive (cfg : SimulationConfig) (stats : TradeStats)
  (g : generator) :
  0 < initial_capital cfg ->
  exists st g',
    trade_loop cfg stats (num_trades cfg) (initial_vars cfg) g = inr (st, g') /\
    Z.of_nat (length (Run.returns st)) = (Run.wins st + Run.losses st)%Z /\
    forall k, (k < length (Run.returns st))%nat ->
      exists prev cur,
        nth_error (Run.equity_curve st) k = Some prev /\
        nth_error (Run.equity_curve st) (S k) = Some cur /\
        0 < prev /\
        nth_error (Run.returns st) k = Some ((cur - prev) / prev).
Proof.
  intros Hpos.
  pose proof (Qpos_nonzero _ Hpos) as H0.
  pose proof (initial_vars_running cfg Hpos) as Hrun.
  destruct (trade_loop_total cfg stats (num_trades cfg) _ g H0 Hrun)
    as (st & g' & Hloop).
  exists st, g'. split; [exact Hloop|].
  apply (outcome_invariant cfg stats returns_from_positive H0)
    with (n := num_trades cfg) (st := initial_vars cfg) (g := g) (g' := g').
  - intros s gs s' b gs' Hr HP Hb.
    eapply returns_from_positive_step; eauto.
  - exact Hrun.
  - split; [reflexivity|]. cbn. intros k Hk. lia.
  - now apply trade_loop_outcome.
Qed.

Lemma return_divisor_positive_witness :
  exists st g',
    trade_loop (all_in_config 3) default_stats 3
      (initial_vars (all_in_config 3)) (one_loss 5) = inr (st, g') /\
    Z.of_nat (length (Run.returns st)) = (Run.wins st + Run.losses st)%Z /\
    forall k, (k < length (Run.returns st))%nat ->
      exists prev cur,
        nth_error (Run.equity_curve st) k = Some prev /\
        nth_error (Run.equity_curve st) (S k) = Some cur /\
        0 < prev /\
        nth_error (Run.returns st) k = Some ((cur - prev) / prev).
Proof.
  apply (return_divisor_positive (all_in_config 3) default_stats (one_loss 5)).
  reflexivity.
Defined.

(** The positivity of the initial capital is needed: with a zero initial
    capital the first trade already raises, in the scaling of its PnL. *)
Lemma zero_capital_raises (cfg : SimulationConfig) (stats : TradeStats)
  (g : generator) :
  initial_capital cfg == 0 -> (0 < num_trades cfg)%nat ->
  _run_single_simulation cfg stats g = inl ZeroDivisionError.
Proof.
  intros Hz HN. unfold _run_single_simulation.
  destruct (num_trades cfg) as [|n]; [lia|].
  cbn [trade_loop]. unfold loop_body, draw_trade.
  destruct (_generate_confidence_level stats g) as [c g1].
  destruct (_simulate_single_trade cfg c g1) as [[ppu w] g2].
  rewrite py_div_raises by exact Hz. reflexivity.
Qed.

(** ** What one iteration does to the curve and to the gross sums *)

Lemma draw_trade_inv (cfg : SimulationConfig) (stats : TradeStats)
  (capital : Q) (g : generator) (pnl : Q) (w : bool) (g' : generator) :
  draw_trade cfg stats capital g = inr (pnl, w, g') ->
  let c := fst (_generate_confidence_level stats g) in
  let trade := fst (_simulate_single_trade cfg c (advance g)) in
  let base := if use_compounding cfg then capital else initial_capital cfg in
  pnl = fst trade * (_calculate_position_size cfg base c 1 / initial_capital cfg) /\
  w = snd trade /\
  g' = advance (advance (advance g)) /\
  ~ initial_capital cfg == 0.
Proof.
  unfold draw_trade, _generate_confidence_level, np_random.random.
  destruct (use_compounding cfg);
    (destruct (Qltb (g O) (high_conf_pct stats));
     [|destruct (Qltb (g O) (high_conf_pct stats + medium_conf_pct stats))]);
    cbv beta iota zeta; cbn [fst snd];
    unfold _simulate_single_trade, np_random.random, np_random.lognormal;
    cbv beta iota zeta; cbn [fst snd]; unfold py_div;
    (destruct (Qeq_bool (initial_capital cfg) 0) eqn:E;
     cbn [bind raise ret]; [discriminate|]);
    intros H; injection H as <- <- <-;
    (repeat split;
     intros Hz; apply Qeq_bool_iff in Hz; congruence).
Qed.

Lemma loop_body_effect (cfg : SimulationConfig) (stats : TradeStats)
  (st : Run.vars) (g : generator) (st' : Run.vars) (b : bool) (g' : generator) :
  loop_body cfg stats st g = inr (st', b, g') ->
  exists pnl w,
    draw_trade cfg stats (Run.capital st) g = inr (pnl, w, g') /\
    (exists tail,
        Run.equity_curve st'
        = Run.equity_curve st ++ (Run.capital st + pnl) :: tail) /\
    Run.gross_profit st'
      = (if w then Run.gross_profit st + Qabs pnl else Run.gross_profit st) /\
    Run.gross_loss st'
      = (if w then Run.gross_loss st else Run.gross_loss st + Qabs pnl).
Proof.
  unfold loop_body.
  destruct (draw_trade cfg stats (Run.capital st) g) as [e|[[pnl w] g1]];
    cbn [bind]; [discriminate|].
  cbv beta iota zeta.
  destruct (track_metrics_curve st (Run.capital st + pnl) pnl w)
    as (-> & -> & _ & _).
  destruct (trade_return _ _) as [e|rets]; cbn [bind ret]; [discriminate|].
  intros H. injection H as <- <- <-.
  exists pnl, w. split; [reflexivity|].
  cbn [Run.equity_curve Run.gross_profit Run.gross_loss].
  split.
  - destruct (Qle_bool (Run.capital st + pnl) 0); eexists;
      rewrite <- ?app_assoc; reflexivity.
  - destruct w; split; reflexivity.
Qed.

(** ** Position size and the trade's contribution to capital *)




(** ** Gross profit and gross loss *)






(** ** The aggregation returns on a non-empty result set *)

Lemma count_where_filter (f : Q -> bool) (a : list Q) :
  count_where f a = Z.of_nat (length (filter f a)).
Proof.
  unfold count_where.
  assert (H : forall acc,
             fold_left (fun acc x => if f x then (acc + 1)%Z else acc) a acc
             = (acc + Z.of_nat (length (filter f a)))%Z).
  { induction a as [|x a IH]; intros acc; cbn [fold_left filter].
    - cbn. lia.
    - rewrite IH. destruct (f x); cbn [length]; lia. }
  now rewrite H.
Qed.

Lemma filter_all {A : Type} (f : A -> bool) (l : list A) :
  Forall (fun x => f x = true) l -> filter f l = l.
Proof.
  induction 1 as [|x l Hx _ IH]; cbn; [reflexivity|].
  now rewrite Hx, IH.
Qed.

Lemma filter_none {A : Type} (f : A -> bool) (l : list A) :
  Forall (fun x => f x = false) l -> filter f l = [].
Proof.
  induction 1 as [|x l Hx _ IH]; cbn; [reflexivity|].
  now rewrite Hx, IH.
Qed.

Lemma filter_map_length {A B : Type} (h : A -> B) (f : B -> bool) (l : list A) :
  length (filter f (map h l)) = length (filter (fun x => f (h x)) l).
Proof.
  induction l as [|x l IH]; [reflexivity|].
  cbn [map filter]. destruct (f (h x)); cbn [length]; now rewrite IH.
Qed.

Lemma len_nonzero {A : Type} (l : list A) :
  l <> [] -> ~ inject_Z (len l) == 0.
Proof.
  intros Hne. apply Qpos_nonzero. unfold len, Qlt. cbn.
  destruct l; [congruence|]. cbn [length]. lia.
Qed.

Lemma analyze_results_ok (cfg : SimulationConfig)
  (results : list SimulationResult) :
  results <> [] ->
  exists a,
    analyze_results cfg results = inr a /\
    Dist.mean (Analysis.profit_factor a)
      = np.mean (finite_profit_factors results) /\
    Dist.median (Analysis.profit_factor a)
      = np.median (finite_profit_factors results) /\
    Analysis.probability_of_profit a
      = inject_Z (count_where (fun pnl => Qltb 0 pnl) (map total_pnl results))
        / inject_Z (len (map total_pnl results)) * 100 /\
    Analysis.probability_of_ruin a
      = inject_Z (count_where
                    (fun cap => Qltb cap (initial_capital cfg * 0.5))
                    (map final_capital results))
        / inject_Z (len (map final_capital results)) * 100 /\
    Dist.percentiles (Analysis.final_capital a)
      = percentile_table (map final_capital results) /\
    Dist.percentiles (Analysis.total_pnl a)
      = percentile_table (map total_pnl results) /\
    Dist.percentiles (Analysis.max_drawdown_pct a)
      = percentile_table (map max_drawdown_pct results) /\
    Dist.percentiles (Analysis.longest_loss_streak a)
      = percentile_table
          (map (fun r => inject_Z (longest_loss_streak r)) results).
Proof.
  intros Hne. unfold analyze_results.
  rewrite (py_div_ok _ (inject_Z (len (map total_pnl results))))
    by (apply len_nonzero; destruct results; [congruence|discriminate]).
  rewrite (py_div_ok _ (inject_Z (len (map final_capital results))))
    by (apply len_nonzero; destruct results; [congruence|discriminate]).
  destruct results as [|r rest]; [congruence|].
  cbn [map np.min np.max bind ret].
  eexists. split; [reflexivity|]. cbn. repeat split.
Qed.

(** On an empty result set nothing is reported: [np.min] raises first. *)
Lemma analyze_results_empty (cfg : SimulationConfig) :
  analyze_results cfg [] = inl ValueError.
Proof. reflexivity. Qed.

(** The batch returns one result per simulation, and the whole run returns
    an analysis, when the initial capital is positive and at least one
    simulation is asked for. *)
Lemma simulate_all_ok (cfg : SimulationConfig) (stats : TradeStats) (m : nat)
  (results : list SimulationResult) (g : generator) :
  0 < initial_capital cfg ->
  exists rs g',
    simulate_all cfg stats m results g = inr (rs, g') /\
    length rs = (length results + m)%nat /\
    (Forall (produced cfg stats) results -> Forall (produced cfg stats) rs).
Proof.
  intros Hpos. revert results g.
  induction m as [|m IH]; intros results g; cbn [simulate_all].
  - exists results, g. split; [reflexivity|]. split; [lia|auto].
  - destruct (run_single_ok cfg stats g Hpos) as (st & r & g1 & _ & Hr & _).
    rewrite Hr. cbn [bind].
    destruct (IH (results ++ [r]) g1) as (rs & g' & Hs & Hl & Hp).
    exists rs, g'. split; [exact Hs|]. split.
    + rewrite Hl, length_app. cbn [length]. lia.
    + intros Hall. apply Hp. apply Forall_app. split; [exact Hall|].
      constructor; [|constructor]. now exists g, g1.
Qed.

Lemma run_simulation_ok (cfg : SimulationConfig) (stats : TradeStats)
  (g : generator) :
  0 < initial_capital cfg -> (0 < num_simulations cfg)%nat ->
  exists a g', run_simulation cfg stats g = inr (a, g').
Proof.
  intros Hpos HM. unfold run_simulation.
  destruct (simulate_all_ok cfg stats (num_simulations cfg) [] g Hpos)
    as (rs & g' & -> & Hl & _).
  cbn [bind].
  assert (Hne : rs <> []).
  { intros ->. cbn in Hl. lia. }
  destruct (analyze_results_ok cfg rs Hne) as (a & -> & _).
  now exists a, g'.
Qed.

(** ** Probability of profit and of ruin *)

Lemma produced_total_pnl (cfg : SimulationConfig) (stats : TradeStats)
  (r : SimulationResult) :
  0 < initial_capital cfg -> produced cfg stats r ->
  total_pnl r = final_capital r - initial_capital cfg.
Proof.
  intros Hpos (g & g' & Hr).
  destruct (run_single_ok cfg stats g Hpos)
    as (st & r0 & g0 & _ & Hrun & _ & Hfc & Hpnl & _).
  rewrite Hrun in Hr. injection Hr as <- _.
  now rewrite Hfc, Hpnl.
Qed.

(** C5: on a non-empty result set the analysis returns, with
    [probability_of_profit] the share (in percent) of results whose total
    PnL is strictly positive and [probability_of_ruin] the share (in
    percent) of results whose final capital is below half the initial
    capital; when the results come from the simulator (C0 > 0) and all have
    a positive PnL, the two values are 100 and 0. *)
Theorem probability_of_profit_and_ruin (cfg : SimulationConfig)
  (stats : TradeStats) (results : list SimulationResult) :
  results <> [] ->
  exists a,
    analyze_results cfg results = inr a /\
    Analysis.probability_of_profit a
      = inject_Z (Z.of_nat (length (filter (fun r => Qltb 0 (total_pnl r))
                                           results)))
        / inject_Z (Z.of_nat (length results)) * 100 /\
    Analysis.probability_of_ruin a
      = inject_Z (Z.of_nat
                    (length (filter
                               (fun r => Qltb (final_capital r)
                                              (initial_capital cfg * 0.5))
                               results)))
        / inject_Z (Z.of_nat (length results)) * 100 /\
    (0 < initial_capital cfg ->
     Forall (produced cfg stats) results ->
     Forall (fun r => 0 < total_pnl r) results ->
     Analysis.probability_of_profit a == 100 /\
     Analysis.probability_of_ruin a == 0).
Proof.
  intros Hne.
  destruct (analyze_results_ok cfg results Hne)
    as (a & Ha & _ & _ & Hp & Hr & _).
  exists a. split; [exact Ha|].
  rewrite !count_where_filter in Hp, Hr.
  unfold len in Hp, Hr. rewrite !length_map in Hp, Hr.
  rewrite (filter_map_length total_pnl) in Hp.
  rewrite (filter_map_length final_capital) in Hr.
  split; [exact Hp|]. split; [exact Hr|].
  intros Hpos Hprod Hall.
  assert (Hlen : ~ inject_Z (Z.of_nat (length results)) == 0)
    by (apply (len_nonzero results Hne)).
  rewrite Hp, Hr. split.
  - rewrite filter_all.
    + field. exact Hlen.
    + eapply Forall_impl; [|exact Hall].
      intros r Hr0. now apply Qltb_true.
  - rewrite filter_none.
    + cbn [length]. field. exact Hlen.
    + rewrite Forall_forall in *. intros r Hin.
      apply Qltb_false.
      pose proof (produced_total_pnl cfg stats r Hpos (Hprod r Hin)) as Ht.
      pose proof (Hall r Hin) as Hgt. rewrite Ht in Hgt.
      apply Qle_trans with (y := initial_capital cfg).
      * apply Qle_minus_iff.
        assert (E : initial_capital cfg + - (initial_capital cfg * 0.5)
                    == initial_capital cfg * 0.5) by ring.
        rewrite E. apply Qmult_le_0_compat; [|discriminate].
        now apply Qlt_le_weak.
      * apply Qlt_le_weak. apply Qlt_minus_iff. exact Hgt.
Qed.

Lemma probability_of_profit_and_ruin_witness :
  exists r g',
    _run_single_simulation scenario_a_config default_stats (one_win 10)
      = inr (r, g') /\
    exists a,
      analyze_results scenario_a_config [r] = inr a /\
      Analysis.probability_of_profit a == 100 /\
      Analysis.probability_of_ruin a == 0.
Proof.
  do 2 eexists. split; [cbv; reflexivity|].
  match goal with
  | |- exists a, analyze_results _ ?rs = _ /\ _ =>
      destruct (probability_of_profit_and_ruin scenario_a_config
                  default_stats rs) as (a & Ha & _ & _ & H);
        [discriminate|]
  end.
  exists a. split; [exact Ha|]. apply H.
  - reflexivity.
  - constructor; [|constructor].
    exists (one_win 10). eexists. reflexivity.
  - constructor; [reflexivity|constructor].
Defined.

(** ** Profit factor *)

Lemma gross_loss_nonneg_step (cfg : SimulationConfig) (stats : TradeStats)
  (st : Run.vars) (g : generator) (st' : Run.vars) (b : bool) (g' : generator) :
  0 <= Run.gross_loss st ->
  loop_body cfg stats st g = inr (st', b, g') ->
  0 <= Run.gross_loss st'.
Proof.
  intros Hge Hb.
  destruct (loop_body_effect _ _ _ _ _ _ _ Hb) as (pnl & w & _ & _ & _ & ->).
  destruct w; [exact Hge|].
  apply Qle_trans with (y := 0 + 0); [discriminate|].
  apply Qplus_le_compat; [exact Hge|apply Qabs_nonneg].
Qed.

Lemma finite_profit_factors_In (results : list SimulationResult) (x : Q) :
  In x (finite_profit_factors results)
  <-> exists r, In r results /\ profit_factor r = finite x.
Proof.
  induction results as [|r rs IH]; cbn [finite_profit_factors In].
  - split; [tauto|]. now intros (r & [] & _).
  - destruct (profit_factor r) as [q|] eqn:E.
    + cbn [In]. rewrite IH. split.
      * intros [->|(r' & Hin & Hr')]; [exists r|exists r']; auto.
      * intros (r' & [<-|Hin] & Hr').
        -- left. congruence.
        -- right. now exists r'.
    + rewrite IH. split.
      * intros (r' & Hin & Hr'). exists r'. auto.
      * intros (r' & [<-|Hin] & Hr'); [congruence|]. now exists r'.
Qed.

Lemma finite_profit_factors_none (results : list SimulationResult) :
  Forall (fun r => profit_factor r = infinity) results ->
  finite_profit_factors results = [].
Proof.
  induction 1 as [|r rs Hr _ IH]; cbn [finite_profit_factors];
    [reflexivity|]. now rewrite Hr.
Qed.

(** C6: a trajectory's profit factor is [gross_profit / gross_loss] when
    gross loss is positive and infinite exactly when gross loss is zero
    (gross loss is never negative); the analysis takes the mean and median
    of the profit factor over the finite values only, and when every
    trajectory of a non-empty result set has an infinite profit factor the
    analysis still returns, with [nan] for both. *)
Theorem profit_factor_aggregation (cfg : SimulationConfig) (stats : TradeStats) :
  (forall g,
      0 < initial_capital cfg ->
      exists st r g',
        trade_loop cfg stats (num_trades cfg) (initial_vars cfg) g
          = inr (st, g') /\
        _run_single_simulation cfg stats g = inr (r, g') /\
        0 <= Run.gross_loss st /\
        (0 < Run.gross_loss st ->
         profit_factor r = finite (Run.gross_profit st / Run.gross_loss st)) /\
        (profit_factor r = infinity <-> Run.gross_loss st == 0)) /\
  (forall results,
      results <> [] ->
      exists a,
        analyze_results cfg results = inr a /\
        Dist.mean (Analysis.profit_factor a)
          = np.mean (finite_profit_factors results) /\
        Dist.median (Analysis.profit_factor a)
          = np.median (finite_profit_factors results) /\
        (forall x,
            In x (finite_profit_factors results)
            <-> exists r, In r results /\ profit_factor r = finite x) /\
        (Forall (fun r => profit_factor r = infinity) results ->
         Dist.mean (Analysis.profit_factor a) = np.nan /\
         Dist.median (Analysis.profit_factor a) = np.nan)).
Proof.
  split.
  - intros g Hpos.
    destruct (run_single_ok cfg stats g Hpos)
      as (st & r & g' & Hloop & Hrun & _ & _ & _ & _ & _ & _ & _ & Hpf).
    exists st, r, g'. split; [exact Hloop|]. split; [exact Hrun|].
    assert (Hge : 0 <= Run.gross_loss st).
    { pose proof (Qpos_nonzero _ Hpos) as H0.
      apply (outcome_invariant cfg stats (fun s => 0 <= Run.gross_loss s) H0)
        with (n := num_trades cfg) (st := initial_vars cfg) (g := g) (g' := g').
      - intros s gs s' b gs' _ HP Hb. eapply gross_loss_nonneg_step; eauto.
      - now apply initial_vars_running.
      - discriminate.
      - now apply trade_loop_outcome. }
    split; [exact Hge|]. rewrite Hpf. split.
    + intros Hgt. apply Qltb_true in Hgt. now rewrite Hgt.
    + destruct (Qltb 0 (Run.gross_loss st)) eqn:E.
      * apply Qltb_true in E. split; [discriminate|].
        intros Hz. rewrite Hz in E. now apply Qlt_irrefl in E.
      * apply Qltb_false in E. split; [|reflexivity].
        intros _. now apply Qle_antisym.
  - intros results Hne.
    destruct (analyze_results_ok cfg results Hne)
      as (a & Ha & Hmean & Hmed & _).
    exists a. split; [exact Ha|]. split; [exact Hmean|]. split; [exact Hmed|].
    split; [apply finite_profit_factors_In|].
    intros Hall. rewrite Hmean, Hmed.
    now rewrite (finite_profit_factors_none results Hall).
Qed.

(** A winning trajectory of one trade: its gross loss is zero. *)
Lemma profit_factor_aggregation_witness :
  (exists st r g',
      trade_loop scenario_a_config default_stats 1
        (initial_vars scenario_a_config) (one_win 10) = inr (st, g') /\
      _run_single_simulation scenario_a_config default_stats (one_win 10)
        = inr (r, g') /\
      0 <= Run.gross_loss st /\
      (0 < Run.gross_loss st ->
       profit_factor r = finite (Run.gross_profit st / Run.gross_loss st)) /\
      (profit_factor r = infinity <-> Run.gross_loss st == 0)) /\
  (exists r g',
      _run_single_simulation scenario_a_config default_stats (one_win 10)
        = inr (r, g') /\
      exists a,
        analyze_results scenario_a_config [r; r] = inr a /\
        Dist.mean (Analysis.profit_factor a) = np.nan /\
        Dist.median (Analysis.profit_factor a) = np.nan).
Proof.
  split.
  - apply (proj1 (profit_factor_aggregation scenario_a_config default_stats)
             (one_win 10)).
    reflexivity.
  - do 2 eexists. split; [cbv; reflexivity|].
    match goal with
    | |- exists a, analyze_results _ ?rs = _ /\ _ =>
        destruct (proj2 (profit_factor_aggregation scenario_a_config
                           default_stats) rs)
          as (a & Ha & _ & _ & _ & Hnan); [discriminate|]
    end.
    exists a. split; [exact Ha|]. apply Hnan. repeat constructor.
Defined.

(** ** Percentiles are monotone in the rank *)

Lemma insert_Forall (y x : Q) (s : list Q) :
  y <= x -> Forall (Qle y) s -> Forall (Qle y) (np.insert x s).
Proof.
  intros Hyx. induction 1 as [|z s Hz Hs IH]; cbn.
  - now repeat constructor.
  - destruct (Qle_bool x z); repeat constructor; assumption.
Qed.

Lemma insert_sorted (x : Q) (s : list Q) :
  StronglySorted Qle s -> StronglySorted Qle (np.insert x s).
Proof.
  induction 1 as [|y s Hs IH Hy]; cbn.
  - repeat constructor.
  - destruct (Qle_bool x y) eqn:E.
    + apply Qle_bool_iff in E. constructor.
      * now constructor.
      * constructor; [exact E|].
        eapply Forall_impl; [|exact Hy].
        intros z Hz. now apply Qle_trans with (y := y).
    + apply Qle_bool_false in E. constructor; [exact IH|].
      apply insert_Forall; [now apply Qlt_le_weak|exact Hy].
Qed.

Lemma sort_sorted (a : list Q) : StronglySorted Qle (np.sort a).
Proof.
  induction a as [|x a IH]; [constructor|].
  change (np.sort (x :: a)) with (np.insert x (np.sort a)).
  now apply insert_sorted.
Qed.

Lemma insert_length (x : Q) (s : list Q) :
  length (np.insert x s) = S (length s).
Proof.
  induction s as [|y s IH]; cbn; [reflexivity|].
  destruct (Qle_bool x y); cbn; [reflexivity|now rewrite IH].
Qed.

Lemma sort_length (a : list Q) : length (np.sort a) = length a.
Proof.
  induction a as [|x a IH]; [reflexivity|].
  change (np.sort (x :: a)) with (np.insert x (np.sort a)).
  now rewrite insert_length, IH.
Qed.

Lemma sorted_nth_le (s : list Q) (i j : nat) :
  StronglySorted Qle s -> (i <= j)%nat -> (j < length s)%nat ->
  nth i s 0 <= nth j s 0.
Proof.
  intros Hs. revert i j. induction Hs as [|x s Hs IH Hx]; intros i j Hij Hj.
  - cbn in Hj. lia.
  - destruct i as [|i], j as [|j]; cbn [nth]; cbn [length] in Hj.
    + apply Qle_refl.
    + rewrite Forall_forall in Hx. apply Hx. apply nth_In. lia.
    + lia.
    + apply IH; lia.
Qed.

Lemma lerp_bounds (a b t : Q) :
  a <= b -> 0 <= t -> t <= 1 -> a <= np.lerp a b t /\ np.lerp a b t <= b.
Proof.
  intros Hab H0 H1. unfold np.lerp. split.
  - assert (H : 0 <= (b - a) * t).
    { apply Qmult_le_0_compat; [|exact H0].
      apply (proj1 (Qle_minus_iff a b)). exact Hab. }
    apply Qle_trans with (y := a + 0).
    + rewrite Qplus_0_r. apply Qle_refl.
    + now apply Qplus_le_r.
  - assert (H : 0 <= (b - a) * (1 - t)).
    { apply Qmult_le_0_compat.
      - apply (proj1 (Qle_minus_iff a b)). exact Hab.
      - apply (proj1 (Qle_minus_iff t 1)). exact H1. }
    apply Qle_minus_iff.
    assert (E : b + - (a + (b - a) * t) == (b - a) * (1 - t)) by ring.
    now rewrite E.
Qed.

Lemma lerp_mono (a b t u : Q) :
  a <= b -> t <= u -> np.lerp a b t <= np.lerp a b u.
Proof.
  intros Hab Htu. unfold np.lerp. apply Qplus_le_r.
  apply Qle_minus_iff.
  assert (E : (b - a) * u + - ((b - a) * t) == (b - a) * (u - t)) by ring.
  rewrite E. apply Qmult_le_0_compat.
  - apply (proj1 (Qle_minus_iff a b)). exact Hab.
  - apply (proj1 (Qle_minus_iff t u)). exact Htu.
Qed.

Lemma Qfloor_fraction (h : Q) :
  0 <= h - inject_Z (Qfloor h) /\ h - inject_Z (Qfloor h) <= 1.
Proof.
  pose proof (Qfloor_le h) as Hl. pose proof (Qlt_floor h) as Hu.
  rewrite inject_Z_plus in Hu. split.
  - apply (proj1 (Qle_minus_iff _ _)). exact Hl.
  - apply Qlt_le_weak. apply Qlt_minus_iff.
    apply Qlt_minus_iff in Hu.
    assert (E : 1 + - (h - inject_Z (Qfloor h))
                == inject_Z (Qfloor h) + inject_Z 1 + - h) by ring.
    now rewrite E.
Qed.

Lemma at_index_mono (s : list Q) (h1 h2 : Q) :
  StronglySorted Qle s -> s <> [] ->
  0 <= h1 -> h1 <= h2 -> h2 <= inject_Z (Z.of_nat (length s) - 1) ->
  at_index s h1 <= at_index s h2.
Proof.
  intros Hs Hne H0 H12 Hn.
  assert (Hlen : (0 < length s)%nat) by (destruct s; [congruence|cbn; lia]).
  set (n := Z.of_nat (length s)) in *.
  assert (Hl1 : (0 <= Qfloor h1)%Z).
  { rewrite <- (Qfloor_Z 0). apply Qfloor_resp_le. exact H0. }
  assert (Hl12 : (Qfloor h1 <= Qfloor h2)%Z) by (now apply Qfloor_resp_le).
  assert (Hl2 : (Qfloor h2 <= n - 1)%Z).
  { rewrite <- (Qfloor_Z (n - 1)). now apply Qfloor_resp_le. }
  assert (Hpair : forall l, (0 <= l <= n - 1)%Z ->
             nth (Z.to_nat l) s 0
             <= nth (Z.to_nat (Z.min (l + 1) (n - 1))) s 0).
  { intros l Hl. apply sorted_nth_le; [exact Hs| |]; unfold n in *; lia. }
  destruct (Qfloor_fraction h1) as (Hf1 & Hf1').
  destruct (Qfloor_fraction h2) as (Hf2 & Hf2').
  unfold at_index. fold n.
  destruct (Z.eq_dec (Qfloor h1) (Qfloor h2)) as [E|Hne12].
  - rewrite E. apply lerp_mono.
    + apply Hpair. lia.
    + apply Qplus_le_l. exact H12.
  - apply Qle_trans
      with (y := nth (Z.to_nat (Z.min (Qfloor h1 + 1) (n - 1))) s 0).
    + apply lerp_bounds; [apply Hpair; lia|exact Hf1|exact Hf1'].
    + apply Qle_trans with (y := nth (Z.to_nat (Qfloor h2)) s 0).
      * apply sorted_nth_le; [exact Hs| |]; unfold n in *; lia.
      * apply lerp_bounds; [apply Hpair; lia|exact Hf2|exact Hf2'].
Qed.

Lemma percentile_at_index (a : list Q) (q : Q) :
  a <> [] ->
  np.percentile a q
  = np.value (at_index (np.sort a) (inject_Z (len a - 1) * (q / 100))).
Proof.
  intros Hne. destruct a as [|x a]; [congruence|].
  unfold np.percentile, at_index. rewrite sort_length. reflexivity.
Qed.

Lemma percentile_mono (a : list Q) (p q : Q) :
  a <> [] -> 0 <= p -> p <= q -> q <= 100 ->
  exists vp vq,
    np.percentile a p = np.value vp /\
    np.percentile a q = np.value vq /\
    vp <= vq.
Proof.
  intros Hne H0 Hpq H100.
  rewrite !percentile_at_index by assumption.
  exists (at_index (np.sort a) (inject_Z (len a - 1) * (p / 100))),
         (at_index (np.sort a) (inject_Z (len a - 1) * (q / 100))).
  split; [reflexivity|]. split; [reflexivity|].
  assert (Hn : 0 <= inject_Z (len a - 1)).
  { unfold len. destruct a; [congruence|].
    change 0 with (inject_Z 0). rewrite <- Zle_Qle. cbn [length]. lia. }
  assert (Hdiv : forall x y, x <= y -> x / 100 <= y / 100).
  { intros x y Hxy. unfold Qdiv. apply Qmult_le_compat_r; [exact Hxy|].
    discriminate. }
  apply at_index_mono.
  - apply sort_sorted.
  - intros E. apply (f_equal (@length Q)) in E.
    rewrite sort_length in E. destruct a; [congruence|discriminate].
  - apply Qmult_le_0_compat; [exact Hn|].
    apply Qle_trans with (y := 0 / 100); [discriminate|now apply Hdiv].
  - rewrite !(Qmult_comm (inject_Z (len a - 1))).
    apply Qmult_le_compat_r; [now apply Hdiv|exact Hn].
  - rewrite sort_length. fold (len a).
    apply Qle_trans with (y := inject_Z (len a - 1) * (100 / 100)).
    + rewrite !(Qmult_comm (inject_Z (len a - 1))).
      apply Qmult_le_compat_r; [now apply Hdiv|exact Hn].
    + assert (E : 100 / 100 == 1) by reflexivity.
      rewrite E, Qmult_1_r. apply Qle_refl.
Qed.

Lemma dict_get_map (f : Z -> np.float64) (keys : list Z) (p : Z) :
  In p keys -> dict_get (map (fun k => (k, f k)) keys) p = Some (f p).
Proof.
  induction keys as [|k keys IH]; cbn [In map dict_get]; [tauto|].
  intros [->|Hin].
  - now rewrite Z.eqb_refl.
  - destruct (k =? p)%Z eqn:E; [|now apply IH].
    apply Z.eqb_eq in E. now subst.
Qed.

Lemma percentile_table_mono (a : list Q) (p q : Z) :
  a <> [] -> In p percentiles -> In q percentiles -> (p <= q)%Z ->
  exists vp vq,
    dict_get (percentile_table a) p = Some (np.value vp) /\
    dict_get (percentile_table a) q = Some (np.value vq) /\
    vp <= vq.
Proof.
  intros Hne Hp Hq Hpq. unfold percentile_table.
  rewrite !(dict_get_map (fun k => np.percentile a (inject_Z k))) by assumption.
  destruct (percentile_mono a (inject_Z p) (inject_Z q) Hne)
    as (vp & vq & Ep & Eq & Hle).
  - change 0 with (inject_Z 0). rewrite <- Zle_Qle.
    unfold percentiles in Hp. cbn [In] in Hp. lia.
  - now rewrite <- Zle_Qle.
  - change 100 with (inject_Z 100). rewrite <- Zle_Qle.
    unfold percentiles in Hq. cbn [In] in Hq. lia.
  - exists vp, vq. rewrite Ep, Eq. auto.
Qed.

(** C9: on a non-empty result set the analysis returns and, for each of
    the four metrics reported with percentiles (final capital, total PnL,
    max-drawdown percentage, longest loss streak), the values reported at two
    ranks [p <= q] of the fixed percentile set are in the same order. *)
Theorem percentiles_monotone (cfg : SimulationConfig)
  (results : list SimulationResult) :
  results <> [] ->
  exists a,
    analyze_results cfg results = inr a /\
    forall d p q,
      In d [Analysis.final_capital a; Analysis.total_pnl a;
            Analysis.max_drawdown_pct a; Analysis.longest_loss_streak a] ->
      In p percentiles -> In q percentiles -> (p <= q)%Z ->
      exists vp vq,
        dict_get (Dist.percentiles d) p = Some (np.value vp) /\
        dict_get (Dist.percentiles d) q = Some (np.value vq) /\
        vp <= vq.
Proof.
  intros Hne.
  destruct (analyze_results_ok cfg results Hne)
    as (a & Ha & _ & _ & _ & _ & H1 & H2 & H3 & H4).
  exists a. split; [exact Ha|].
  assert (Hmap : forall (A : Type) (f : SimulationResult -> A),
             map f results <> []).
  { intros A f. destruct results; [congruence|discriminate]. }
  intros d p q Hd Hp Hq Hpq. cbn [In] in Hd.
  destruct Hd as [<-|[<-|[<-|[<-|[]]]]].
  - rewrite H1. now apply percentile_table_mono.
  - rewrite H2. now apply percentile_table_mono.
  - rewrite H3. now apply percentile_table_mono.
  - rewrite H4. now apply percentile_table_mono.
Qed.

Lemma percentiles_monotone_witness :
  exists r g',
    _run_single_simulation scenario_a_config default_stats (one_win 10)
      = inr (r, g') /\
    exists a,
      analyze_results scenario_a_config [r; r; r] = inr a /\
      exists vp vq,
        dict_get (Dist.percentiles (Analysis.final_capital a)) 5
          = Some (np.value vp) /\
        dict_get (Dist.percentiles (Analysis.final_capital a)) 95
          = Some (np.value vq) /\
        vp <= vq.
Proof.
  do 2 eexists. split; [cbv; reflexivity|].
  match goal with
  | |- exists a, analyze_results _ ?rs = _ /\ _ =>
      destruct (percentiles_monotone scenario_a_config rs)
        as (a & Ha & Hmono); [discriminate|]
  end.
  exists a. split; [exact Ha|].
  apply Hmono.
  - left. reflexivity.
  - cbn. tauto.
  - cbn. tauto.
  - discriminate.
Defined.

(** ** Determinism *)










(** * Further properties of the trajectory *)

(** ** Reading a returned iteration and a returned trajectory *)

Lemma loop_body_fields (cfg : SimulationConfig) (stats : TradeStats)
  (st : Run.vars) (g : generator) (st' : Run.vars) (b : bool) (g' : generator) :
  loop_body cfg stats st g = inr (st', b, g') ->
  exists pnl w,
    draw_trade cfg stats (Run.capital st) g = inr (pnl, w, g') /\
    b = Qle_bool (Run.capital st + pnl) 0 /\
    Run.capital st' = (if b then 0 else Run.capital st + pnl) /\
    Run.wins st' = Run.wins (track_metrics st (Run.capital st + pnl) pnl w) /\
    Run.losses st'
      = Run.losses (track_metrics st (Run.capital st + pnl) pnl w) /\
    Run.current_streak st'
      = Run.current_streak (track_metrics st (Run.capital st + pnl) pnl w) /\
    Run.longest_win_streak st'
      = Run.longest_win_streak
          (track_metrics st (Run.capital st + pnl) pnl w) /\
    Run.longest_loss_streak st'
      = Run.longest_loss_streak
          (track_metrics st (Run.capital st + pnl) pnl w) /\
    Run.last_trade_won st'
      = Run.last_trade_won (track_metrics st (Run.capital st + pnl) pnl w) /\
    Run.peak_capital st'
      = (if Qltb (Run.peak_capital st) (Run.capital st + pnl)
         then Run.capital st + pnl else Run.peak_capital st) /\
    Run.max_drawdown st'
      = py_max (Run.max_drawdown st)
               ((if Qltb (Run.peak_capital st) (Run.capital st + pnl)
                 then Run.capital st + pnl else Run.peak_capital st)
                - (Run.capital st + pnl)).
Proof.
  unfold loop_body.
  destruct (draw_trade cfg stats (Run.capital st) g) as [e|[[pnl w] g1]];
    cbn [bind]; [discriminate|].
  cbv beta iota zeta.
  destruct (track_metrics_curve st (Run.capital st + pnl) pnl w)
    as (Hec & Hret & Hpk & Hmd).
  destruct (trade_return _ _) as [e|rets]; cbn [bind ret]; [discriminate|].
  intros H. injection H as <- <- <-.
  exists pnl, w. cbn [Run.capital Run.wins Run.losses Run.current_streak
                      Run.longest_win_streak Run.longest_loss_streak
                      Run.last_trade_won Run.peak_capital Run.max_drawdown].
  rewrite Hpk, Hmd. repeat split.
Qed.

(** A property kept by every returned iteration holds of the variables a
    returned loop ends with. *)
Lemma trade_loop_invariant (cfg : SimulationConfig) (stats : TradeStats)
  (P : Run.vars -> Prop) :
  (forall st g st' b g',
      P st -> loop_body cfg stats st g = inr (st', b, g') -> P st') ->
  forall n st g st' g',
    P st -> trade_loop cfg stats n st g = inr (st', g') -> P st'.
Proof.
  intros Hstep n. induction n as [|n IH]; intros st g st' g' HP H;
    cbn [trade_loop] in H.
  - injection H as <- <-. exact HP.
  - destruct (loop_body cfg stats st g) as [e|[[st1 b] g1]] eqn:E;
      cbn [bind] in H; [discriminate|].
    pose proof (Hstep _ _ _ _ _ HP E) as HP1.
    destruct b.
    + injection H as <- <-. exact HP1.
    + eapply IH; eauto.
Qed.

Lemma run_single_inv (cfg : SimulationConfig) (stats : TradeStats)
  (g : generator) (r : SimulationResult) (g' : generator) :
  _run_single_simulation cfg stats g = inr (r, g') ->
  exists st,
    trade_loop cfg stats (num_trades cfg) (initial_vars cfg) g = inr (st, g') /\
    final_metrics cfg st = inr r.
Proof.
  unfold _run_single_simulation.
  destruct (trade_loop cfg stats (num_trades cfg) (initial_vars cfg) g)
    as [e|[st g1]]; cbn [bind]; [discriminate|].
  destruct (final_metrics cfg st) as [e|r0] eqn:E; cbn [bind ret];
    [discriminate|].
  intros H. injection H as <- <-. now exists st.
Qed.

Lemma final_metrics_fields (cfg : SimulationConfig) (st : Run.vars)
  (r : SimulationResult) :
  final_metrics cfg st = inr r ->
  final_capital r = Run.capital st /\
  total_pnl r = Run.capital st - initial_capital cfg /\
  max_drawdown r = Run.max_drawdown st /\
  longest_win_streak r = Run.longest_win_streak st /\
  longest_loss_streak r = Run.longest_loss_streak st /\
  total_wins r = Run.wins st /\
  total_losses r = Run.losses st /\
  equity_curve r = Run.equity_curve st /\
  (if Qltb 0 (Run.peak_capital st)
   then max_drawdown_pct r
        = Run.max_drawdown st / Run.peak_capital st * 100
   else max_drawdown_pct r = 100) /\
  (if (0 <? Run.wins st + Run.losses st)%Z
   then actual_win_rate r
        = inject_Z (Run.wins st) / inject_Z (Run.wins st + Run.losses st)
   else actual_win_rate r = 0) /\
  (exists peak,
      py_get (Run.equity_curve st) 0 = inr peak /\
      drawdown_loop peak (Run.equity_curve st) = inr (drawdown_curve r)).
Proof.
  unfold final_metrics.
  destruct (Qltb 0 (Run.peak_capital st)) eqn:Epk.
  - apply Qltb_true in Epk.
    rewrite (py_div_ok _ _ (Qpos_nonzero _ Epk)). cbn [bind ret].
    destruct (0 <? Run.wins st + Run.losses st)%Z eqn:Ew.
    + destruct (py_div (inject_Z (Run.wins st)) _) as [e|wr] eqn:Ewr;
        cbn [bind]; [discriminate|].
      unfold py_div in Ewr. destruct (Qeq_bool _ 0); [discriminate|].
      injection Ewr as <-.
      destruct (if Qltb 0 (Run.gross_loss st) then _ else _) as [e|pf];
        cbn [bind]; [discriminate|].
      destruct (py_get (Run.equity_curve st) 0) as [e|peak]; cbn [bind];
        [discriminate|].
      destruct (drawdown_loop peak (Run.equity_curve st)) as [e|dds] eqn:Ed;
        cbn [bind ret]; [discriminate|].
      intros H. injection H as <-. cbn. repeat split. now exists peak.
    + cbn [bind ret].
      destruct (if Qltb 0 (Run.gross_loss st) then _ else _) as [e|pf];
        cbn [bind]; [discriminate|].
      destruct (py_get (Run.equity_curve st) 0) as [e|peak]; cbn [bind];
        [discriminate|].
      destruct (drawdown_loop peak (Run.equity_curve st)) as [e|dds] eqn:Ed;
        cbn [bind ret]; [discriminate|].
      intros H. injection H as <-. cbn. repeat split. now exists peak.
  - cbn [bind ret].
    destruct (0 <? Run.wins st + Run.losses st)%Z eqn:Ew.
    + destruct (py_div (inject_Z (Run.wins st)) _) as [e|wr] eqn:Ewr;
        cbn [bind]; [discriminate|].
      unfold py_div in Ewr. destruct (Qeq_bool _ 0); [discriminate|].
      injection Ewr as <-.
      destruct (if Qltb 0 (Run.gross_loss st) then _ else _) as [e|pf];
        cbn [bind]; [discriminate|].
      destruct (py_get (Run.equity_curve st) 0) as [e|peak]; cbn [bind];
        [discriminate|].
      destruct (drawdown_loop peak (Run.equity_curve st)) as [e|dds] eqn:Ed;
        cbn [bind ret]; [discriminate|].
      intros H. injection H as <-. cbn. repeat split. now exists peak.
    + cbn [bind ret].
      destruct (if Qltb 0 (Run.gross_loss st) then _ else _) as [e|pf];
        cbn [bind]; [discriminate|].
      destruct (py_get (Run.equity_curve st) 0) as [e|peak]; cbn [bind];
        [discriminate|].
      destruct (drawdown_loop peak (Run.equity_curve st)) as [e|dds] eqn:Ed;
        cbn [bind ret]; [discriminate|].
      intros H. injection H as <-. cbn. repeat split. now exists peak.
Qed.

(** ** Counters, streaks and win rate *)

Lemma counters_ok_step (cfg : SimulationConfig) (stats : TradeStats)
  (st : Run.vars) (g : generator) (st' : Run.vars) (b : bool) (g' : generator) :
  counters_ok st ->
  loop_body cfg stats st g = inr (st', b, g') ->
  counters_ok st'.
Proof.
  intros (Hw & Hl & Hlw & Hll & Hw1 & Hl1 & Hcur) Hb.
  destruct (loop_body_fields _ _ _ _ _ _ _ Hb)
    as (pnl & w & _ & _ & _ & Ew & El & Ec & Elw & Ell & Elast & _).
  unfold counters_ok. rewrite Ew, El, Ec, Elw, Ell, Elast.
  unfold track_metrics.
  destruct w; cbn [Run.wins Run.losses Run.current_streak
                   Run.longest_win_streak Run.longest_loss_streak
                   Run.last_trade_won];
    destruct (Run.last_trade_won st) as [[|]|]; cbn [won_is Bool.eqb];
    repeat split; lia.
Qed.

Lemma trade_loop_counts (cfg : SimulationConfig) (stats : TradeStats)
  (n : nat) (st : Run.vars) (g : generator) (st' : Run.vars) (g' : generator) :
  trade_loop cfg stats n st g = inr (st', g') ->
  (Run.wins st + Run.losses st <= Run.wins st' + Run.losses st'
   <= Run.wins st + Run.losses st + Z.of_nat n)%Z.
Proof.
  revert st g. induction n as [|n IH]; intros st g H; cbn [trade_loop] in H.
  - injection H as <- <-. lia.
  - destruct (loop_body cfg stats st g) as [e|[[st1 b] g1]] eqn:E;
      cbn [bind] in H; [discriminate|].
    destruct (loop_body_fields _ _ _ _ _ _ _ E)
      as (pnl & w & _ & _ & _ & Ew & El & _).
    assert (Hone : (Run.wins st1 + Run.losses st1
                    = Run.wins st + Run.losses st + 1)%Z).
    { rewrite Ew, El. unfold track_metrics.
      destruct w; cbn [Run.wins Run.losses]; lia. }
    destruct b.
    + injection H as <- <-. lia.
    + apply IH in H. lia.
Qed.

Lemma initial_counters_ok (cfg : SimulationConfig) :
  counters_ok (initial_vars cfg).
Proof. unfold counters_ok. cbn. repeat split; lia. Qed.

(** Every returned trajectory: each longest streak lies between 0 and the
    number of trades of its kind and is at least 1 when there is such a
    trade; the two longest streaks together do not exceed the trades
    executed, which do not exceed the configured trade count. *)
Theorem streaks_within_counts (cfg : SimulationConfig) (stats : TradeStats)
  (g : generator) (r : SimulationResult) (g' : generator) :
  _run_single_simulation cfg stats g = inr (r, g') ->
  (0 <= longest_win_streak r <= total_wins r)%Z /\
  (0 <= longest_loss_streak r <= total_losses r)%Z /\
  (0 < total_wins r -> 1 <= longest_win_streak r)%Z /\
  (0 < total_losses r -> 1 <= longest_loss_streak r)%Z /\
  (longest_win_streak r + longest_loss_streak r
   <= total_wins r + total_losses r)%Z /\
  (total_wins r + total_losses r <= Z.of_nat (num_trades cfg))%Z.
Proof.
  intros Hrun.
  destruct (run_single_inv _ _ _ _ _ Hrun) as (st & Hloop & Hfin).
  destruct (final_metrics_fields _ _ _ Hfin)
    as (_ & _ & _ & -> & -> & -> & -> & _).
  pose proof (trade_loop_invariant cfg stats counters_ok
                (fun s gs s' b gs' => counters_ok_step cfg stats s gs s' b gs')
                _ _ _ _ _ (initial_counters_ok cfg) Hloop)
    as (Hw & Hl & Hlw & Hll & Hw1 & Hl1 & _).
  pose proof (trade_loop_counts _ _ _ _ _ _ _ Hloop) as Hcnt.
  cbn [initial_vars Run.wins Run.losses] in Hcnt.
  repeat split; try lia; assumption.
Qed.

Lemma streaks_within_counts_witness :
  exists r g',
    _run_single_simulation (all_in_config 3) default_stats (one_loss 5)
      = inr (r, g') /\
    (0 <= longest_win_streak r <= total_wins r)%Z /\
    (0 <= longest_loss_streak r <= total_losses r)%Z.
Proof.
  destruct (_run_single_simulation (all_in_config 3) default_stats
              (one_loss 5)) as [e|[r g']] eqn:E.
  - exfalso. vm_compute in E. discriminate E.
  - exists r, g'. split; [reflexivity|].
    destruct (streaks_within_counts _ _ _ _ _ E) as (H1 & H2 & _).
    split; assumption.
Defined.

(** Every returned trajectory: the realised win rate is between 0 and 1;
    it is 0 exactly when there is no win, and 1 exactly when there is a win
    and no loss. *)
Theorem win_rate_between_zero_and_one (cfg : SimulationConfig)
  (stats : TradeStats) (g : generator) (r : SimulationResult)
  (g' : generator) :
  _run_single_simulation cfg stats g = inr (r, g') ->
  0 <= actual_win_rate r /\ actual_win_rate r <= 1 /\
  (actual_win_rate r == 0 <-> total_wins r = 0%Z) /\
  (actual_win_rate r == 1 <-> (0 < total_wins r)%Z /\ total_losses r = 0%Z).
Proof.
  intros Hrun.
  destruct (run_single_inv _ _ _ _ _ Hrun) as (st & Hloop & Hfin).
  destruct (final_metrics_fields _ _ _ Hfin)
    as (_ & _ & _ & _ & _ & -> & -> & _ & _ & Hrate & _).
  pose proof (trade_loop_invariant cfg stats counters_ok
                (fun s gs s' b gs' => counters_ok_step cfg stats s gs s' b gs')
                _ _ _ _ _ (initial_counters_ok cfg) Hloop)
    as (Hw & Hl & _).
  destruct (0 <? Run.wins st + Run.losses st)%Z eqn:E.
  - apply Z.ltb_lt in E. rewrite Hrate.
    set (w := Run.wins st) in *. set (l := Run.losses st) in *.
    assert (Hpos : 0 < inject_Z (w + l))
      by (change 0 with (inject_Z 0); now rewrite <- Zlt_Qlt).
    assert (Hw' : 0 <= inject_Z w)
      by (change 0 with (inject_Z 0); now rewrite <- Zle_Qle).
    assert (Hle : inject_Z w <= inject_Z (w + l))
      by (rewrite <- Zle_Qle; lia).
    assert (Hmul : inject_Z w / inject_Z (w + l) * inject_Z (w + l)
                   == inject_Z w)
      by (field; now apply Qpos_nonzero).
    split; [|split; [|split]].
    + apply Qle_shift_div_l; [exact Hpos|]. now rewrite Qmult_0_l.
    + apply Qle_shift_div_r; [exact Hpos|]. now rewrite Qmult_1_l.
    + split.
      * intros Hz. rewrite Hz, Qmult_0_l in Hmul.
        symmetry in Hmul. change 0 with (inject_Z 0) in Hmul.
        exact (proj1 (inject_Z_injective _ _) Hmul).
      * intros ->. reflexivity.
    + split.
      * intros H1. rewrite H1, Qmult_1_l in Hmul.
        apply (proj1 (inject_Z_injective _ _)) in Hmul. lia.
      * intros (_ & Hl0). rewrite Hl0, Z.add_0_r.
        field. rewrite Hl0, Z.add_0_r in Hpos. now apply Qpos_nonzero.
  - apply Z.ltb_ge in E. rewrite Hrate.
    assert (Hz : Run.wins st = 0%Z) by lia.
    rewrite Hz. split; [discriminate|]. split; [discriminate|].
    split; [split; reflexivity|].
    split; [discriminate|]. intros (H & _). discriminate H.
Qed.

Lemma win_rate_between_zero_and_one_witness :
  exists r g',
    _run_single_simulation scenario_a_config default_stats (one_win 10)
      = inr (r, g') /\
    0 <= actual_win_rate r /\ actual_win_rate r <= 1.
Proof.
  destruct (_run_single_simulation scenario_a_config default_stats
              (one_win 10)) as [e|[r g']] eqn:E.
  - exfalso. vm_compute in E. discriminate E.
  - exists r, g'. split; [reflexivity|].
    destruct (win_rate_between_zero_and_one _ _ _ _ _ E) as (H0 & H1 & _).
    split; [exact H0|exact H1].
Defined.

(** ** Drawdown *)

Lemma share_of_peak (p e : Q) :
  0 < p ->
  exists t, (p - e) / p * 100 == 100 - t * 100 /\ t * p == e.
Proof.
  intros Hp. exists (e / p). split; field; now apply Qpos_nonzero.
Qed.

Lemma ratio_bounds (p e : Q) :
  0 < p -> e <= p ->
  0 <= (p - e) / p * 100 /\
  (0 < e -> (p - e) / p * 100 < 100) /\
  (e <= 0 -> 100 <= (p - e) / p * 100) /\
  (e == 0 -> (p - e) / p * 100 == 100).
Proof.
  intros Hp He. destruct (share_of_peak p e Hp) as (t & -> & Ht).
  repeat split.
  - nra.
  - intros H. nra.
  - intros H. nra.
  - intros H. assert (t == 0) by nra. lra.
Qed.

Lemma py_max_spec (a b : Q) :
  (a < b /\ py_max a b = b) \/ (b <= a /\ py_max a b = a).
Proof.
  unfold py_max. destruct (Qltb a b) eqn:E.
  - left. split; [now apply Qltb_true|reflexivity].
  - right. split; [now apply Qltb_false|reflexivity].
Qed.

Lemma drawdown_step (cfg : SimulationConfig) (stats : TradeStats)
  (st : Run.vars) (g : generator) (st' : Run.vars) (b : bool) (g' : generator) :
  0 < Run.capital st -> drawdown_below_peak st ->
  loop_body cfg stats st g = inr (st', b, g') ->
  if b
  then Run.capital st' = 0 /\ 0 < Run.peak_capital st' /\
       Run.peak_capital st' <= Run.max_drawdown st'
  else drawdown_below_peak st'.
Proof.
  intros Hc (Hmd0 & Hmd) Hb.
  destruct (loop_body_fields _ _ _ _ _ _ _ Hb)
    as (pnl & w & _ & Eb & Ecap & _ & _ & _ & _ & _ & _ & Epk & Emd).
  set (c := Run.capital st + pnl) in *.
  unfold drawdown_below_peak. rewrite Epk, Emd.
  destruct (Qltb (Run.peak_capital st) c) eqn:Ep;
    [apply Qltb_true in Ep|apply Qltb_false in Ep];
    destruct b; symmetry in Eb;
    [apply Qle_bool_iff in Eb|apply Qle_bool_false in Eb
    |apply Qle_bool_iff in Eb|apply Qle_bool_false in Eb].
  - lra.
  - destruct (py_max_spec (Run.max_drawdown st) (c - c)) as [[H ->]|[H ->]];
      lra.
  - split; [exact Ecap|]. split; [lra|].
    destruct (py_max_spec (Run.max_drawdown st) (Run.peak_capital st - c))
      as [[H ->]|[H ->]]; lra.
  - destruct (py_max_spec (Run.max_drawdown st) (Run.peak_capital st - c))
      as [[H ->]|[H ->]]; lra.
Qed.

Lemma outcome_drawdown (cfg : SimulationConfig) (stats : TradeStats)
  (n : nat) (st : Run.vars) (g : generator) (st' : Run.vars) (g' : generator) :
  ~ initial_capital cfg == 0 -> running st -> drawdown_below_peak st ->
  outcome cfg stats n st g st' g' ->
  (running st' /\ drawdown_below_peak st') \/
  (Run.capital st' = 0 /\ 0 < Run.peak_capital st' /\
   Run.peak_capital st' <= Run.max_drawdown st').
Proof.
  intros H0 Hrun Hdd Hout.
  induction Hout as [st g|n st g st' g' Hb|n st g st1 g1 st' g' Hb Hout IH].
  - left. split; assumption.
  - right.
    exact (drawdown_step _ _ _ _ _ _ _ (running_capital _ Hrun) Hdd Hb).
  - apply IH.
    + eapply loop_body_running; eauto.
    + exact (drawdown_step _ _ _ _ _ _ _ (running_capital _ Hrun) Hdd Hb).
Qed.

(** With a positive initial capital the absolute drawdown is never
    negative, and the reported drawdown percentage is between 0 and 100 for
    a trajectory that is not ruined and at least 100 for a ruined one (the
    ruining trade takes capital to or below zero before it is clamped). *)
Theorem max_drawdown_pct_range (cfg : SimulationConfig)
  (stats : TradeStats) (g : generator) :
  0 < initial_capital cfg ->
  exists r g',
    _run_single_simulation cfg stats g = inr (r, g') /\
    0 <= max_drawdown r /\
    ((0 < final_capital r /\
      0 <= max_drawdown_pct r /\ max_drawdown_pct r <= 100) \/
     (final_capital r = 0 /\ 100 <= max_drawdown_pct r)).
Proof.
  intros Hpos.
  pose proof (Qpos_nonzero _ Hpos) as H0.
  pose proof (initial_vars_running cfg Hpos) as Hrun.
  destruct (run_single_ok cfg stats g Hpos)
    as (st & r & g' & Hloop & Hr & _).
  exists r, g'. split; [exact Hr|].
  destruct (run_single_inv _ _ _ _ _ Hr) as (st0 & Hloop0 & Hfin).
  rewrite Hloop in Hloop0. injection Hloop0 as <-.
  destruct (final_metrics_fields _ _ _ Hfin)
    as (-> & _ & -> & _ & _ & _ & _ & _ & Hpct & _).
  assert (Hinit : drawdown_below_peak (initial_vars cfg))
    by (split; cbn; [discriminate|exact Hpos]).
  destruct (outcome_drawdown _ _ _ _ _ _ _ H0 Hrun Hinit
              (trade_loop_outcome _ _ _ _ _ _ _ Hloop))
    as [[Hr' (Hmd0 & Hmd)]|(Hz & Hpk & Hmd)].
  - assert (Hpk : 0 < Run.peak_capital st) by lra.
    apply Qltb_true in Hpk. rewrite Hpk in Hpct. apply Qltb_true in Hpk.
    split; [exact Hmd0|]. left.
    split; [exact (running_capital _ Hr')|]. rewrite Hpct.
    destruct (ratio_bounds (Run.peak_capital st)
                (Run.peak_capital st - Run.max_drawdown st) Hpk)
      as (_ & Hlt & _); [lra|].
    assert (E : (Run.peak_capital st
                 - (Run.peak_capital st - Run.max_drawdown st))
                / Run.peak_capital st * 100
                == Run.max_drawdown st / Run.peak_capital st * 100)
      by (field; now apply Qpos_nonzero).
    rewrite E in Hlt. split; [|apply Qlt_le_weak; apply Hlt; lra].
    apply Qmult_le_0_compat; [|discriminate].
    apply Qle_shift_div_l; [exact Hpk|]. now rewrite Qmult_0_l.
  - pose proof Hpk as Hpk'. apply Qltb_true in Hpk'. rewrite Hpk' in Hpct.
    split; [lra|]. right. split; [exact Hz|]. rewrite Hpct.
    destruct (ratio_bounds (Run.peak_capital st)
                (Run.peak_capital st - Run.max_drawdown st) Hpk)
      as (_ & _ & Hge & _); [lra|].
    assert (E : (Run.peak_capital st
                 - (Run.peak_capital st - Run.max_drawdown st))
                / Run.peak_capital st * 100
                == Run.max_drawdown st / Run.peak_capital st * 100)
      by (field; now apply Qpos_nonzero).
    rewrite E in Hge. apply Hge. lra.
Qed.

Lemma max_drawdown_pct_range_witness :
  exists r g',
    _run_single_simulation (all_in_config 3) default_stats (one_loss 20)
      = inr (r, g') /\
    0 <= max_drawdown r /\
    ((0 < final_capital r /\
      0 <= max_drawdown_pct r /\ max_drawdown_pct r <= 100) \/
     (final_capital r = 0 /\ 100 <= max_drawdown_pct r)).
Proof.
  apply (max_drawdown_pct_range (all_in_config 3) default_stats
           (one_loss 20)).
  reflexivity.
Defined.

(** ** The drawdown curve *)

Lemma drawdown_loop_cons (peak e : Q) (rest dds : list Q) :
  drawdown_loop peak (e :: rest) = inr dds ->
  exists d ds,
    dds = d :: ds /\
    drawdown_loop (if Qltb peak e then e else peak) rest = inr ds /\
    (if Qltb 0 (if Qltb peak e then e else peak)
     then d = ((if Qltb peak e then e else peak) - e)
              / (if Qltb peak e then e else peak) * 100
     else d = 0).
Proof.
  cbn [drawdown_loop]. set (p := if Qltb peak e then e else peak).
  destruct (Qltb 0 p) eqn:E.
  - unfold py_div. destruct (Qeq_bool p 0); cbn [bind raise ret];
      [discriminate|].
    destruct (drawdown_loop p rest) as [x|ds]; cbn [bind ret];
      [discriminate|].
    intros H. injection H as <-. now exists ((p - e) / p * 100), ds.
  - cbn [bind ret].
    destruct (drawdown_loop p rest) as [x|ds]; cbn [bind ret];
      [discriminate|].
    intros H. injection H as <-. now exists 0, ds.
Qed.

Lemma running_peak_above (peak e : Q) :
  e <= (if Qltb peak e then e else peak) /\
  peak <= (if Qltb peak e then e else peak).
Proof.
  destruct (Qltb peak e) eqn:E;
    [apply Qltb_true in E|apply Qltb_false in E]; lra.
Qed.

(** Entry by entry: a drawdown is never negative, and it is below 100 at
    a positive equity. *)
Lemma drawdown_loop_bounds (peak : Q) (curve dds : list Q) :
  drawdown_loop peak curve = inr dds ->
  Forall2 (fun e d => 0 <= d /\ (0 < e -> d < 100)) curve dds.
Proof.
  revert peak dds. induction curve as [|e rest IH]; intros peak dds H.
  - cbn in H. injection H as <-. constructor.
  - destruct (drawdown_loop_cons _ _ _ _ H) as (d & ds & -> & Hrest & Hd).
    constructor; [|now apply IH in Hrest].
    destruct (running_peak_above peak e) as (He & _).
    set (p := if Qltb peak e then e else peak) in *.
    destruct (Qltb 0 p) eqn:E.
    + apply Qltb_true in E. rewrite Hd.
      destruct (ratio_bounds p e E He) as (H1 & H2 & _). split; assumption.
    + rewrite Hd. split; [discriminate|]. intros _. reflexivity.
Qed.

(** On a curve that ends in a zero entry, under a positive running peak,
    the drawdown curve ends in 100. *)
Lemma drawdown_loop_last (peak : Q) (pre : list Q) (z : Q) (dds : list Q) :
  0 < peak -> z == 0 ->
  drawdown_loop peak (pre ++ [z]) = inr dds ->
  exists dpre d, dds = dpre ++ [d] /\ d == 100.
Proof.
  revert peak dds. induction pre as [|e pre IH]; intros peak dds Hp Hz H.
  - cbn [app] in H.
    destruct (drawdown_loop_cons _ _ _ _ H) as (d & ds & -> & Hrest & Hd).
    cbn in Hrest. injection Hrest as <-.
    destruct (running_peak_above peak z) as (He & Hpk).
    set (p := if Qltb peak z then z else peak) in *.
    assert (Hp' : 0 < p) by lra.
    pose proof Hp' as E. apply Qltb_true in E. rewrite E in Hd.
    exists [], d. split; [reflexivity|]. rewrite Hd.
    now apply (ratio_bounds p z Hp' He).
  - cbn [app] in H.
    destruct (drawdown_loop_cons _ _ _ _ H) as (d & ds & -> & Hrest & _).
    destruct (running_peak_above peak e) as (_ & Hpk).
    apply IH in Hrest; [|lra|exact Hz].
    destruct Hrest as (dpre & d' & -> & Hd').
    now exists (d :: dpre), d'.
Qed.

(** With a positive initial capital: every entry of the drawdown curve is
    non-negative and the first one is 0; no entry is above 100 when the
    trajectory is not ruined, and the last entry is 100 when it is. *)
Theorem drawdown_curve_bounds (cfg : SimulationConfig) (stats : TradeStats)
  (g : generator) :
  0 < initial_capital cfg ->
  exists r g',
    _run_single_simulation cfg stats g = inr (r, g') /\
    Forall (fun d => 0 <= d) (drawdown_curve r) /\
    (exists d rest, drawdown_curve r = d :: rest /\ d == 0) /\
    ((0 < final_capital r /\ Forall (fun d => d <= 100) (drawdown_curve r)) \/
     (final_capital r = 0 /\
      exists pre d, drawdown_curve r = pre ++ [d] /\ d == 100)).
Proof.
  intros Hpos.
  destruct (run_single_ok cfg stats g Hpos)
    as (st & r & g' & Hloop & Hr & Hshape & Hfc & _).
  exists r, g'. split; [exact Hr|].
  destruct (run_single_inv _ _ _ _ _ Hr) as (st0 & Hloop0 & Hfin).
  rewrite Hloop in Hloop0. injection Hloop0 as <-.
  destruct (final_metrics_fields _ _ _ Hfin)
    as (_ & _ & _ & _ & _ & _ & _ & _ & _ & _ & (peak & Hpk & Hdd)).
  pose proof (drawdown_loop_bounds _ _ _ Hdd) as Hb.
  assert (Hfirst : exists rest,
             Run.equity_curve st = initial_capital cfg :: rest).
  { destruct Hshape as [mid _ He _ _|mid c He _ _ _ _ _]; rewrite He;
      cbn [initial_vars Run.equity_curve app]; eexists; reflexivity. }
  destruct Hfirst as (rest & Hec). rewrite Hec in Hpk, Hdd, Hb.
  rewrite py_get_first in Hpk. injection Hpk as <-.
  split; [|split].
  - clear - Hb. induction Hb as [|e d l l' (H & _) _ IH];
      constructor; assumption.
  - destruct (drawdown_loop_cons _ _ _ _ Hdd) as (d & ds & Hd & _ & Hval).
    exists d, ds. split; [exact Hd|].
    assert (E : (if Qltb (initial_capital cfg) (initial_capital cfg)
                 then initial_capital cfg else initial_capital cfg)
                = initial_capital cfg).
    { destruct (Qltb (initial_capital cfg) (initial_capital cfg));
        reflexivity. }
    rewrite E in Hval. pose proof Hpos as Hp. apply Qltb_true in Hp.
    rewrite Hp in Hval. rewrite Hval. field. now apply Qpos_nonzero.
  - rewrite Hfc.
    destruct Hshape as [mid [Hc _ Hall _] He _ _|mid c He _ _ Hz _ _].
    + left. split; [exact Hc|]. rewrite Hec in Hall. clear - Hb Hall.
      induction Hb as [|e d l l' (_ & H) _ IH]; [constructor|].
      inversion Hall; subst. constructor; [apply Qlt_le_weak|]; auto.
    + right. split; [exact Hz|].
      cbn [initial_vars Run.equity_curve] in He.
      rewrite Hec in He. cbn [app] in He. injection He as ->.
      replace (initial_capital cfg :: mid ++ [c; 0])
        with ((initial_capital cfg :: mid ++ [c]) ++ [0]) in Hdd
        by (cbn [app]; rewrite <- app_assoc; reflexivity).
      apply drawdown_loop_last in Hdd; [exact Hdd|exact Hpos|reflexivity].
Qed.

Lemma drawdown_curve_bounds_witness :
  exists r g',
    _run_single_simulation (all_in_config 3) default_stats (one_loss 20)
      = inr (r, g') /\
    Forall (fun d => 0 <= d) (drawdown_curve r) /\
    (exists d rest, drawdown_curve r = d :: rest /\ d == 0) /\
    ((0 < final_capital r /\ Forall (fun d => d <= 100) (drawdown_curve r)) \/
     (final_capital r = 0 /\
      exists pre d, drawdown_curve r = pre ++ [d] /\ d == 100)).
Proof.
  apply (drawdown_curve_bounds (all_in_config 3) default_stats (one_loss 20)).
  reflexivity.
Defined.

(** ** Edge cases of a trajectory *)

(** With a trade count of 0 the trajectory returns for every initial
    capital, leaves the generator untouched and reports the initial capital
    as final capital, no PnL, no trade, a win rate of 0, an infinite profit
    factor and one-entry curves; the drawdown percentage is 0 for a positive
    initial capital and 100 otherwise. *)
Theorem no_trades_result (cfg : SimulationConfig) (stats : TradeStats)
  (g : generator) :
  num_trades cfg = O ->
  exists r,
    _run_single_simulation cfg stats g = inr (r, g) /\
    final_capital r = initial_capital cfg /\
    total_pnl r == 0 /\
    equity_curve r = [initial_capital cfg] /\
    (exists d, drawdown_curve r = [d] /\ d == 0) /\
    total_wins r = 0%Z /\ total_losses r = 0%Z /\
    actual_win_rate r = 0 /\
    profit_factor r = infinity /\
    max_drawdown r = 0 /\
    (0 < initial_capital cfg -> max_drawdown_pct r == 0) /\
    (initial_capital cfg <= 0 -> max_drawdown_pct r = 100).
Proof.
  intros HN. unfold _run_single_simulation. rewrite HN.
  cbn [trade_loop ret bind]. unfold final_metrics.
  cbn [initial_vars Run.capital Run.equity_curve Run.peak_capital
       Run.max_drawdown Run.wins Run.losses Run.longest_win_streak
       Run.longest_loss_streak Run.gross_profit Run.gross_loss].
  rewrite py_get_first. cbn [drawdown_loop].
  change (0 <? 0 + 0)%Z with false. change (Qltb 0 0) with false.
  assert (Hself : (if Qltb (initial_capital cfg) (initial_capital cfg)
                   then initial_capital cfg else initial_capital cfg)
                  = initial_capital cfg).
  { destruct (Qltb (initial_capital cfg) (initial_capital cfg));
      reflexivity. }
  destruct (Qltb 0 (initial_capital cfg)) eqn:E.
  - apply Qltb_true in E.
    rewrite py_div_ok by now apply Qpos_nonzero.
    cbn [bind ret]. rewrite Hself.
    pose proof E as E'. apply Qltb_true in E'. rewrite E'.
    rewrite py_div_ok by now apply Qpos_nonzero.
    cbn [bind ret]. eexists. split; [reflexivity|].
    cbn [final_capital total_pnl equity_curve drawdown_curve total_wins
         total_losses actual_win_rate profit_factor max_drawdown
         max_drawdown_pct].
    repeat split; try reflexivity; try ring.
    + eexists. split; [reflexivity|]. field. now apply Qpos_nonzero.
    + intros H. lra.
  - cbn [bind ret]. rewrite Hself. rewrite E. cbn [bind ret].
    apply Qltb_false in E.
    eexists. split; [reflexivity|].
    cbn [final_capital total_pnl equity_curve drawdown_curve total_wins
         total_losses actual_win_rate profit_factor max_drawdown
         max_drawdown_pct].
    repeat split; try reflexivity; try ring.
    + eexists. split; reflexivity.
    + intros H. lra.
Qed.

Lemma no_trades_result_witness :
  exists r,
    _run_single_simulation (all_in_config 0) default_stats (one_loss 5)
      = inr (r, one_loss 5) /\
    final_capital r = 10 /\ equity_curve r = [10].
Proof.
  destruct (no_trades_result (all_in_config 0) default_stats (one_loss 5)
              eq_refl) as (r & Hr & Hfc & _ & Hec & _).
  exists r. repeat split; assumption.
Defined.

(** With an initial capital of 0 and at least one simulation of at least
    one trade, the whole run raises [ZeroDivisionError]: the first trade
    divides its position size by the initial capital. *)
Theorem zero_capital_run_raises (cfg : SimulationConfig) (stats : TradeStats)
  (g : generator) :
  initial_capital cfg == 0 ->
  (0 < num_trades cfg)%nat -> (0 < num_simulations cfg)%nat ->
  _run_single_simulation cfg stats g = inl ZeroDivisionError /\
  run_simulation cfg stats g = inl ZeroDivisionError.
Proof.
  intros Hz HN HM.
  pose proof (zero_capital_raises cfg stats g Hz HN) as Hr.
  split; [exact Hr|].
  unfold run_simulation. destruct (num_simulations cfg) as [|m]; [lia|].
  cbn [simulate_all]. rewrite Hr. reflexivity.
Qed.

Lemma zero_capital_run_raises_witness :
  run_simulation
    {| num_simulations := 1; num_trades := 1;
       initial_capital := 0; use_compounding := true;
       high_conf_kelly := 0.146; medium_conf_kelly := 0.110;
       low_conf_kelly := 0.055;
       max_position_pct := 0.20; max_total_exposure := 1.50;
       correlation_reduction := 0.30;
       slippage_pct := 0.005; commission_pct := 0.001 |}
    default_stats (one_win 10)
  = inl ZeroDivisionError.
Proof.
  apply zero_capital_run_raises.
  - reflexivity.
  - cbn. apply Nat.lt_0_succ.
  - cbn. apply Nat.lt_0_succ.
Defined.

(** ** Transaction costs *)

(** The win flag of a trade is decided by the first number drawn against
    the table of the confidence level. With non-negative cost rates and a
    non-negative draw [x], the PnL after costs is never above the signed
    draw ([x] for a winner, [- x] for a loser), so a loser's PnL is never
    positive. *)
Theorem costs_shrink_wins_deepen_losses (cfg : SimulationConfig)
  (c : confidence) (g : generator) :
  0 <= g 1%nat ->
  0 <= slippage_pct cfg -> 0 <= commission_pct cfg ->
  let pnl := fst (fst (_simulate_single_trade cfg c g)) in
  let is_winner := snd (fst (_simulate_single_trade cfg c g)) in
  is_winner = Qltb (g O) (_get_win_rate_by_confidence c) /\
  pnl <= (if is_winner then g 1%nat else - g 1%nat) /\
  (is_winner = false -> pnl <= 0).
Proof.
  intros Hx Hs Hc. cbv zeta.
  unfold _simulate_single_trade, np_random.random, np_random.lognormal.
  cbv beta iota zeta. cbn [fst snd]. unfold advance.
  set (x := g 1%nat) in *.
  destruct (Qltb (g O) (_get_win_rate_by_confidence c)).
  - rewrite (Qabs_pos x Hx). split; [reflexivity|]. split; [nra|].
    discriminate.
  - assert (Hn : - x <= 0) by lra.
    rewrite (Qabs_neg (- x) Hn). split; [reflexivity|]. split; nra.
Qed.

Lemma costs_shrink_wins_deepen_losses_witness :
  fst (fst (_simulate_single_trade default_config HIGH (replay [0.1; 10])))
  <= 10.
Proof.
  apply (costs_shrink_wins_deepen_losses default_config HIGH
           (replay [0.1; 10])); discriminate.
Defined.

(** ** Statistics the simulator never reads *)

Lemma draw_trade_same_inputs (cfg : SimulationConfig) (s1 s2 : TradeStats)
  (capital : Q) (g : generator) :
  same_simulation_inputs s1 s2 ->
  draw_trade cfg s1 capital g = draw_trade cfg s2 capital g.
Proof.
  intros (_ & _ & Hh & Hm).
  unfold draw_trade, _generate_confidence_level. now rewrite Hh, Hm.
Qed.

Lemma trade_loop_same_inputs (cfg : SimulationConfig) (s1 s2 : TradeStats)
  (n : nat) (st : Run.vars) (g : generator) :
  same_simulation_inputs s1 s2 ->
  trade_loop cfg s1 n st g = trade_loop cfg s2 n st g.
Proof.
  intros Hs. revert st g. induction n as [|n IH]; intros st g;
    cbn [trade_loop]; [reflexivity|].
  unfold loop_body. rewrite (draw_trade_same_inputs cfg s1 s2 _ g Hs).
  destruct (draw_trade cfg s2 (Run.capital st) g) as [e|[[pnl w] g1]];
    cbn [bind]; [reflexivity|].
  cbv beta iota zeta.
  destruct (trade_return _ _) as [e|rets]; cbn [bind ret]; [reflexivity|].
  destruct (Qle_bool (Run.capital st + pnl) 0); [reflexivity|apply IH].
Qed.

Lemma simulate_all_same_inputs (cfg : SimulationConfig) (s1 s2 : TradeStats)
  (m : nat) (results : list SimulationResult) (g : generator) :
  same_simulation_inputs s1 s2 ->
  simulate_all cfg s1 m results g = simulate_all cfg s2 m results g.
Proof.
  intros Hs. revert results g. induction m as [|m IH]; intros results g;
    cbn [simulate_all]; [reflexivity|].
  unfold _run_single_simulation.
  rewrite (trade_loop_same_inputs cfg s1 s2 _ _ g Hs).
  destruct (trade_loop cfg s2 (num_trades cfg) (initial_vars cfg) g)
    as [e|[st g1]]; cbn [bind]; [reflexivity|].
  destruct (final_metrics cfg st) as [e|r]; cbn [bind ret]; [reflexivity|].
  apply IH.
Qed.

(** The run reads only [high_conf_pct] and [medium_conf_pct] of the
    statistics (and [avg_win], [avg_loss] for the log-normal draw): two
    statistics records that agree on these give the same run from the same
    generator, whatever their [win_rate]. A stress scenario that only
    lowers [win_rate] therefore reruns the unchanged simulation. *)
Theorem win_rate_is_not_read (cfg : SimulationConfig) (s1 s2 : TradeStats)
  (g : generator) :
  same_simulation_inputs s1 s2 ->
  run_simulation cfg s1 g = run_simulation cfg s2 g.
Proof.
  intros Hs. unfold run_simulation.
  now rewrite (simulate_all_same_inputs cfg s1 s2 _ _ g Hs).
Qed.

Lemma win_rate_is_not_read_witness :
  run_simulation scenario_a_config default_stats (one_win 10)
  = run_simulation scenario_a_config
      {| win_rate := 0.50; avg_win := 6.88; avg_loss := 1.57;
         total_trades := 35; wins := 19; losses := 16;
         high_conf_trades := 24; high_conf_pnl := 93.90;
         medium_conf_trades := 10; medium_conf_pnl := 11.16;
         low_conf_trades := 1; low_conf_pnl := 0.50;
         high_conf_pct := 0.67; medium_conf_pct := 0.31;
         low_conf_pct := 0.02 |}
      (one_win 10).
Proof.
  apply win_rate_is_not_read. repeat split.
Defined.

(** * Further properties of the aggregation *)

(** ** The summaries of a non-empty result set *)

Lemma analyze_results_describes (cfg : SimulationConfig)
  (results : list SimulationResult) :
  results <> [] ->
  exists a,
    analyze_results cfg results = inr a /\
    describes (Analysis.final_capital a) (map final_capital results) /\
    describes (Analysis.total_pnl a) (map total_pnl results) /\
    describes (Analysis.max_drawdown_pct a) (map max_drawdown_pct results) /\
    Dist.median (Analysis.longest_loss_streak a)
      = np.median (map (fun r => inject_Z (longest_loss_streak r)) results) /\
    Dist.percentiles (Analysis.longest_loss_streak a)
      = percentile_table
          (map (fun r => inject_Z (longest_loss_streak r)) results).
Proof.
  intros Hne. unfold analyze_results.
  rewrite (py_div_ok _ (inject_Z (len (map total_pnl results))))
    by (apply len_nonzero; destruct results; [congruence|discriminate]).
  rewrite (py_div_ok _ (inject_Z (len (map final_capital results))))
    by (apply len_nonzero; destruct results; [congruence|discriminate]).
  destruct results as [|r rest]; [congruence|].
  cbn [map np.min np.max bind ret].
  eexists. split; [reflexivity|].
  unfold describes.
  cbn [Analysis.final_capital Analysis.total_pnl Analysis.max_drawdown_pct
       Analysis.longest_loss_streak Dist.mean Dist.median Dist.min Dist.max
       Dist.percentiles].
  repeat split; eexists; split; reflexivity.
Qed.

Lemma Qmin_either (a b : Q) : Qmin a b = a \/ Qmin a b = b.
Proof.
  unfold Qmin, GenericMinMax.gmin. destruct (a ?= b); auto.
Qed.

Lemma Qmax_either (a b : Q) : Qmax a b = a \/ Qmax a b = b.
Proof.
  unfold Qmax, GenericMinMax.gmax. destruct (a ?= b); auto.
Qed.

Lemma fold_min_spec (t : list Q) (x : Q) :
  fold_left Qmin t x <= x /\
  Forall (Qle (fold_left Qmin t x)) t /\
  In (fold_left Qmin t x) (x :: t).
Proof.
  revert x. induction t as [|y t IH]; intros x; cbn [fold_left].
  - split; [apply Qle_refl|]. split; [constructor|now left].
  - destruct (IH (Qmin x y)) as (H1 & H2 & H3).
    pose proof (Q.le_min_l x y) as Hl. pose proof (Q.le_min_r x y) as Hr.
    split; [lra|]. split.
    + constructor; [lra|exact H2].
    + destruct H3 as [H3|H3].
      * rewrite <- H3. destruct (Qmin_either x y) as [-> | ->];
          [now left|right; now left].
      * right. now right.
Qed.

Lemma fold_max_spec (t : list Q) (x : Q) :
  x <= fold_left Qmax t x /\
  Forall (fun y => y <= fold_left Qmax t x) t /\
  In (fold_left Qmax t x) (x :: t).
Proof.
  revert x. induction t as [|y t IH]; intros x; cbn [fold_left].
  - split; [apply Qle_refl|]. split; [constructor|now left].
  - destruct (IH (Qmax x y)) as (H1 & H2 & H3).
    pose proof (Q.le_max_l x y) as Hl. pose proof (Q.le_max_r x y) as Hr.
    split; [lra|]. split.
    + constructor; [lra|exact H2].
    + destruct H3 as [H3|H3].
      * rewrite <- H3. destruct (Qmax_either x y) as [-> | ->];
          [now left|right; now left].
      * right. now right.
Qed.

(** [np.min] and [np.max] return an element of the sample that bounds all
    the others. *)
Lemma np_min_spec (l : list Q) (lo : Q) :
  np.min l = inr lo -> In lo l /\ Forall (Qle lo) l.
Proof.
  destruct l as [|x t]; cbn [np.min]; [discriminate|].
  intros H. injection H as <-.
  destruct (fold_min_spec t x) as (H1 & H2 & H3).
  split; [exact H3|]. constructor; assumption.
Qed.

Lemma np_max_spec (l : list Q) (hi : Q) :
  np.max l = inr hi -> In hi l /\ Forall (fun y => y <= hi) l.
Proof.
  destruct l as [|x t]; cbn [np.max]; [discriminate|].
  intros H. injection H as <-.
  destruct (fold_max_spec t x) as (H1 & H2 & H3).
  split; [exact H3|]. constructor; assumption.
Qed.

Lemma insert_In (x y : Q) (s : list Q) :
  In y (np.insert x s) <-> y = x \/ In y s.
Proof.
  induction s as [|z s IH]; cbn [np.insert In].
  - intuition.
  - destruct (Qle_bool x z); cbn [In]; [intuition|].
    rewrite IH. intuition.
Qed.

Lemma sort_In (a : list Q) (y : Q) : In y (np.sort a) <-> In y a.
Proof.
  induction a as [|x a IH]; [reflexivity|].
  change (np.sort (x :: a)) with (np.insert x (np.sort a)).
  rewrite insert_In, IH. cbn [In]. intuition.
Qed.

(** The interpolated order statistic lies between two elements of the
    sample. *)
Lemma at_index_between (s : list Q) (h : Q) :
  StronglySorted Qle s -> s <> [] ->
  0 <= h -> h <= inject_Z (Z.of_nat (length s) - 1) ->
  exists x y, In x s /\ In y s /\ x <= at_index s h /\ at_index s h <= y.
Proof.
  intros Hs Hne H0 Hn.
  assert (Hlen : (0 < length s)%nat) by (destruct s; [congruence|cbn; lia]).
  assert (Hl : (0 <= Qfloor h)%Z).
  { rewrite <- (Qfloor_Z 0). apply Qfloor_resp_le. exact H0. }
  assert (Hu : (Qfloor h <= Z.of_nat (length s) - 1)%Z).
  { rewrite <- (Qfloor_Z (Z.of_nat (length s) - 1)).
    now apply Qfloor_resp_le. }
  destruct (Qfloor_fraction h) as (Hf & Hf').
  unfold at_index.
  set (i := Z.to_nat (Qfloor h)).
  set (j := Z.to_nat (Z.min (Qfloor h + 1) (Z.of_nat (length s) - 1))).
  assert (Hi : (i < length s)%nat) by (unfold i; lia).
  assert (Hj : (j < length s)%nat) by (unfold j; lia).
  assert (Hij : (i <= j)%nat) by (unfold i, j; lia).
  exists (nth i s 0), (nth j s 0).
  split; [now apply nth_In|]. split; [now apply nth_In|].
  apply lerp_bounds; [now apply sorted_nth_le|exact Hf|exact Hf'].
Qed.

Lemma percentile_between (l : list Q) (p : Z) (lo hi : Q) :
  np.min l = inr lo -> np.max l = inr hi -> In p percentiles ->
  exists v,
    dict_get (percentile_table l) p = Some (np.value v) /\
    lo <= v /\ v <= hi.
Proof.
  intros Hlo Hhi Hp.
  assert (Hne : l <> []) by (intros ->; discriminate Hlo).
  destruct (np_min_spec _ _ Hlo) as (_ & Hmin).
  destruct (np_max_spec _ _ Hhi) as (_ & Hmax).
  unfold percentile_table.
  rewrite (dict_get_map (fun k => np.percentile l (inject_Z k))) by assumption.
  rewrite percentile_at_index by assumption.
  eexists. split; [reflexivity|].
  assert (Hn : 0 <= inject_Z (len l - 1)).
  { unfold len. destruct l; [congruence|].
    change 0 with (inject_Z 0). rewrite <- Zle_Qle. cbn [length]. lia. }
  assert (Hp0 : 0 <= inject_Z p / 100 /\ inject_Z p / 100 <= 1).
  { assert (Hb : (0 <= p <= 100)%Z)
      by (unfold percentiles in Hp; cbn [In] in Hp; lia).
    destruct Hb as (Hb0 & Hb1).
    rewrite Zle_Qle in Hb0, Hb1.
    change (inject_Z 0) with 0 in Hb0. change (inject_Z 100) with 100 in Hb1.
    split.
    - apply Qle_shift_div_l; [reflexivity|]. lra.
    - apply Qle_shift_div_r; [reflexivity|]. lra. }
  destruct (at_index_between (np.sort l)
              (inject_Z (len l - 1) * (inject_Z p / 100)))
    as (x & y & Hx & Hy & Hxv & Hvy).
  - apply sort_sorted.
  - intros E. apply (f_equal (@length Q)) in E.
    rewrite sort_length in E. destruct l; [congruence|discriminate].
  - nra.
  - rewrite sort_length. fold (len l). nra.
  - apply (proj1 (sort_In _ _)) in Hx. apply (proj1 (sort_In _ _)) in Hy.
    rewrite Forall_forall in Hmin, Hmax.
    pose proof (Hmin x Hx). pose proof (Hmax y Hy). split; lra.
Qed.

(** ** Percentiles lie between minimum and maximum *)

Lemma describes_within (d : Dist.t) (l : list Q) :
  describes d l ->
  exists lo hi,
    Dist.min d = Some lo /\ Dist.max d = Some hi /\ lo <= hi /\
    (forall p, In p percentiles ->
       exists v, dict_get (Dist.percentiles d) p = Some (np.value v) /\
                 lo <= v /\ v <= hi).
Proof.
  intros (_ & _ & (lo & Hlo & Elo) & (hi & Hhi & Ehi) & Htab).
  exists lo, hi. split; [exact Elo|]. split; [exact Ehi|].
  destruct (np_min_spec _ _ Hlo) as (Hin & Hmin).
  destruct (np_max_spec _ _ Hhi) as (_ & Hmax).
  split.
  - rewrite Forall_forall in Hmax. now apply Hmax.
  - intros p Hp. rewrite Htab. now apply percentile_between.
Qed.

(** On a non-empty result set, for final capital, total PnL and drawdown
    percentage: the reported minimum is at most the reported maximum, and
    every reported percentile lies between them. *)
Theorem percentiles_within_min_and_max (cfg : SimulationConfig)
  (results : list SimulationResult) :
  results <> [] ->
  exists a,
    analyze_results cfg results = inr a /\
    forall d,
      In d [Analysis.final_capital a; Analysis.total_pnl a;
            Analysis.max_drawdown_pct a] ->
      exists lo hi,
        Dist.min d = Some lo /\ Dist.max d = Some hi /\ lo <= hi /\
        (forall p, In p percentiles ->
           exists v, dict_get (Dist.percentiles d) p = Some (np.value v) /\
                     lo <= v /\ v <= hi).
Proof.
  intros Hne.
  destruct (analyze_results_describes cfg results Hne)
    as (a & Ha & H1 & H2 & H3 & _).
  exists a. split; [exact Ha|].
  intros d Hd. cbn [In] in Hd.
  destruct Hd as [<-|[<-|[<-|[]]]]; eapply describes_within; eassumption.
Qed.

Lemma percentiles_within_min_and_max_witness :
  exists a,
    analyze_results scenario_a_config
      [{| final_capital := 1001; total_pnl := 1; max_drawdown := 0;
          max_drawdown_pct := 0; longest_win_streak := 1;
          longest_loss_streak := 0; total_wins := 1; total_losses := 0;
          actual_win_rate := 1; profit_factor := infinity;
          equity_curve := [1000; 1001]; drawdown_curve := [0; 0] |};
       {| final_capital := 999; total_pnl := -1; max_drawdown := 1;
          max_drawdown_pct := 0.1; longest_win_streak := 0;
          longest_loss_streak := 1; total_wins := 0; total_losses := 1;
          actual_win_rate := 0; profit_factor := finite 0;
          equity_curve := [1000; 999]; drawdown_curve := [0; 0.1] |}]
    = inr a /\
    exists lo hi,
      Dist.min (Analysis.final_capital a) = Some lo /\
      Dist.max (Analysis.final_capital a) = Some hi /\ lo <= hi.
Proof.
  match goal with
  | |- exists a, analyze_results ?cfg ?rs = _ /\ _ =>
      destruct (percentiles_within_min_and_max cfg rs) as (a & Ha & H);
        [discriminate|]
  end.
  exists a. split; [exact Ha|].
  destruct (H (Analysis.final_capital a)) as (lo & hi & H1 & H2 & H3 & _).
  - now left.
  - now exists lo, hi.
Defined.

(** ** The two probabilities are percentages *)

Lemma filter_length_le {A : Type} (f : A -> bool) (l : list A) :
  (length (filter f l) <= length l)%nat.
Proof.
  induction l as [|x l IH]; cbn [filter length]; [lia|].
  destruct (f x); cbn [length]; lia.
Qed.

Lemma share_is_percentage (count total : nat) :
  (count <= total)%nat -> (0 < total)%nat ->
  0 <= inject_Z (Z.of_nat count) / inject_Z (Z.of_nat total) * 100 /\
  inject_Z (Z.of_nat count) / inject_Z (Z.of_nat total) * 100 <= 100.
Proof.
  intros Hle Hpos.
  assert (Ht : 0 < inject_Z (Z.of_nat total))
    by (change 0 with (inject_Z 0); rewrite <- Zlt_Qlt; lia).
  assert (Hc : 0 <= inject_Z (Z.of_nat count))
    by (change 0 with (inject_Z 0); rewrite <- Zle_Qle; lia).
  assert (Hct : inject_Z (Z.of_nat count) <= inject_Z (Z.of_nat total))
    by (rewrite <- Zle_Qle; lia).
  assert (Hs : exists t,
             inject_Z (Z.of_nat count) / inject_Z (Z.of_nat total) == t /\
             t * inject_Z (Z.of_nat total) == inject_Z (Z.of_nat count)).
  { eexists. split; [reflexivity|]. field. now apply Qpos_nonzero. }
  destruct Hs as (t & -> & Hs). split; nra.
Qed.

(** On a non-empty result set both reported probabilities lie between 0
    and 100. *)
Theorem probabilities_are_percentages (cfg : SimulationConfig)
  (results : list SimulationResult) :
  results <> [] ->
  exists a,
    analyze_results cfg results = inr a /\
    0 <= Analysis.probability_of_profit a /\
    Analysis.probability_of_profit a <= 100 /\
    0 <= Analysis.probability_of_ruin a /\
    Analysis.probability_of_ruin a <= 100.
Proof.
  intros Hne.
  destruct (analyze_results_ok cfg results Hne)
    as (a & Ha & _ & _ & Hp & Hr & _).
  exists a. split; [exact Ha|].
  rewrite !count_where_filter in Hp, Hr.
  unfold len in Hp, Hr. rewrite !length_map in Hp, Hr.
  assert (Hpos : (0 < length results)%nat)
    by (destruct results; [congruence|cbn; lia]).
  rewrite Hp, Hr.
  destruct (share_is_percentage
              (length (filter (fun pnl => Qltb 0 pnl) (map total_pnl results)))
              (length results)) as (H1 & H2);
    [eapply Nat.le_trans; [apply filter_length_le|];
     rewrite length_map; apply Nat.le_refl|exact Hpos|].
  destruct (share_is_percentage
              (length (filter (fun cap => Qltb cap (initial_capital cfg * 0.5))
                              (map final_capital results)))
              (length results)) as (H3 & H4);
    [eapply Nat.le_trans; [apply filter_length_le|];
     rewrite length_map; apply Nat.le_refl|exact Hpos|].
  repeat split; assumption.
Qed.

Lemma probabilities_are_percentages_witness :
  exists a,
    analyze_results scenario_a_config
      [{| final_capital := 1001; total_pnl := 1; max_drawdown := 0;
          max_drawdown_pct := 0; longest_win_streak := 1;
          longest_loss_streak := 0; total_wins := 1; total_losses := 0;
          actual_win_rate := 1; profit_factor := infinity;
          equity_curve := [1000; 1001]; drawdown_curve := [0; 0] |}]
    = inr a /\
    0 <= Analysis.probability_of_profit a /\
    Analysis.probability_of_profit a <= 100 /\
    0 <= Analysis.probability_of_ruin a /\
    Analysis.probability_of_ruin a <= 100.
Proof.
  apply probabilities_are_percentages. discriminate.
Defined.

(** ** Numbers taken from the generator *)

Lemma trade_loop_draws (cfg : SimulationConfig) (stats : TradeStats)
  (n : nat) (st : Run.vars) (g : generator) (st' : Run.vars) (g' : generator) :
  trade_loop cfg stats n st g = inr (st', g') ->
  exists k,
    (k <= n)%nat /\
    (Run.wins st' + Run.losses st'
     = Run.wins st + Run.losses st + Z.of_nat k)%Z /\
    forall i, g' i = g (3 * k + i)%nat.
Proof.
  revert st g. induction n as [|n IH]; intros st g H; cbn [trade_loop] in H.
  - injection H as <- <-. exists O. split; [lia|]. split; [lia|].
    intros i. reflexivity.
  - destruct (loop_body cfg stats st g) as [e|[[st1 b] g1]] eqn:E;
      cbn [bind] in H; [discriminate|].
    destruct (loop_body_fields _ _ _ _ _ _ _ E)
      as (pnl & w & Hd & _ & _ & Ew & El & _).
    apply draw_trade_inv in Hd. cbv zeta in Hd.
    destruct Hd as (_ & _ & Hg1 & _).
    assert (Hone : (Run.wins st1 + Run.losses st1
                    = Run.wins st + Run.losses st + 1)%Z).
    { rewrite Ew, El. unfold track_metrics.
      destruct w; cbn [Run.wins Run.losses]; lia. }
    destruct b.
    + injection H as <- <-. exists 1%nat. split; [lia|]. split; [lia|].
      intros i. rewrite Hg1. reflexivity.
    + destruct (IH _ _ H) as (k & Hk & Hcnt & Hg').
      exists (S k). split; [lia|]. split; [lia|].
      intros i. rewrite Hg', Hg1. unfold advance. f_equal. lia.
Qed.

Lemma simulate_all_draws (cfg : SimulationConfig) (stats : TradeStats)
  (m : nat) (results : list SimulationResult) (g : generator)
  (rs : list SimulationResult) (g' : generator) :
  simulate_all cfg stats m results g = inr (rs, g') ->
  exists k, (k <= m * num_trades cfg)%nat /\ forall i, g' i = g (3 * k + i)%nat.
Proof.
  revert results g. induction m as [|m IH]; intros results g H;
    cbn [simulate_all] in H.
  - injection H as <- <-. exists O. split; [lia|]. intros i. reflexivity.
  - destruct (_run_single_simulation cfg stats g) as [e|[r g1]] eqn:E;
      cbn [bind] in H; [discriminate|].
    destruct (run_single_inv _ _ _ _ _ E) as (st & Hloop & _).
    destruct (trade_loop_draws _ _ _ _ _ _ _ Hloop) as (k1 & Hk1 & _ & Hg1).
    destruct (IH _ _ H) as (k2 & Hk2 & Hg2).
    exists (k1 + k2)%nat. split; [lia|].
    intros i. rewrite Hg2, Hg1. f_equal. lia.
Qed.

(** A returned trajectory has taken exactly three numbers per executed
    trade from the generator, and a returned run at most [3 * M * N]: the
    generator left behind is the initial one, shifted by that many
    numbers. *)
Theorem three_draws_per_trade (cfg : SimulationConfig) (stats : TradeStats)
  (g : generator) :
  (forall r g',
      _run_single_simulation cfg stats g = inr (r, g') ->
      exists k,
        Z.of_nat k = (total_wins r + total_losses r)%Z /\
        (k <= num_trades cfg)%nat /\
        forall i, g' i = g (3 * k + i)%nat) /\
  (forall a g',
      run_simulation cfg stats g = inr (a, g') ->
      exists k,
        (k <= num_simulations cfg * num_trades cfg)%nat /\
        forall i, g' i = g (3 * k + i)%nat).
Proof.
  split.
  - intros r g' Hr.
    destruct (run_single_inv _ _ _ _ _ Hr) as (st & Hloop & Hfin).
    destruct (final_metrics_fields _ _ _ Hfin)
      as (_ & _ & _ & _ & _ & -> & -> & _).
    destruct (trade_loop_draws _ _ _ _ _ _ _ Hloop) as (k & Hk & Hcnt & Hg).
    cbn [initial_vars Run.wins Run.losses] in Hcnt.
    exists k. split; [lia|]. split; assumption.
  - intros a g' Hr. unfold run_simulation in Hr.
    destruct (simulate_all cfg stats (num_simulations cfg) [] g)
      as [e|[rs g1]] eqn:E; cbn [bind] in Hr; [discriminate|].
    destruct (analyze_results cfg rs) as [e|a0]; cbn [bind ret] in Hr;
      [discriminate|].
    injection Hr as <- <-.
    exact (simulate_all_draws _ _ _ _ _ _ _ E).
Qed.

Lemma three_draws_per_trade_witness :
  exists r g' k,
    _run_single_simulation (all_in_config 3) default_stats (one_loss 20)
      = inr (r, g') /\
    Z.of_nat k = (total_wins r + total_losses r)%Z /\
    (k <= 3)%nat /\
    forall i, g' i = one_loss 20 (3 * k + i)%nat.
Proof.
  destruct (_run_single_simulation (all_in_config 3) default_stats
              (one_loss 20)) as [e|[r g']] eqn:E.
  - exfalso. vm_compute in E. discriminate E.
  - destruct (proj1 (three_draws_per_trade (all_in_config 3) default_stats
                       (one_loss 20)) r g' E) as (k & H).
    now exists r, g', k.
Defined.

(** ** A batch without simulations *)

(** With [num_simulations = 0] the run raises [ValueError] for every
    configuration: the analysis takes the minimum of an empty list. With a
    positive initial capital and at least one simulation it returns. *)
Theorem run_without_simulations_raises (cfg : SimulationConfig)
  (stats : TradeStats) (g : generator) :
  (num_simulations cfg = O -> run_simulation cfg stats g = inl ValueError) /\
  (0 < initial_capital cfg -> (0 < num_simulations cfg)%nat ->
   exists a g', run_simulation cfg stats g = inr (a, g')).
Proof.
  split.
  - intros HM. unfold run_simulation. rewrite HM. reflexivity.
  - apply run_simulation_ok.
Qed.

Lemma run_without_simulations_raises_witness :
  run_simulation
    {| num_simulations := 0; num_trades := 1000;
       initial_capital := 1000; use_compounding := true;
       high_conf_kelly := 0.146; medium_conf_kelly := 0.110;
       low_conf_kelly := 0.055;
       max_position_pct := 0.20; max_total_exposure := 1.50;
       correlation_reduction := 0.30;
       slippage_pct := 0.005; commission_pct := 0.001 |}
    default_stats (one_win 10)
  = inl ValueError.
Proof.
  apply run_without_simulations_raises. reflexivity.
Defined.

(** * Further properties of the export and of its readers *)

(** ** The five samples of an export *)

Lemma py_item_position {A : Type} (l : list A) (i : Z) :
  (- len l <= i < len l)%Z ->
  exists a,
    py_item l i = inr a /\
    nth_error l (Z.to_nat (position (len l) i)) = Some a.
Proof.
  intros Hi. unfold py_item, position.
  assert (Hj : (if (i <? 0)%Z then (len l + i)%Z else i) = (i mod len l)%Z).
  { destruct (i <? 0)%Z eqn:E.
    - apply Z.ltb_lt in E.
      apply (Z.mod_unique_pos _ _ (-1)); lia.
    - apply Z.ltb_ge in E. symmetry. apply Z.mod_small. lia. }
  cbv zeta. rewrite Hj.
  assert (Hr : (0 <= i mod len l < len l)%Z) by (apply Z.mod_pos_bound; lia).
  replace ((0 <=? i mod len l)%Z && (i mod len l <? len l)%Z)%bool with true
    by (symmetry; apply andb_true_iff; split;
        [apply Z.leb_le | apply Z.ltb_lt]; lia).
  destruct (nth_error l (Z.to_nat (i mod len l))) as [a|] eqn:E.
  - now exists a.
  - apply nth_error_None in E. unfold len in *. lia.
Qed.

Lemma sample_equity_curves_ok (results : list SimulationResult)
  (indices : list Z) :
  Forall (fun i => (- len results <= i < len results)%Z) indices ->
  exists samples,
    sample_equity_curves results indices = inr samples /\
    Forall2 (fun i s =>
               exists r,
                 nth_error results (Z.to_nat (position (len results) i))
                 = Some r /\ sample_of i r s)
            indices samples.
Proof.
  induction 1 as [|i rest Hi _ IH]; cbn [sample_equity_curves].
  - exists []. split; [reflexivity|constructor].
  - destruct (py_item_position results i Hi) as (r & -> & Hr).
    destruct IH as (samples & -> & Hs). cbn [bind].
    eexists. split; [reflexivity|].
    constructor; [|exact Hs].
    exists r. split; [exact Hr|]. now repeat split.
Qed.

Lemma sample_indices_in_range (results : list SimulationResult) :
  results <> [] ->
  Forall (fun i => (- len results <= i < len results)%Z)
         (sample_indices results).
Proof.
  intros Hne.
  assert (Hn : (0 < len results)%Z).
  { unfold len. destruct results; [congruence|cbn [length]; lia]. }
  unfold sample_indices.
  repeat constructor;
    try (zify; Z.to_euclidean_division_equations; lia).
Qed.

Lemma sample_positions (n : Z) :
  (0 < n)%Z ->
  map (position n) [0; n / 4; n / 2; 3 * n / 4; -1]%Z
  = [0; n / 4; n / 2; 3 * n / 4; n - 1]%Z.
Proof.
  intros Hn. unfold position. cbn [map].
  rewrite (Z.mod_small 0), (Z.mod_small (n / 4)), (Z.mod_small (n / 2)),
    (Z.mod_small (3 * n / 4))
    by (zify; Z.to_euclidean_division_equations; lia).
  replace (-1 mod n)%Z with (n - 1)%Z
    by (apply (Z.mod_unique_pos _ _ (-1)); lia).
  reflexivity.
Qed.

Lemma export_results_ok (cfg : SimulationConfig) (stats : TradeStats)
  (results : list SimulationResult) :
  export_results cfg stats [] = inl ValueError /\
  (results <> [] ->
   exists d,
     export_results cfg stats results = inr d /\
     analyze_results cfg results = inr (ExportData.analysis d) /\
     Forall2 (fun i s =>
                exists r,
                  nth_error results (Z.to_nat (position (len results) i))
                  = Some r /\ sample_of i r s)
             (sample_indices results) (ExportData.sample_equity_curves d)).
Proof.
  split; [reflexivity|].
  intros Hne. unfold export_results.
  destruct (analyze_results_ok cfg results Hne) as (a & Ha & _).
  rewrite Ha. cbn [bind].
  destruct (sample_equity_curves_ok results (sample_indices results)
              (sample_indices_in_range results Hne)) as (samples & -> & Hs).
  cbn [bind]. eexists. split; [reflexivity|].
  cbn [ExportData.analysis ExportData.sample_equity_curves].
  split; [reflexivity|exact Hs].
Qed.

(** The export of an empty result set raises the [ValueError] of the
    analysis and never reaches the indexing. The export of a non-empty set
    returns the analysis of the set and five samples, one per index of
    [[0, n//4, n//2, 3n//4, -1]], each carrying the curves and the final
    capital of the result at that position; the five positions are
    pairwise different exactly when there are at least five results. *)
Theorem export_takes_five_samples (cfg : SimulationConfig) (stats : TradeStats)
  (results : list SimulationResult) :
  export_results cfg stats [] = inl ValueError /\
  (results <> [] ->
   exists d,
     export_results cfg stats results = inr d /\
     analyze_results cfg results = inr (ExportData.analysis d) /\
     Forall2 (fun i s =>
                exists r,
                  nth_error results (Z.to_nat (position (len results) i))
                  = Some r /\ sample_of i r s)
             (sample_indices results) (ExportData.sample_equity_curves d) /\
     (NoDup (map (position (len results)) (sample_indices results))
      <-> (5 <= len results)%Z)).
Proof.
  split; [reflexivity|].
  intros Hne.
  destruct (proj2 (export_results_ok cfg stats results) Hne)
    as (d & Hd & Ha & Hs).
  exists d. split; [exact Hd|]. split; [exact Ha|]. split; [exact Hs|].
  assert (Hn : (0 < len results)%Z).
  { unfold len. destruct results; [congruence|cbn [length]; lia]. }
  unfold sample_indices. rewrite (sample_positions _ Hn).
  set (n := len results) in *. clearbody n. clear - Hn.
  split.
  - intros Hd.
    destruct (Z_lt_le_dec n 5) as [Hlt|]; [exfalso|assumption].
    assert (Hc : n = 1%Z \/ n = 2%Z \/ n = 3%Z \/ n = 4%Z) by lia.
    destruct Hc as [-> | [-> | [-> | ->]]]; vm_compute in Hd;
      repeat match goal with
             | H : NoDup (_ :: _) |- _ =>
                 apply NoDup_cons_iff in H; destruct H
             end;
      cbn [In] in *; tauto.
  - intros Hge.
    repeat match goal with
           | |- NoDup (_ :: _) => apply NoDup_cons
           | |- NoDup [] => apply NoDup_nil
           end;
      cbn [In];
      intros Hin;
      repeat match goal with
             | H : _ \/ _ |- _ => destruct H
             | H : False |- _ => destruct H
             end;
      zify; Z.to_euclidean_division_equations; lia.
Qed.

Lemma export_takes_five_samples_witness :
  exists d,
    export_results default_config default_stats
      [{| final_capital := 1200; total_pnl := 200; max_drawdown := 0;
          max_drawdown_pct := 0; longest_win_streak := 1;
          longest_loss_streak := 0; total_wins := 1; total_losses := 0;
          actual_win_rate := 1; profit_factor := infinity;
          equity_curve := [1000; 1200]; drawdown_curve := [0; 0] |}]
    = inr d /\
    length (ExportData.sample_equity_curves d) = 5%nat.
Proof.
  destruct (proj2 (export_takes_five_samples default_config default_stats
              [{| final_capital := 1200; total_pnl := 200; max_drawdown := 0;
                  max_drawdown_pct := 0; longest_win_streak := 1;
                  longest_loss_streak := 0; total_wins := 1;
                  total_losses := 0; actual_win_rate := 1;
                  profit_factor := infinity;
                  equity_curve := [1000; 1200]; drawdown_curve := [0; 0] |}]))
    as (d & Hd & _ & Hs & _).
  - discriminate.
  - exists d. split; [exact Hd|].
    apply Forall2_length in Hs. now rewrite <- Hs.
Defined.

(** ** The standard run *)

(** [run_standard_simulation] returns for every generator. It holds the
    10000 results of the run, returns the analysis [run_simulation]
    returns, exports that same analysis, and exports the samples of the
    results 0, 2500, 5000, 7500 and -1. *)
Theorem standard_run_exports_its_analysis (g : generator) :
  exists results analysis exported g',
    run_standard_simulation g = inr (results, analysis, exported, g') /\
    run_simulation default_config default_stats g = inr (analysis, g') /\
    len results = 10000%Z /\
    ExportData.analysis exported = analysis /\
    map Sample.simulation (ExportData.sample_equity_curves exported)
    = [0; 2500; 5000; 7500; -1]%Z.
Proof.
  unfold run_standard_simulation, run_simulation. cbv zeta.
  destruct (simulate_all_ok default_config default_stats
              (num_simulations default_config) [] g eq_refl)
    as (rs & g' & -> & Hl & _).
  cbn [bind].
  assert (Hlen : len rs = 10000%Z).
  { unfold len. rewrite Hl. cbn [length Nat.add num_simulations default_config].
    lia. }
  assert (Hne : rs <> []).
  { intros ->. discriminate Hlen. }
  destruct (proj2 (export_results_ok default_config default_stats rs) Hne)
    as (d & Hd & Ha & Hs).
  rewrite Ha, Hd. cbn [bind ret].
  exists rs, (ExportData.analysis d), d, g'.
  split; [reflexivity|]. split; [reflexivity|]. split; [exact Hlen|].
  split; [reflexivity|].
  unfold sample_indices in Hs. rewrite Hlen in Hs.
  change [0; 10000 / 4; 10000 / 2; 3 * 10000 / 4; -1]%Z
    with [0; 2500; 5000; 7500; -1]%Z in Hs.
  clear - Hs.
  induction Hs as [|i s rest ss (r & _ & Hi & _) _ IH]; [reflexivity|].
  cbn [map]. now rewrite Hi, IH.
Qed.

(** ** Percentile keys after the round trip through the file *)

Lemma getitem_round_trip_int (table : list (Z * np.float64)) (p : Z) :
  getitem (json_round_trip table) (int_key p) = inl KeyError.
Proof.
  induction table as [|[k v] rest IH]; [reflexivity|exact IH].
Qed.

Lemma getitems_round_trip (table : list (Z * np.float64)) (p : Z)
  (ps : list Z) :
  getitems (json_round_trip table) (p :: ps) = inl KeyError.
Proof.
  cbn [getitems]. now rewrite getitem_round_trip_int.
Qed.

(** On the analysis that [analyze_results] returns, the lookup
    [percentiles[95]] answers. On the same analysis read back from the
    exported file the value sits under the string ["95"], every lookup with
    an integer key raises [KeyError], and so do the two lists of percentile
    values the visualizer builds first. *)
Theorem reloaded_percentiles_need_string_keys (cfg : SimulationConfig)
  (results : list SimulationResult) :
  results <> [] ->
  exists a v,
    analyze_results cfg results = inr a /\
    worst_case_drawdown a = inr v /\
    getitem (loaded_percentiles (Analysis.max_drawdown_pct a)) (str_key "95")
    = inr v /\
    (forall d p, getitem (loaded_percentiles d) (int_key p) = inl KeyError) /\
    percentile_values a = inl KeyError /\
    pnl_data a = inl KeyError.
Proof.
  intros Hne.
  destruct (analyze_results_describes cfg results Hne)
    as (a & Ha & _ & _ & Hdd & _).
  destruct Hdd as (_ & _ & _ & _ & Hp).
  exists a, (np.percentile (map max_drawdown_pct results) (inject_Z 95)).
  split; [exact Ha|].
  unfold worst_case_drawdown, loaded_percentiles. rewrite Hp.
  split; [reflexivity|]. split; [reflexivity|].
  split; [intros d p; apply getitem_round_trip_int|].
  split; [apply getitems_round_trip|].
  unfold pnl_data, loaded_percentiles. apply getitems_round_trip.
Qed.

Lemma reloaded_percentiles_need_string_keys_witness :
  exists a,
    analyze_results default_config
      [{| final_capital := 1200; total_pnl := 200; max_drawdown := 0;
          max_drawdown_pct := 0; longest_win_streak := 1;
          longest_loss_streak := 0; total_wins := 1; total_losses := 0;
          actual_win_rate := 1; profit_factor := infinity;
          equity_curve := [1000; 1200]; drawdown_curve := [0; 0] |}]
    = inr a /\
    percentile_values a = inl KeyError.
Proof.
  destruct (reloaded_percentiles_need_string_keys default_config
              [{| final_capital := 1200; total_pnl := 200; max_drawdown := 0;
                  max_drawdown_pct := 0; longest_win_streak := 1;
                  longest_loss_streak := 0; total_wins := 1;
                  total_losses := 0; actual_win_rate := 1;
                  profit_factor := infinity;
                  equity_curve := [1000; 1200]; drawdown_curve := [0; 0] |}])
    as (a & v & Ha & _ & _ & _ & Hv & _).
  - discriminate.
  - exists a. split; [exact Ha|exact Hv].
Defined.

(** ** The scenario loops *)

Lemma init_first_scenario :
  SimulationConfig_init
    [("num_simulations", py_int 5000); ("use_compounding", py_bool false)]%string
  = inr {|
      num_simulations := Z.to_nat 5000;
      num_trades := num_trades default_config;
      initial_capital := initial_capital default_config;
      use_compounding := false;
      high_conf_kelly := high_conf_kelly default_config;
      medium_conf_kelly := medium_conf_kelly default_config;
      low_conf_kelly := low_conf_kelly default_config;
      max_position_pct := max_position_pct default_config;
      max_total_exposure := max_total_exposure default_config;
      correlation_reduction := correlation_reduction default_config;
      slippage_pct := slippage_pct default_config;
      commission_pct := commission_pct default_config |}.
Proof. reflexivity. Qed.

Lemma init_unknown_keyword (kw : kwargs) (name : string) (v : value) :
  is_field name = false ->
  SimulationConfig_init (kw ++ [(name, v)]) = inl TypeError.
Proof.
  intros Hn. unfold SimulationConfig_init.
  rewrite map_app, forallb_app. cbn [map fst forallb]. rewrite Hn.
  cbn [negb andb]. rewrite andb_false_r. cbn [negb].
  now rewrite orb_true_r.
Qed.

(** [run_stress_tests] raises [TypeError] for every generator: its first
    scenario runs to its analysis, and the second passes the keyword
    [win_rate_override], which is no field of [SimulationConfig], so the
    three scenarios after it are never run. *)
Theorem stress_tests_stop_at_second_scenario (g : generator) :
  (exists done, stress_loop (firstn 1 scenarios) default_stats [] g = inr done) /\
  stress_loop (firstn 2 scenarios) default_stats [] g = inl TypeError /\
  run_stress_tests g = inl TypeError.
Proof.
  assert (Hrun : exists a g',
             run_simulation
               {| num_simulations := Z.to_nat 5000;
                  num_trades := num_trades default_config;
                  initial_capital := initial_capital default_config;
                  use_compounding := false;
                  high_conf_kelly := high_conf_kelly default_config;
                  medium_conf_kelly := medium_conf_kelly default_config;
                  low_conf_kelly := low_conf_kelly default_config;
                  max_position_pct := max_position_pct default_config;
                  max_total_exposure := max_total_exposure default_config;
                  correlation_reduction := correlation_reduction default_config;
                  slippage_pct := slippage_pct default_config;
                  commission_pct := commission_pct default_config |}
               default_stats g = inr (a, g')).
  { apply run_simulation_ok; cbn [initial_capital num_simulations].
    - reflexivity.
    - apply Nat.ltb_lt. reflexivity. }
  destruct Hrun as (a & g' & Hrun).
  assert (H2 : forall rest,
             stress_loop
               (("Conservative (No Compounding)",
                 [("use_compounding", py_bool false)])
                :: ("Lower Win Rate (50%)",
                    [("win_rate_override", py_float 0.50)]) :: rest)%string
               default_stats [] g = inl TypeError).
  { intros rest. cbn [stress_loop]. rewrite init_first_scenario.
    cbn [attempt_bind kw_get String.eqb Ascii.eqb Bool.eqb].
    change (kw_get [("use_compounding", py_bool false)]%string
              "win_rate_override") with (@None value).
    cbv iota. rewrite Hrun. cbn [lift attempt_bind].
    pose proof (init_unknown_keyword
                  [("num_simulations", py_int 5000)]%string
                  "win_rate_override" (py_float 0.50) eq_refl) as Hinit.
    cbn [app] in Hinit. rewrite Hinit. reflexivity. }
  split; [|split].
  - cbn [firstn scenarios stress_loop]. rewrite init_first_scenario.
    cbn [attempt_bind].
    change (kw_get [("use_compounding", py_bool false)]%string
              "win_rate_override") with (@None value).
    cbv iota. rewrite Hrun. cbn [lift attempt_bind].
    now eexists.
  - apply H2.
  - apply H2.
Qed.

Lemma run_simulation_same_inputs (cfg : SimulationConfig) (s1 s2 : TradeStats)
  (g : generator) :
  same_simulation_inputs s1 s2 ->
  run_simulation cfg s1 g = run_simulation cfg s2 g.
Proof.
  intros Hs. unfold run_simulation.
  now rewrite (simulate_all_same_inputs cfg s1 s2 _ _ g Hs).
Qed.

Lemma test_config_runs (portfolio_size : Q) (simulations trades : Z)
  (compounding : bool) (high medium low : Q) (stats : TradeStats)
  (g : generator) :
  0 < portfolio_size -> (0 < simulations)%Z ->
  exists a g',
    run_simulation
      (test_config portfolio_size simulations trades compounding
                   high medium low) stats g = inr (a, g').
Proof.
  intros Hp Hm.
  apply run_simulation_ok; cbn [test_config initial_capital num_simulations].
  - exact Hp.
  - lia.
Qed.

(** The three stress scenarios of [run_full_analysis] all return when the
    portfolio size and the number of simulations are positive, each
    continuing with the generator the one before left. The scenario named
    ['Lower Win Rate (50%)'] sets the win rate of a fresh statistics object
    to 0.50 and overrides nothing else, and its analysis is the one the
    default statistics give with the default sizing and compounding. *)
Theorem lower_win_rate_scenario_is_baseline (portfolio_size : Q)
  (num_simulations num_trades : Z) (g : generator) :
  0 < portfolio_size -> (0 < num_simulations)%Z ->
  exists a1 a2 a3 g1 g2 g3,
    run_simulation
      (test_config portfolio_size num_simulations num_trades false
                   0.146 0.110 0.055) default_stats g = inr (a1, g1) /\
    run_simulation
      (test_config portfolio_size num_simulations num_trades true
                   0.146 0.110 0.055) default_stats g1 = inr (a2, g2) /\
    run_simulation
      (test_config portfolio_size num_simulations num_trades true
                   0.073 0.055 0.0275) default_stats g2 = inr (a3, g3) /\
    full_analysis_stress_loop stress_scenarios portfolio_size num_simulations
      num_trades default_stats [] g
    = inr ([("Conservative (No Compounding)", a1);
            ("Lower Win Rate (50%)", a2);
            ("Half Kelly Sizing", a3)]%string, g3).
Proof.
  intros Hp Hm.
  destruct (test_config_runs portfolio_size num_simulations num_trades false
              0.146 0.110 0.055 default_stats g Hp Hm) as (a1 & g1 & H1).
  destruct (test_config_runs portfolio_size num_simulations num_trades true
              0.146 0.110 0.055 default_stats g1 Hp Hm) as (a2 & g2 & H2).
  destruct (test_config_runs portfolio_size num_simulations num_trades true
              0.073 0.055 0.0275 default_stats g2 Hp Hm) as (a3 & g3 & H3).
  exists a1, a2, a3, g1, g2, g3.
  split; [exact H1|]. split; [exact H2|]. split; [exact H3|].
  unfold stress_scenarios. cbn [full_analysis_stress_loop].
  change (SimulationConfig_init
            [("num_simulations", py_int (Z.min 5000 num_simulations));
             ("num_trades", py_int num_trades);
             ("initial_capital", py_float portfolio_size);
             ("use_compounding", py_bool false)]%string)
    with (@inr exception _
            (test_config portfolio_size num_simulations num_trades false
                         0.146 0.110 0.055)).
  cbn [attempt_bind].
  change (contains "Lower Win Rate" "Conservative (No Compounding)")
    with false.
  cbv iota. rewrite H1. cbn [lift attempt_bind app].
  change (SimulationConfig_init
            [("num_simulations", py_int (Z.min 5000 num_simulations));
             ("num_trades", py_int num_trades);
             ("initial_capital", py_float portfolio_size);
             ("use_compounding", py_bool true)]%string)
    with (@inr exception _
            (test_config portfolio_size num_simulations num_trades true
                         0.146 0.110 0.055)).
  cbn [attempt_bind].
  change (contains "Lower Win Rate" "Lower Win Rate (50%)") with true.
  cbv iota.
  rewrite (run_simulation_same_inputs _ (set_win_rate default_stats 0.50)
             default_stats g1) by (repeat split).
  rewrite H2. cbn [lift attempt_bind app].
  change (SimulationConfig_init
            [("num_simulations", py_int (Z.min 5000 num_simulations));
             ("num_trades", py_int num_trades);
             ("initial_capital", py_float portfolio_size);
             ("high_conf_kelly", py_float 0.073);
             ("medium_conf_kelly", py_float 0.055);
             ("low_conf_kelly", py_float 0.0275)]%string)
    with (@inr exception _
            (test_config portfolio_size num_simulations num_trades true
                         0.073 0.055 0.0275)).
  cbn [attempt_bind].
  change (contains "Lower Win Rate" "Half Kelly Sizing") with false.
  cbv iota. rewrite H3. reflexivity.
Qed.

Lemma lower_win_rate_scenario_is_baseline_witness :
  exists out,
    full_analysis_stress_loop stress_scenarios 1000 1 1 default_stats []
      (fun _ => 0.5)
    = inr out.
Proof.
  destruct (lower_win_rate_scenario_is_baseline 1000 1 1 (fun _ => 0.5))
    as (a1 & a2 & a3 & g1 & g2 & g3 & _ & _ & _ & H).
  - reflexivity.
  - reflexivity.
  - eexists. exact H.
Defined.

(** * Properties of the position sizing calculator *)

(** ** The base size *)

Lemma get_label (h m l : Q) (c : confidence) :
  get [("HIGH", h); ("MEDIUM", m); ("LOW", l)]%string (label c) l
  = match c with HIGH => h | MEDIUM => m | LOW => l end.
Proof. now destruct c. Qed.

Lemma get_other (h m l : Q) (name : string) :
  name <> "HIGH"%string -> name <> "MEDIUM"%string ->
  get [("HIGH", h); ("MEDIUM", m); ("LOW", l)]%string name l = l.
Proof.
  intros Hh Hm. cbn [get].
  destruct (String.eqb_spec "HIGH" name) as [E|_]; [now elim Hh|].
  destruct (String.eqb_spec "MEDIUM" name) as [E|_]; [now elim Hm|].
  now destruct (String.eqb "LOW" name).
Qed.

Lemma base_size_below_cap (p : PortfolioConfig.t) (name : string) :
  calculate_base_position_size p name
  <= PortfolioConfig.total_capital p * PortfolioConfig.max_position_pct p.
Proof.
  unfold calculate_base_position_size. cbv zeta.
  rewrite py_min_Qmin. apply Q.le_min_r.
Qed.

Lemma get_nonneg (h m l : Q) (name : string) :
  0 <= h -> 0 <= m -> 0 <= l ->
  0 <= get [("HIGH", h); ("MEDIUM", m); ("LOW", l)]%string name l.
Proof.
  intros Hh Hm Hl. cbn [get].
  destruct (String.eqb "HIGH" name); [exact Hh|].
  destruct (String.eqb "MEDIUM" name); [exact Hm|].
  now destruct (String.eqb "LOW" name).
Qed.

Lemma base_size_nonneg (p : PortfolioConfig.t) (name : string) :
  sound_portfolio p -> 0 <= calculate_base_position_size p name.
Proof.
  intros (Hc & Hh & Hm & Hl & Hx & _).
  unfold calculate_base_position_size. cbv zeta.
  rewrite py_min_Qmin. apply Q.min_glb.
  - apply Qmult_le_0_compat; [lra|]. now apply get_nonneg.
  - apply Qmult_le_0_compat; [lra|exact Hx].
Qed.

(** For a portfolio and a simulation configuration with the same Kelly
    fractions and cap, the calculator's base size for a confidence level is
    the size the simulator takes for that level on the portfolio's capital
    at full risk. A label other than ['HIGH'] and ['MEDIUM'] is sized by
    the calculator as ['LOW']. *)
Theorem calculator_sizes_like_simulator (p : PortfolioConfig.t)
  (cfg : SimulationConfig) (c : confidence) (name : string) :
  same_sizing p cfg ->
  calculate_base_position_size p (label c)
  == _calculate_position_size cfg (PortfolioConfig.total_capital p) c 1 /\
  (name <> "HIGH"%string -> name <> "MEDIUM"%string ->
   calculate_base_position_size p name
   = calculate_base_position_size p "LOW").
Proof.
  intros (Hh & Hm & Hl & Hx). split.
  - unfold calculate_base_position_size, _calculate_position_size.
    cbv zeta. rewrite get_label, !py_min_Qmin, <- Hx.
    assert (Hk : match c with
                 | HIGH => PortfolioConfig.high_conf_kelly p
                 | MEDIUM => PortfolioConfig.medium_conf_kelly p
                 | LOW => PortfolioConfig.low_conf_kelly p
                 end = kelly_of cfg c).
    { destruct c; cbn [kelly_of]; congruence. }
    rewrite Hk.
    apply Q.min_compat; [ring|reflexivity].
  - intros H1 H2. unfold calculate_base_position_size. cbv zeta.
    rewrite (get_other _ _ _ name H1 H2).
    now rewrite (get_label _ _ _ LOW).
Qed.

Lemma calculator_sizes_like_simulator_witness :
  calculate_base_position_size (PortfolioConfig.init 1000) "HIGH"
  == _calculate_position_size default_config 1000 HIGH 1.
Proof.
  apply (calculator_sizes_like_simulator (PortfolioConfig.init 1000)
           default_config HIGH "low").
  repeat split.
Defined.

(** ** A position with leverage *)

Lemma position_cases (p : PortfolioConfig.t) (name : string)
  (leverage current_exposure : Q) (is_correlated : bool) (pos : Position.t) :
  calculate_position_with_leverage p name leverage current_exposure
    is_correlated = inr pos ->
  let base_size := calculate_base_position_size p name in
  let adjusted_size :=
    if is_correlated
    then base_size * (1 - PortfolioConfig.correlation_reduction_pct p)
    else base_size in
  let size := py_min adjusted_size (remaining_exposure p current_exposure) in
  (remaining_exposure p current_exposure <= 0 /\
   Position.allowed pos = false /\
   Position.position_size pos = 0 /\ Position.margin_required pos = 0) \/
  (0 < remaining_exposure p current_exposure /\ ~ leverage == 0 /\
   Position.position_size pos = size /\
   Position.margin_required pos
   = size * PortfolioConfig.margin_requirement_pct p / leverage /\
   ((Position.allowed pos = false /\
     PortfolioConfig.total_capital p < Position.margin_required pos) \/
    (Position.allowed pos = true /\
     Position.margin_required pos <= PortfolioConfig.total_capital p /\
     ~ PortfolioConfig.total_capital p == 0 /\
     Position.risk_amount pos
     = Some (size * PortfolioConfig.stop_loss_pct p)))).
Proof.
  unfold calculate_position_with_leverage, calculate_margin_requirement.
  fold (remaining_exposure p current_exposure). cbv zeta.
  set (size := py_min _ (remaining_exposure p current_exposure)).
  destruct (Qle_bool (remaining_exposure p current_exposure) 0) eqn:Erem.
  - intros H. injection H as <-. left.
    apply Qle_bool_iff in Erem. now repeat split.
  - apply Qle_bool_false in Erem. unfold py_div at 1.
    destruct (Qeq_bool leverage 0) eqn:El; [discriminate|].
    apply Qeq_bool_neq in El. cbn [bind ret].
    destruct (Qltb (PortfolioConfig.total_capital p) _) eqn:Em.
    + intros H. injection H as <-. right.
      apply Qltb_true in Em. cbn.
      repeat split; auto.
    + apply Qltb_false in Em. unfold py_div.
      destruct (Qeq_bool (PortfolioConfig.total_capital p) 0) eqn:Ec;
        [discriminate|].
      apply Qeq_bool_neq in Ec. cbn [bind ret].
      intros H. injection H as <-. right. cbn.
      repeat split; auto.
Qed.

(** A position that is allowed on a portfolio with positive capital and
    non-negative fractions is no larger than the exposure that remained,
    no larger than the cap on a single position, needs a margin within the
    capital, and risks at its stop no more than the cap on a position times
    the stop-loss fraction. *)
Theorem allowed_position_within_limits (p : PortfolioConfig.t) (name : string)
  (leverage current_exposure : Q) (is_correlated : bool) (pos : Position.t) :
  sound_portfolio p ->
  calculate_position_with_leverage p name leverage current_exposure
    is_correlated = inr pos ->
  Position.allowed pos = true ->
  Position.position_size pos
  <= PortfolioConfig.total_capital p * PortfolioConfig.max_total_exposure_pct p
     - current_exposure /\
  Position.position_size pos
  <= PortfolioConfig.total_capital p * PortfolioConfig.max_position_pct p /\
  Position.margin_required pos <= PortfolioConfig.total_capital p /\
  exists risk,
    Position.risk_amount pos = Some risk /\
    risk <= PortfolioConfig.total_capital p * PortfolioConfig.max_position_pct p
            * PortfolioConfig.stop_loss_pct p.
Proof.
  intros Hsound Hpos Hallowed.
  pose proof (base_size_nonneg p name Hsound) as Hb0.
  pose proof (base_size_below_cap p name) as Hb1.
  destruct Hsound as (Hc & _ & _ & _ & Hx & Hr & Hs).
  apply position_cases in Hpos. cbv zeta in Hpos.
  destruct Hpos as [(_ & Hf & _)|(Hrem & Hl & Hsize & Hm & Hcase)];
    [congruence|].
  destruct Hcase as [(Hf & _)|(_ & Hmc & _ & Hrisk)]; [congruence|].
  set (base := calculate_base_position_size p name) in *.
  set (adjusted := if is_correlated
                   then base * (1 - PortfolioConfig.correlation_reduction_pct p)
                   else base) in *.
  assert (Hadj : adjusted <= base).
  { unfold adjusted. destruct is_correlated; [nra|lra]. }
  rewrite py_min_Qmin in *.
  pose proof (Q.le_min_l adjusted (remaining_exposure p current_exposure)) as H1.
  pose proof (Q.le_min_r adjusted (remaining_exposure p current_exposure)) as H2.
  set (size := Qmin adjusted (remaining_exposure p current_exposure)) in *.
  unfold remaining_exposure in H2.
  rewrite Hsize. split; [exact H2|]. split; [lra|]. split; [exact Hmc|].
  eexists. split; [exact Hrisk|].
  set (C := PortfolioConfig.total_capital p) in *.
  set (S := PortfolioConfig.stop_loss_pct p) in *.
  set (X := PortfolioConfig.max_position_pct p) in *.
  nra.
Qed.

Lemma allowed_position_within_limits_witness :
  exists pos,
    calculate_position_with_leverage (PortfolioConfig.init 1000) "HIGH" 5 0
      true = inr pos /\
    Position.position_size pos <= 1000 * 0.20.
Proof.
  destruct (calculate_position_with_leverage (PortfolioConfig.init 1000)
              "HIGH" 5 0 true) as [e|pos] eqn:E;
    [exfalso; vm_compute in E; discriminate E|].
  exists pos. split; [reflexivity|].
  apply (allowed_position_within_limits (PortfolioConfig.init 1000) "HIGH"
           5 0 true pos).
  - repeat split; discriminate.
  - exact E.
  - vm_compute in E. injection E as <-. reflexivity.
Defined.

(** The only exception of [calculate_position_with_leverage] on a portfolio
    with positive capital is the division by a zero leverage, and it is
    raised only while exposure remains: with no exposure left the position
    is refused with size and margin 0 for every leverage, zero included. *)
Theorem zero_leverage_raises_while_exposure_remains (p : PortfolioConfig.t)
  (name : string) (leverage current_exposure : Q) (is_correlated : bool) :
  (remaining_exposure p current_exposure <= 0 ->
   exists pos,
     calculate_position_with_leverage p name leverage current_exposure
       is_correlated = inr pos /\
     Position.allowed pos = false /\
     Position.position_size pos = 0 /\ Position.margin_required pos = 0) /\
  (0 < remaining_exposure p current_exposure -> leverage == 0 ->
   calculate_position_with_leverage p name leverage current_exposure
     is_correlated = inl ZeroDivisionError) /\
  (0 < remaining_exposure p current_exposure -> ~ leverage == 0 ->
   0 < PortfolioConfig.total_capital p ->
   exists pos,
     calculate_position_with_leverage p name leverage current_exposure
       is_correlated = inr pos).
Proof.
  unfold calculate_position_with_leverage, calculate_margin_requirement.
  fold (remaining_exposure p current_exposure). cbv zeta.
  split; [|split].
  - intros Hrem. apply Qle_bool_iff in Hrem. rewrite Hrem.
    eexists. split; [reflexivity|]. now repeat split.
  - intros Hrem Hl. apply Qle_bool_false in Hrem. rewrite Hrem.
    now rewrite (py_div_raises _ _ Hl).
  - intros Hrem Hl Hc. apply Qle_bool_false in Hrem. rewrite Hrem.
    rewrite (py_div_ok _ _ Hl). cbn [bind].
    destruct (Qltb (PortfolioConfig.total_capital p) _).
    + now eexists.
    + rewrite py_div_ok by (intros E; rewrite E in Hc; discriminate Hc).
      now eexists.
Qed.

Lemma zero_leverage_raises_while_exposure_remains_witness :
  calculate_position_with_leverage (PortfolioConfig.init 1000) "HIGH" 0 0
    false = inl ZeroDivisionError.
Proof.
  apply (zero_leverage_raises_while_exposure_remains
           (PortfolioConfig.init 1000) "HIGH" 0 0 false); reflexivity.
Defined.

(** ** The sizing table *)

Lemma table_entry (p : PortfolioConfig.t) (name : string) (leverage : Q) :
  ~ leverage == 0 ->
  exists pos,
    calculate_position_with_leverage p name leverage 0 false = inr pos /\
    Position.leverage pos = leverage /\
    Position.position_size pos
    = (if Qle_bool (remaining_exposure p 0) 0 then 0
       else py_min (calculate_base_position_size p name)
                   (remaining_exposure p 0)) /\
    Position.margin_required pos
    == Position.position_size pos * PortfolioConfig.margin_requirement_pct p
       / Position.leverage pos.
Proof.
  intros Hl.
  unfold calculate_position_with_leverage, calculate_margin_requirement.
  fold (remaining_exposure p 0). cbv zeta.
  destruct (Qle_bool (remaining_exposure p 0) 0) eqn:Erem.
  - eexists. split; [reflexivity|]. cbn. repeat split; try (now field); try reflexivity.
  - apply Qle_bool_false in Erem.
    rewrite (py_div_ok _ _ Hl). cbn [bind].
    destruct (Qltb (PortfolioConfig.total_capital p) _).
    + eexists. split; [reflexivity|]. cbn. repeat split; try (now field); try reflexivity.
    + assert (Hc : ~ PortfolioConfig.total_capital p == 0).
      { intros E. unfold remaining_exposure in Erem. rewrite E in Erem.
        lra. }
      rewrite (py_div_ok _ _ Hc). cbn [bind].
      eexists. split; [reflexivity|]. cbn. repeat split; try (now field); try reflexivity.
Qed.

Lemma sizing_row_ok (p : PortfolioConfig.t) (name : string)
  (leverages : list Z) :
  Forall (fun l => l <> 0%Z) leverages ->
  exists row,
    sizing_row p name leverages = inr row /\
    map fst row = map (fun l => (str l ++ "x")%string) leverages /\
    map (fun entry => Position.leverage (snd entry)) row
    = map inject_Z leverages /\
    Forall (fun entry =>
              Position.position_size (snd entry)
              = (if Qle_bool (remaining_exposure p 0) 0 then 0
                 else py_min (calculate_base_position_size p name)
                             (remaining_exposure p 0))) row /\
    Forall (fun entry =>
              Position.margin_required (snd entry)
              == Position.position_size (snd entry)
                 * PortfolioConfig.margin_requirement_pct p
                 / Position.leverage (snd entry)) row.
Proof.
  induction 1 as [|l rest Hl _ IH]; cbn [sizing_row].
  - exists []. repeat split; constructor.
  - assert (Hq : ~ inject_Z l == 0).
    { intros E. apply Hl. unfold Qeq in E. cbn in E. lia. }
    destruct (table_entry p name (inject_Z l) Hq) as (pos & -> & H1 & H2 & H3).
    destruct IH as (row & -> & I1 & I2 & I3 & I4). cbn [bind ret].
    eexists. split; [reflexivity|]. cbn [map fst snd].
    rewrite I1, I2, H1. repeat split; constructor; assumption.
Qed.

(** [generate_position_sizing_table] returns for every configuration: no
    leverage of the table is zero, and the division by the capital is only
    reached when exposure remains, which a zero capital never leaves. The
    table has the rows HIGH, MEDIUM, LOW with the columns 1x, 2x, 5x, 10x;
    within a row the position size is the same in every column, and each
    entry's margin is its position size times the margin requirement,
    divided by its leverage, also for a refused position. *)
Theorem sizing_table_always_returns (p : PortfolioConfig.t) :
  exists table,
    generate_position_sizing_table p = inr table /\
    map fst table = ["HIGH"; "MEDIUM"; "LOW"]%string /\
    Forall
      (fun row =>
         map fst (snd row) = ["1x"; "2x"; "5x"; "10x"]%string /\
         map (fun entry => Position.leverage (snd entry)) (snd row)
         = [1; 2; 5; 10] /\
         (exists size,
            Forall (fun entry => Position.position_size (snd entry) = size)
                   (snd row)) /\
         Forall (fun entry =>
                   Position.margin_required (snd entry)
                   == Position.position_size (snd entry)
                      * PortfolioConfig.margin_requirement_pct p
                      / Position.leverage (snd entry))
                (snd row))
      table.
Proof.
  assert (Hlev : Forall (fun l => l <> 0%Z) leverage_options).
  { repeat constructor; discriminate. }
  unfold generate_position_sizing_table, confidence_levels.
  cbn [sizing_rows].
  destruct (sizing_row_ok p "HIGH" _ Hlev) as (r1 & -> & A1 & A2 & A3 & A4).
  destruct (sizing_row_ok p "MEDIUM" _ Hlev) as (r2 & -> & B1 & B2 & B3 & B4).
  destruct (sizing_row_ok p "LOW" _ Hlev) as (r3 & -> & C1 & C2 & C3 & C4).
  cbn [bind ret]. eexists. split; [reflexivity|].
  split; [reflexivity|].
  repeat constructor; cbn [snd]; try assumption; eauto.
Qed.

(** ** The expected distribution *)

Lemma int_floor (x : Q) : 0 <= x -> int x = Qfloor x.
Proof.
  destruct x as [n d]. unfold Qle, int, Qfloor. cbn. intros Hn.
  apply Z.quot_div_nonneg; lia.
Qed.

Lemma int_bounds (x : Q) : 0 <= x -> (0 <= int x)%Z /\ inject_Z (int x) <= x.
Proof.
  intros Hx. rewrite (int_floor x Hx). split.
  - change 0%Z with (Qfloor 0). now apply Qfloor_resp_le.
  - apply Qfloor_le.
Qed.

(** The three expected counts add up to the number of trades, because
    the LOW count is what the truncated HIGH and MEDIUM counts leave and
    [low_conf_pct] is not used for it, and the capital deployed is the sum
    of the capital of the three levels. With a number of trades between 0
    and a billion and non-negative HIGH and MEDIUM shares that sum to at
    most one, no count is negative. For no trades the average raises
    [ZeroDivisionError], and so does the capital turnover of a portfolio
    without capital. *)
Theorem distribution_accounts_for_every_trade (p : PortfolioConfig.t)
  (n : Z) :
  calculate_portfolio_distribution p 0 = inl ZeroDivisionError /\
  (PortfolioConfig.total_capital p == 0 ->
   capital_turnover p n = inl ZeroDivisionError) /\
  (n <> 0%Z ->
   exists d,
     calculate_portfolio_distribution p n = inr d /\
     Distribution.total_trades d = n /\
     (Bucket.count (Distribution.high d) + Bucket.count (Distribution.medium d)
      + Bucket.count (Distribution.low d) = n)%Z /\
     Distribution.total_capital_deployed d
     = Bucket.total_capital (Distribution.high d)
       + Bucket.total_capital (Distribution.medium d)
       + Bucket.total_capital (Distribution.low d) /\
     ((0 <= n <= 1000000000)%Z ->
      0 <= PortfolioConfig.high_conf_pct p ->
      0 <= PortfolioConfig.medium_conf_pct p ->
      PortfolioConfig.high_conf_pct p + PortfolioConfig.medium_conf_pct p <= 1 ->
      (0 <= Bucket.count (Distribution.high d))%Z /\
      (0 <= Bucket.count (Distribution.medium d))%Z /\
      (0 <= Bucket.count (Distribution.low d))%Z)).
Proof.
  split; [reflexivity|]. split.
  - intros Hc. unfold capital_turnover.
    destruct (calculate_portfolio_distribution p n) as [e|d] eqn:E.
    + unfold calculate_portfolio_distribution in E. cbv zeta in E.
      unfold py_div in E.
      destruct (Qeq_bool (inject_Z n) 0); [|discriminate E].
      cbn [bind raise] in E. now injection E as <-.
    + cbn [bind]. now apply py_div_raises.
  - intros Hn.
    assert (Hq : ~ inject_Z n == 0).
    { intros E. apply Hn. unfold Qeq in E. cbn in E. lia. }
    unfold calculate_portfolio_distribution. cbv zeta.
    rewrite (py_div_ok _ _ Hq). cbn [bind ret].
    eexists. split; [reflexivity|].
    cbn [Distribution.high Distribution.medium Distribution.low Bucket.count
         Bucket.total_capital Distribution.total_trades
         Distribution.avg_position_size Distribution.total_capital_deployed].
    split; [reflexivity|]. split; [lia|]. split; [reflexivity|].
    intros (Hn0 & _) Hh Hm Hsum.
    set (H := PortfolioConfig.high_conf_pct p) in *.
    set (M := PortfolioConfig.medium_conf_pct p) in *.
    assert (HN : 0 < inject_Z n).
    { unfold Qlt. cbn. lia. }
    assert (HxH : 0 <= inject_Z n * H) by nra.
    assert (HxM : 0 <= inject_Z n * M) by nra.
    destruct (int_bounds _ HxH) as (Hh0 & Hh1).
    destruct (int_bounds _ HxM) as (Hm0 & Hm1).
    set (ch := int (inject_Z n * H)) in *.
    set (cm := int (inject_Z n * M)) in *.
    assert (Hl : inject_Z (n - ch - cm) == inject_Z n - inject_Z ch - inject_Z cm).
    { unfold Zminus. rewrite !inject_Z_plus, !inject_Z_opp. ring. }
    assert (Hl0 : (0 <= n - ch - cm)%Z).
    { assert (Hz : 0 <= inject_Z (n - ch - cm)) by (rewrite Hl; nra).
      unfold Qle in Hz. cbn in Hz. lia. }
    split; [exact Hh0|]. split; [exact Hm0|exact Hl0].
Qed.

Lemma distribution_accounts_for_every_trade_witness :
  exists d,
    calculate_portfolio_distribution (PortfolioConfig.init 1000) 100 = inr d /\
    (Bucket.count (Distribution.high d) + Bucket.count (Distribution.medium d)
     + Bucket.count (Distribution.low d) = 100)%Z.
Proof.
  destruct (proj2 (proj2 (distribution_accounts_for_every_trade
                            (PortfolioConfig.init 1000) 100)))
    as (d & Hd & _ & Hsum & _).
  - discriminate.
  - exists d. split; [exact Hd|exact Hsum].
Defined.
